(** * Chef's Twist: a model of [script.js] and its checked properties

    The script is a browser page controller: it fetches recipes from
    TheMealDB, renders them, keeps a list of saved recipe names in
    [localStorage] and asks a chat-completion service for a themed remix.

    The development follows the script top to bottom.

    - JavaScript strings are sequences of UTF-16 code units ([jsstring]).
    - Every datum the script handles comes out of [JSON.parse] or
      [Response.json()], so JavaScript values are JSON values extended with
      [undefined] ([value]).
    - Synchronous code runs in a state-and-exception monad [M] in which the
      state survives a [throw], as it does in JavaScript.
    - An [async] function receives what its single [fetch] settles to as an
      argument and runs to completion; handlers interleaved at an [await]
      are not modelled. *)

From Stdlib Require Import String Ascii.
From Stdlib Require Import List NArith ZArith Bool Arith Lia Sorted.
From Stdlib Require DecimalNat DecimalN Decimal.
Import ListNotations.

#[local] Set Warnings "-register-all".


(** ** Strings *)

Module JsString.

(** A UTF-16 code unit. Code units are below [65536]; nothing in the model
    relies on the bound. *)
Definition char16 := N.
Definition jsstring := list char16.

(** [js "abc"] is the string of the ASCII literal ["abc"]. *)
Definition js (s : string) : jsstring :=
  map N_of_ascii (list_ascii_of_string s).

(** The double quote, which the literals of this file never contain. *)
Definition DQ : char16 := 34%N.

Fixpoint str_eqb (a b : jsstring) : bool :=
  match a, b with
  | [], [] => true
  | x :: a', y :: b' => N.eqb x y && str_eqb a' b'
  | _, _ => false
  end.

(** [is_prefix p s]: [s] starts with [p]. *)
Fixpoint is_prefix (p s : jsstring) : bool :=
  match p, s with
  | [], _ => true
  | x :: p', y :: s' => N.eqb x y && is_prefix p' s'
  | _ :: _, [] => false
  end.

(** [is_infix p s]: [p] occurs in [s] ([String.prototype.includes]). *)
Fixpoint is_infix (p s : jsstring) : bool :=
  is_prefix p s ||
  match s with
  | [] => false
  | _ :: s' => is_infix p s'
  end.

(** White space and line terminators, the characters that
    [String.prototype.trim] strips. *)
Definition is_js_space (c : char16) : bool :=
  ((9 <=? c) && (c <=? 13) || (c =? 32) || (c =? 160) || (c =? 5760)
   || (8192 <=? c) && (c <=? 8202) || (c =? 8232) || (c =? 8233)
   || (c =? 8239) || (c =? 8287) || (c =? 12288) || (c =? 65279))%N.

Fixpoint trimStart (s : jsstring) : jsstring :=
  match s with
  | c :: s' => if is_js_space c then trimStart s' else s
  | [] => []
  end.

Definition trimEnd (s : jsstring) : jsstring := rev (trimStart (rev s)).

Definition trim (s : jsstring) : jsstring := trimEnd (trimStart s).

(** Decimal digits of a natural number, most significant first. *)
Fixpoint uint_digits (u : Decimal.uint) : list N :=
  match u with
  | Decimal.Nil => []
  | Decimal.D0 u => 0%N :: uint_digits u
  | Decimal.D1 u => 1%N :: uint_digits u
  | Decimal.D2 u => 2%N :: uint_digits u
  | Decimal.D3 u => 3%N :: uint_digits u
  | Decimal.D4 u => 4%N :: uint_digits u
  | Decimal.D5 u => 5%N :: uint_digits u
  | Decimal.D6 u => 6%N :: uint_digits u
  | Decimal.D7 u => 7%N :: uint_digits u
  | Decimal.D8 u => 8%N :: uint_digits u
  | Decimal.D9 u => 9%N :: uint_digits u
  end.

Definition digit_char (d : N) : char16 := (48 + d)%N.

(** [decimal n]: what a template literal prints for the integer [n]. *)
Definition decimal (n : nat) : jsstring :=
  map digit_char (uint_digits (Nat.to_uint n)).

Definition decimalN (n : N) : jsstring :=
  map digit_char (uint_digits (N.to_uint n)).

(** The hexadecimal digit of a value below 16; [upper] selects the case. *)
Definition hex_digit (upper : bool) (d : N) : char16 :=
  (if d <? 10 then 48 + d else (if upper then 55 else 87) + d)%N.

End JsString.
Export JsString.

(** ** Values *)

Module JsValue.

(** A number is kept as an exact decimal: [0.d1 d2 ... dk * 10^point] with
    [digits = [d1; ...; dk]], no leading and no trailing zero, and the
    empty digit list for zero. The script does no arithmetic; numbers are
    only tested for zero, compared and printed. Rounding to binary64 is
    not modelled. *)
Record number := Number { negative : bool; digits : list N; point : Z }.

Inductive value : Type :=
| VUndefined
| VNull
| VBool (b : bool)
| VNum (n : number)
| VStr (s : jsstring)
| VArr (elems : list value)
| VObj (props : list (jsstring * value)).

(** The own properties of an object, in enumeration order; keys are
    pairwise distinct. *)
Fixpoint lookup (k : jsstring) (props : list (jsstring * value)) : option value :=
  match props with
  | [] => None
  | (k', v) :: rest => if str_eqb k k' then Some v else lookup k rest
  end.

(** *** Numbers *)

Fixpoint strip_zeros (ds : list N) : list N :=
  match ds with
  | d :: ds' => if (d =? 0)%N then strip_zeros ds' else ds
  | [] => []
  end.

Definition strip_trailing_zeros (ds : list N) : list N :=
  rev (strip_zeros (rev ds)).

(** Canonical form: leading zeros move the point, trailing zeros are
    dropped, and zero has one representation (the sign of zero is not
    observable in the script). *)
Definition normalise (n : number) : number :=
  let lead := strip_zeros (digits n) in
  let ds := strip_trailing_zeros lead in
  match ds with
  | [] => Number false [] 0
  | _ => Number (negative n) ds
           (point n - Z.of_nat (length (digits n) - length lead))
  end.

Definition number_of_nat (n : nat) : number :=
  let ds := uint_digits (Nat.to_uint n) in
  normalise (Number false ds (Z.of_nat (length ds))).

Definition is_zero (n : number) : bool :=
  match strip_zeros (digits n) with [] => true | _ => false end.

Fixpoint digits_eqb (a b : list N) : bool :=
  match a, b with
  | [], [] => true
  | x :: a', y :: b' => N.eqb x y && digits_eqb a' b'
  | _, _ => false
  end.

Definition number_eqb (a b : number) : bool :=
  let a' := normalise a in
  let b' := normalise b in
  Bool.eqb (negative a') (negative b')
  && digits_eqb (digits a') (digits b')
  && Z.eqb (point a') (point b').

Definition zeros (n : nat) : jsstring := repeat 48%N n.

(** [Number::toString] (radix 10) on a canonical number with [k] digits
    and decimal point after [n] digits. *)
Definition number_to_string (x : number) : jsstring :=
  let x := normalise x in
  let ds := map digit_char (digits x) in
  let k := Z.of_nat (length ds) in
  let n := point x in
  match ds with
  | [] => js "0"
  | d :: rest =>
      (if negative x then js "-" else [])
      ++ (if (k <=? n)%Z && (n <=? 21)%Z then
            ds ++ zeros (Z.to_nat (n - k))
          else if (0 <? n)%Z && (n <=? 21)%Z then
            firstn (Z.to_nat n) ds ++ js "." ++ skipn (Z.to_nat n) ds
          else if (-6 <? n)%Z && (n <=? 0)%Z then
            js "0." ++ zeros (Z.to_nat (- n)) ++ ds
          else
            let e := (n - 1)%Z in
            (d :: match rest with [] => [] | _ => js "." ++ rest end)
            ++ js "e" ++ (if (e <? 0)%Z then js "-" else js "+")
            ++ decimalN (Z.to_N (Z.abs e)))
  end.

(** *** Conversions *)

(** [ToBoolean]. *)
Definition truthy (v : value) : bool :=
  match v with
  | VUndefined | VNull => false
  | VBool b => b
  | VNum n => negb (is_zero n)
  | VStr s => match s with [] => false | _ => true end
  | VArr _ | VObj _ => true
  end.

(** [ToString], as a template literal applies it: the string that the
    conversion gives when it completes normally. [stringable] below says
    when it does. *)
Fixpoint ToString (v : value) : jsstring :=
  match v with
  | VUndefined => js "undefined"
  | VNull => js "null"
  | VBool true => js "true"
  | VBool false => js "false"
  | VNum n => number_to_string n
  | VStr s => s
  | VArr l =>
      (fix join (l : list value) : jsstring :=
         match l with
         | [] => []
         | x :: r =>
             match x with
             | VUndefined | VNull => []
             | _ => ToString x
             end ++
             match r with
             | [] => []
             | _ => js "," ++ join r
             end
         end) l
  | VObj _ => js "[object Object]"
  end.

(** The conversion of a value to a string completes normally unless it
    reaches an object with an own property [toString]. JSON gives no
    functions, so such a property hides [Object.prototype.toString] with a
    value that cannot be called; [valueOf], own or inherited, gives no
    primitive either, and [OrdinaryToPrimitive] ends in a [TypeError]. An
    array is converted by joining its elements, [null] and [undefined]
    among them as the empty string. [v + ' '] asks [valueOf] before
    [toString] and throws in the same cases. *)
Fixpoint stringable (v : value) : bool :=
  match v with
  | VArr l =>
      (fix all (l : list value) : bool :=
         match l with
         | [] => true
         | x :: r => stringable x && all r
         end) l
  | VObj props =>
      match lookup (js "toString") props with
      | Some _ => false
      | None => true
      end
  | _ => true
  end.

(** [SameValueZero] ([Array.prototype.includes]) and [===]. The two differ
    on [NaN] only, which JSON cannot produce. Arrays and objects compare
    by identity; the script only ever compares a value with elements of a
    list it has just parsed, so two of them are never the same object. *)
Definition strict_equal (a b : value) : bool :=
  match a, b with
  | VUndefined, VUndefined => true
  | VNull, VNull => true
  | VBool x, VBool y => Bool.eqb x y
  | VNum x, VNum y => number_eqb x y
  | VStr x, VStr y => str_eqb x y
  | _, _ => false
  end.

End JsValue.
Export JsValue.

(** ** Completions *)

Module Completion.

(** The exceptions the script can meet. [Error msg] is [new Error(msg)], and
    [NetworkFailure] is the [TypeError] with which [fetch] rejects when the
    transport fails, kept apart from the [TypeError] of a bad property
    access. *)
Inductive exn : Type :=
| TypeError
| SyntaxError
| URIError
| ReferenceError
| SecurityError
| QuotaExceededError
| NetworkFailure
| Error (msg : jsstring).

Inductive outcome (A : Type) : Type :=
| Ok (a : A)
| Throw (e : exn).
Arguments Ok {A} a.
Arguments Throw {A} e.

Definition obind {A B} (o : outcome A) (k : A -> outcome B) : outcome B :=
  match o with
  | Ok a => k a
  | Throw e => Throw e
  end.

End Completion.
Export Completion.

Declare Scope js_scope.
Delimit Scope js_scope with js.
Notation "x <-? o ;; k" := (obind o (fun x => k))
  (at level 61, o at next level, right associativity) : js_scope.
Open Scope js_scope.

(** ** Property access and built-in methods *)

Module JsObject.

(** [ToString(v)] with its abrupt completion. *)
Definition to_string (v : value) : outcome jsstring :=
  if stringable v then Ok (ToString v) else Throw TypeError.

Definition is_digit (c : char16) : bool := ((48 <=? c) && (c <=? 57))%N.

Fixpoint digits_value (acc : N) (s : jsstring) : option N :=
  match s with
  | [] => Some acc
  | c :: r =>
      if is_digit c then digits_value (10 * acc + (c - 48))%N r
      else None
  end.

(** The array index a property key denotes: a canonical decimal numeral
    below [2^32 - 1]. *)
Definition index_of_key (k : jsstring) : option nat :=
  match k with
  | [] => None
  | _ =>
      match digits_value 0 k with
      | Some n =>
          if str_eqb (decimalN n) k && (n <? 4294967295)%N
          then Some (N.to_nat n) else None
      | None => None
      end
  end.

(** [v[k]] on a value that is neither [null] nor [undefined], for the keys
    the script uses (own properties, indices and [length]; none of them
    names a member of a prototype). *)
Definition get_own (v : value) (k : jsstring) : value :=
  match v with
  | VObj props =>
      match lookup k props with Some x => x | None => VUndefined end
  | VArr l =>
      if str_eqb k (js "length") then VNum (number_of_nat (length l))
      else match index_of_key k with
           | Some i => nth i l VUndefined
           | None => VUndefined
           end
  | VStr s =>
      if str_eqb k (js "length") then VNum (number_of_nat (length s))
      else match index_of_key k with
           | Some i =>
               match nth_error s i with
               | Some c => VStr [c]
               | None => VUndefined
               end
           | None => VUndefined
           end
  | _ => VUndefined
  end.

(** [v[k]] and [v.k]: a [TypeError] on [null] and [undefined]. *)
Definition get_prop (v : value) (k : jsstring) : outcome value :=
  match v with
  | VUndefined | VNull => Throw TypeError
  | _ => Ok (get_own v k)
  end.

(** [v?.[k]] and [v?.k]. *)
Definition opt_get (v : value) (k : jsstring) : value :=
  match v with
  | VUndefined | VNull => VUndefined
  | _ => get_own v k
  end.

(** [v.trim()]: strings have the method; on any other value that passed a
    truthiness test the call is a [TypeError]. *)
Definition call_trim (v : value) : outcome value :=
  match v with
  | VStr s => Ok (VStr (trim s))
  | _ => Throw TypeError
  end.

(** [v.replace(re, by)] with the substitution [f] the call performs. *)
Definition call_replace (f : jsstring -> jsstring) (v : value) : outcome value :=
  match v with
  | VStr s => Ok (VStr (f s))
  | _ => Throw TypeError
  end.

Definition LF : char16 := 10%N.
Definition CR : char16 := 13%N.

(** [s.replace(/\r?\n/g, "<br>")]. *)
Fixpoint replace_crlf_br (s : jsstring) : jsstring :=
  match s with
  | [] => []
  | c :: r =>
      if (c =? LF)%N then js "<br>" ++ replace_crlf_br r
      else if (c =? CR)%N then
        match r with
        | d :: r' =>
            if (d =? LF)%N then js "<br>" ++ replace_crlf_br r'
            else c :: replace_crlf_br r
        | [] => [c]
        end
      else c :: replace_crlf_br r
  end.

(** [s.replace(/\n\n/g, "<br><br>")]. *)
Fixpoint replace_lflf_brbr (s : jsstring) : jsstring :=
  match s with
  | [] => []
  | c :: r =>
      if (c =? LF)%N then
        match r with
        | d :: r' =>
            if (d =? LF)%N then js "<br><br>" ++ replace_lflf_brbr r'
            else c :: replace_lflf_brbr r
        | [] => [c]
        end
      else c :: replace_lflf_brbr r
  end.

(** [s.replace(/\n/g, "<br>")]. *)
Fixpoint replace_lf_br (s : jsstring) : jsstring :=
  match s with
  | [] => []
  | c :: r =>
      if (c =? LF)%N then js "<br>" ++ replace_lf_br r
      else c :: replace_lf_br r
  end.

(** [list.includes(name)]. Arrays search with [SameValueZero]; a string
    searches for [ToString(name)] as a substring; nothing else that JSON
    can produce has the method. *)
Definition call_includes (list name : value) : outcome bool :=
  match list with
  | VArr l => Ok (existsb (strict_equal name) l)
  | VStr s => t <-? to_string name ;; Ok (is_infix t s)
  | _ => Throw TypeError
  end.

(** [list.push(name)], returning the array after the push. *)
Definition call_push (list name : value) : outcome value :=
  match list with
  | VArr l => Ok (VArr (l ++ [name]))
  | _ => Throw TypeError
  end.

(** [list.filter(n => n !== name)]. *)
Definition call_filter_neq (list name : value) : outcome value :=
  match list with
  | VArr l => Ok (VArr (filter (fun n => negb (strict_equal n name)) l))
  | _ => Throw TypeError
  end.

End JsObject.
Export JsObject.

(** ** [JSON.stringify] *)

Module JsonStringify.

Local Open Scope N_scope.

Definition is_high_surrogate (c : char16) : bool := (55296 <=? c) && (c <=? 56319).
Definition is_low_surrogate (c : char16) : bool := (56320 <=? c) && (c <=? 57343).

Definition hex4 (upper : bool) (c : N) : jsstring :=
  [ hex_digit upper ((c / 4096) mod 16); hex_digit upper ((c / 256) mod 16);
    hex_digit upper ((c / 16) mod 16); hex_digit upper (c mod 16) ].

(** [\uXXXX] with lower-case digits. *)
Definition unicode_escape (c : char16) : jsstring := js "\u" ++ hex4 false c.

Definition quote_char (c : char16) : jsstring :=
  if c =? 8 then js "\b"
  else if c =? 9 then js "\t"
  else if c =? 10 then js "\n"
  else if c =? 12 then js "\f"
  else if c =? 13 then js "\r"
  else if c =? 34 then [92; 34]
  else if c =? 92 then [92; 92]
  else if c <? 32 then unicode_escape c
  else [c].

(** The body of [QuoteJSONString]: paired surrogates pass, lone ones are
    escaped. *)
Fixpoint quote_chars (s : jsstring) : jsstring :=
  match s with
  | [] => []
  | c :: r =>
      if is_high_surrogate c then
        match r with
        | d :: r' =>
            if is_low_surrogate d then c :: d :: quote_chars r'
            else unicode_escape c ++ quote_chars r
        | [] => unicode_escape c
        end
      else if is_low_surrogate c then unicode_escape c ++ quote_chars r
      else quote_char c ++ quote_chars r
  end.

Definition quote (s : jsstring) : jsstring := DQ :: quote_chars s ++ [DQ].

Fixpoint join (sep : jsstring) (parts : list jsstring) : jsstring :=
  match parts with
  | [] => []
  | [p] => p
  | p :: rest => p ++ sep ++ join sep rest
  end.

(** The brackets around the serialized parts of an array or object. *)
Definition wrap (gap stepback indent : jsstring) (opening closing : char16)
           (parts : list jsstring) : jsstring :=
  match parts with
  | [] => [opening; closing]
  | _ =>
      match gap with
      | [] => opening :: join (js ",") parts ++ [closing]
      | _ =>
          opening :: LF :: indent
          ++ join (js "," ++ LF :: indent) parts
          ++ LF :: stepback ++ [closing]
      end
  end.

(** [SerializeJSONProperty]: [None] is [undefined]. [gap] is the
    indentation unit and [indent] the current indentation. *)
Fixpoint serialize (gap indent : jsstring) (v : value) {struct v} : option jsstring :=
  match v with
  | VUndefined => None
  | VNull => Some (js "null")
  | VBool true => Some (js "true")
  | VBool false => Some (js "false")
  | VNum n => Some (number_to_string n)
  | VStr s => Some (quote s)
  | VArr l =>
      let inner := (indent ++ gap)%list in
      Some (wrap gap indent inner 91 93
              ((fix elems (l : list value) : list jsstring :=
                  match l with
                  | [] => []
                  | x :: r =>
                      match serialize gap inner x with
                      | Some t => t
                      | None => js "null"
                      end :: elems r
                  end) l))
  | VObj props =>
      let inner := (indent ++ gap)%list in
      Some (wrap gap indent inner 123 125
              ((fix members (ps : list (jsstring * value)) : list jsstring :=
                  match ps with
                  | [] => []
                  | (k, x) :: r =>
                      match serialize gap inner x with
                      | Some t =>
                          (quote k ++ js ":"
                           ++ match gap with [] => [] | _ => js " " end
                           ++ t)%list :: members r
                      | None => members r
                      end
                  end) props))
  end.

(** [JSON.stringify(v)]. *)
Definition JSON_stringify (v : value) : option jsstring := serialize [] [] v.

(** [JSON.stringify(v, null, 2)]. *)
Definition JSON_stringify_2 (v : value) : option jsstring :=
  serialize (js "  ") [] v.

(** What a template literal or a [DOMString] parameter makes of the
    result of [JSON.stringify]. *)
Definition string_of_json (o : option jsstring) : jsstring :=
  match o with
  | Some s => s
  | None => js "undefined"
  end.

End JsonStringify.
Export JsonStringify.

(** ** [JSON.parse] *)

Module JsonParse.

Local Open Scope N_scope.

(** The result of a parser on an input: the value and the unread rest, a
    syntax error, or exhaustion of the recursion budget (which
    [JSON_parse] never meets, see [JSON_parse_budget]). *)
Inductive parsed (A : Type) : Type :=
| Parsed (a : A) (rest : jsstring)
| Invalid
| OutOfFuel.
Arguments Parsed {A} a rest.
Arguments Invalid {A}.
Arguments OutOfFuel {A}.

Definition is_json_ws (c : char16) : bool :=
  (c =? 32) || (c =? 9) || (c =? 10) || (c =? 13).

Fixpoint skip_ws (s : jsstring) : jsstring :=
  match s with
  | c :: r => if is_json_ws c then skip_ws r else s
  | [] => []
  end.

Definition hex_value (c : char16) : option N :=
  if (48 <=? c) && (c <=? 57) then Some (c - 48)
  else if (97 <=? c) && (c <=? 102) then Some (c - 87)
  else if (65 <=? c) && (c <=? 70) then Some (c - 55)
  else None.

Definition hex4_value (a b c d : char16) : option N :=
  match hex_value a, hex_value b, hex_value c, hex_value d with
  | Some x, Some y, Some z, Some w => Some (4096 * x + 256 * y + 16 * z + w)
  | _, _, _, _ => None
  end.

Definition simple_escape (c : char16) : option char16 :=
  if c =? 34 then Some 34          (* quote *)
  else if c =? 92 then Some 92     (* backslash *)
  else if c =? 47 then Some 47     (* solidus *)
  else if c =? 98 then Some 8      (* b *)
  else if c =? 102 then Some 12    (* f *)
  else if c =? 110 then Some 10    (* n *)
  else if c =? 114 then Some 13    (* r *)
  else if c =? 116 then Some 9     (* t *)
  else None.

(** The characters of a string literal after its opening quote, up to and
    including the closing quote. *)
Fixpoint string_body (s : jsstring) : option (jsstring * jsstring) :=
  match s with
  | [] => None
  | c :: r =>
      if c =? 34 then Some ([], r)
      else if c =? 92 then
        match r with
        | [] => None
        | e :: r1 =>
            if e =? 117 then
              match r1 with
              | h1 :: h2 :: h3 :: h4 :: r2 =>
                  match hex4_value h1 h2 h3 h4 with
                  | Some u =>
                      match string_body r2 with
                      | Some (t, rest) => Some (u :: t, rest)
                      | None => None
                      end
                  | None => None
                  end
              | _ => None
              end
            else
              match simple_escape e with
              | Some u =>
                  match string_body r1 with
                  | Some (t, rest) => Some (u :: t, rest)
                  | None => None
                  end
              | None => None
              end
        end
      else if c <? 32 then None
      else
        match string_body r with
        | Some (t, rest) => Some (c :: t, rest)
        | None => None
        end
  end.

Fixpoint span_digits (s : jsstring) : list N * jsstring :=
  match s with
  | c :: r =>
      if is_digit c then
        let (ds, rest) := span_digits r in ((c - 48) :: ds, rest)
      else ([], s)
  | [] => ([], [])
  end.

Definition digits_to_Z (ds : list N) : Z :=
  fold_left (fun acc d => (10 * acc + Z.of_N d)%Z) ds 0%Z.

(** The integer part of a number: a single [0], or a digit run that does
    not start with [0]. *)
Definition int_part (s : jsstring) : option (list N * jsstring) :=
  match s with
  | c :: r =>
      if c =? 48 then Some ([0], r)
      else if is_digit c then Some (span_digits s)
      else None
  | [] => None
  end.

Definition frac_part (s : jsstring) : option (list N * jsstring) :=
  match s with
  | c :: r =>
      if c =? 46 then
        match span_digits r with
        | ([], _) => None
        | (fs, rest) => Some (fs, rest)
        end
      else Some ([], s)
  | [] => Some ([], s)
  end.

Definition exp_digits (neg : bool) (s : jsstring) : option (Z * jsstring) :=
  match span_digits s with
  | ([], _) => None
  | (es, rest) =>
      Some ((if neg then - digits_to_Z es else digits_to_Z es)%Z, rest)
  end.

Definition exp_part (s : jsstring) : option (Z * jsstring) :=
  match s with
  | c :: r =>
      if (c =? 101) || (c =? 69) then
        match r with
        | d :: r' =>
            if d =? 43 then exp_digits false r'
            else if d =? 45 then exp_digits true r'
            else exp_digits false r
        | [] => None
        end
      else Some (0%Z, s)
  | [] => Some (0%Z, s)
  end.

Definition parse_number (s : jsstring) : option (number * jsstring) :=
  let '(neg, s1) :=
    match s with
    | c :: r => if c =? 45 then (true, r) else (false, s)
    | [] => (false, s)
    end in
  match int_part s1 with
  | None => None
  | Some (ints, s2) =>
      match frac_part s2 with
      | None => None
      | Some (fracs, s3) =>
          match exp_part s3 with
          | None => None
          | Some (e, s4) =>
              Some (normalise
                      (Number neg (ints ++ fracs)
                         (Z.of_nat (length ints) + e)), s4)
          end
      end
  end.

(** Array indices are enumerated before the other keys, in ascending
    order; the other keys follow in insertion order. A key that is
    already present keeps its place and takes the new value. *)
Fixpoint set_prop (k : jsstring) (v : value) (props : list (jsstring * value))
  : list (jsstring * value) :=
  match props with
  | [] => [(k, v)]
  | (k', v') :: rest =>
      if str_eqb k k' then (k, v) :: rest
      else
        match index_of_key k, index_of_key k' with
        | Some i, Some i' =>
            if (i <? i')%nat then (k, v) :: props
            else (k', v') :: set_prop k v rest
        | Some _, None => (k, v) :: props
        | None, _ => (k', v') :: set_prop k v rest
        end
  end.

Definition literal (word : jsstring) (v : value) (s : jsstring) : parsed value :=
  if is_prefix word s then Parsed v (skipn (length word) s) else Invalid.

(** [parse_value] reads one JSON value; [parse_elems] the elements of an
    array after its opening bracket, and [parse_members] the members of
    an object after its opening brace, both up to the closing one. *)
Fixpoint parse_value (fuel : nat) (s : jsstring) {struct fuel} : parsed value :=
  match fuel with
  | O => OutOfFuel
  | S fuel' =>
      match s with
      | [] => Invalid
      | c :: r =>
          if c =? 34 then
            match string_body r with
            | Some (t, rest) => Parsed (VStr t) rest
            | None => Invalid
            end
          else if c =? 91 then
            match skip_ws r with
            | d :: r' =>
                if d =? 93 then Parsed (VArr []) r'
                else parse_elems fuel' [] (d :: r')
            | [] => Invalid
            end
          else if c =? 123 then
            match skip_ws r with
            | d :: r' =>
                if d =? 125 then Parsed (VObj []) r'
                else parse_members fuel' [] (d :: r')
            | [] => Invalid
            end
          else if c =? 116 then literal (js "true") (VBool true) s
          else if c =? 102 then literal (js "false") (VBool false) s
          else if c =? 110 then literal (js "null") VNull s
          else
            match parse_number s with
            | Some (n, rest) => Parsed (VNum n) rest
            | None => Invalid
            end
      end
  end

with parse_elems (fuel : nat) (acc : list value) (s : jsstring) {struct fuel}
  : parsed value :=
  match fuel with
  | O => OutOfFuel
  | S fuel' =>
      match parse_value fuel' s with
      | Parsed v rest =>
          match skip_ws rest with
          | d :: r =>
              if d =? 44 then parse_elems fuel' (acc ++ [v])%list (skip_ws r)
              else if d =? 93 then Parsed (VArr (acc ++ [v])) r
              else Invalid
          | [] => Invalid
          end
      | Invalid => Invalid
      | OutOfFuel => OutOfFuel
      end
  end

with parse_members (fuel : nat) (acc : list (jsstring * value)) (s : jsstring)
       {struct fuel} : parsed value :=
  match fuel with
  | O => OutOfFuel
  | S fuel' =>
      match s with
      | q :: r =>
          if q =? 34 then
            match string_body r with
            | Some (k, rest) =>
                match skip_ws rest with
                | colon :: r1 =>
                    if colon =? 58 then
                      match parse_value fuel' (skip_ws r1) with
                      | Parsed v rest' =>
                          match skip_ws rest' with
                          | d :: r2 =>
                              if d =? 44 then
                                parse_members fuel' (set_prop k v acc) (skip_ws r2)
                              else if d =? 125 then
                                Parsed (VObj (set_prop k v acc)) r2
                              else Invalid
                          | [] => Invalid
                          end
                      | Invalid => Invalid
                      | OutOfFuel => OutOfFuel
                      end
                    else Invalid
                | [] => Invalid
                end
            | None => Invalid
            end
          else Invalid
      | [] => Invalid
      end
  end.

(** [JSON.parse(text)]: one value between optional white space, and
    nothing else. *)
Definition JSON_parse (text : jsstring) : outcome value :=
  match parse_value (2 * length text + 2) (skip_ws text) with
  | Parsed v rest =>
      match skip_ws rest with
      | [] => Ok v
      | _ => Throw SyntaxError
      end
  | Invalid | OutOfFuel => Throw SyntaxError
  end.

End JsonParse.
Export JsonParse.

(** ** [encodeURIComponent] *)

Module JsUri.

Local Open Scope N_scope.

(** Letters, digits and [- _ . ! ~ * ' ( )] are left as they are. *)
Definition uri_unreserved (c : char16) : bool :=
  (65 <=? c) && (c <=? 90) || (97 <=? c) && (c <=? 122)
  || (48 <=? c) && (c <=? 57)
  || (c =? 45) || (c =? 95) || (c =? 46) || (c =? 33) || (c =? 126)
  || (c =? 42) || (c =? 39) || (c =? 40) || (c =? 41).

(** The UTF-8 encoding of a code point. *)
Definition utf8 (cp : N) : list N :=
  if cp <? 128 then [cp]
  else if cp <? 2048 then [192 + cp / 64; 128 + cp mod 64]
  else if cp <? 65536 then
    [224 + cp / 4096; 128 + (cp / 64) mod 64; 128 + cp mod 64]
  else
    [240 + cp / 262144; 128 + (cp / 4096) mod 64;
     128 + (cp / 64) mod 64; 128 + cp mod 64].

Definition percent (b : N) : jsstring :=
  [37; hex_digit true (b / 16); hex_digit true (b mod 16)].

Definition percent_encode (cp : N) : jsstring := flat_map percent (utf8 cp).

(** A lone surrogate is a [URIError]. *)
Fixpoint encodeURIComponent (s : jsstring) : outcome jsstring :=
  match s with
  | [] => Ok []
  | c :: r =>
      if uri_unreserved c then
        t <-? encodeURIComponent r ;; Ok (c :: t)
      else if is_low_surrogate c then Throw URIError
      else if is_high_surrogate c then
        match r with
        | d :: r' =>
            if is_low_surrogate d then
              t <-? encodeURIComponent r' ;;
              Ok (percent_encode (65536 + (c - 55296) * 1024 + (d - 56320)) ++ t)%list
            else Throw URIError
        | [] => Throw URIError
        end
      else
        t <-? encodeURIComponent r ;; Ok (percent_encode c ++ t)%list
  end.

End JsUri.
Export JsUri.

(** ** The page: state, effects and the environment *)

Module Page.

(** [localStorage], as far as the script sees it: whether the origin may
    use it at all (the accessor throws a [SecurityError] otherwise), what
    is stored under ['savedRecipes'], and how long a value the quota still
    admits there ([setItem] throws a [QuotaExceededError] beyond it). *)
Record Storage := {
  available : bool;
  slot : option jsstring;
  capacity : N
}.

(** What a click on an element of the saved list runs. *)
Inductive listener : Type :=
| OnClickLoad (name : value)      (* fetchAndDisplayRecipeByName(name) *)
| OnClickDelete (name : value).   (* stopPropagation; deleteSavedRecipe(name) *)

Record SpanElement := {
  span_textContent : jsstring;
  span_className : jsstring;
  span_cursor : jsstring;
  span_title : jsstring;
  span_click : listener
}.

Record ButtonElement := {
  button_textContent : jsstring;
  button_className : jsstring;
  button_marginLeft : jsstring;
  button_click : listener
}.

(** One [<li>] of the saved list: the name, then its delete button. *)
Record LiElement := {
  li_className : jsstring;
  li_span : SpanElement;
  li_button : ButtonElement
}.

(** The element [#recipe-display]: its markup, and whether the element in
    it that [getElementById('save-recipe-btn')] found has the click
    listener of the save button. *)
Record Display := {
  innerHTML : jsstring;
  save_listener : bool
}.

Record Request := {
  url : jsstring;
  method : jsstring;
  headers : list (jsstring * jsstring);
  body : option jsstring
}.

Record Response := {
  ok : bool;
  status : N;
  text : jsstring
}.

(** What the promise of [fetch] settles to. *)
Inductive settled : Type :=
| Rejected
| Fulfilled (res : Response).

(** A call of [console.error(label, err)]. *)
Record LogEntry := { log_label : jsstring; log_error : exn }.

(** The globals of the script and the part of the browser it touches. An
    element is [None] when [getElementById] found none. The texts of a
    recipe are spliced into the markup of the display as they are, so
    whether the save button can be found in it afterwards is for the
    parser of the page to say; the page outside the display is taken to
    hold no element with the id of the button. *)
Record State := {
  currentRecipe : value;
  recipeDisplay : option Display;
  remixOutput : option jsstring;          (* innerHTML *)
  remixThemeSelect : option jsstring;     (* value *)
  savedContainer : option jsstring;       (* style.display *)
  savedList : option (list LiElement);    (* children *)
  localStorage : Storage;
  OPENAI_API_KEY : option value;          (* [None]: not declared *)
  console : list LogEntry;
  requests : list Request;
  finds_save_btn : jsstring -> bool
    (* [getElementById('save-recipe-btn')] finds an element once the
       display holds this markup: the parser of the page decides *)
}.

(** Computations: the state is threaded through and is kept when an
    exception is thrown. *)
Definition M (A : Type) : Type := State -> outcome A * State.

Definition ret {A} (a : A) : M A := fun st => (Ok a, st).

Definition bind {A B} (m : M A) (k : A -> M B) : M B :=
  fun st =>
    match m st with
    | (Ok a, st') => k a st'
    | (Throw e, st') => (Throw e, st')
    end.

Definition throw {A} (e : exn) : M A := fun st => (Throw e, st).

Definition lift {A} (o : outcome A) : M A := fun st => (o, st).

(** [try { body } catch (err) { handler }]. *)
Definition try_catch {A} (body : M A) (handler : exn -> M A) : M A :=
  fun st =>
    match body st with
    | (Ok a, st') => (Ok a, st')
    | (Throw e, st') => handler e st'
    end.

Definition get_state : M State := fun st => (Ok st, st).

End Page.
Export Page.

Notation "x <- m ;; k" := (bind m (fun x => k))
  (at level 61, m at next level, right associativity) : js_scope.
Notation "m ;; k" := (bind m (fun _ => k))
  (at level 61, right associativity) : js_scope.


(** ** Primitive effects *)

Module Effects.

Definition set_currentRecipe (v : value) : M unit := fun st =>
  (Ok tt,
   {| currentRecipe := v;
      recipeDisplay := recipeDisplay st;
      remixOutput := remixOutput st;
      remixThemeSelect := remixThemeSelect st;
      savedContainer := savedContainer st;
      savedList := savedList st;
      localStorage := localStorage st;
      OPENAI_API_KEY := OPENAI_API_KEY st;
      console := console st;
      requests := requests st;
      finds_save_btn := finds_save_btn st |}).

Definition put_recipeDisplay (d : Display) (st : State) : State :=
  {| currentRecipe := currentRecipe st;
     recipeDisplay := Some d;
     remixOutput := remixOutput st;
     remixThemeSelect := remixThemeSelect st;
     savedContainer := savedContainer st;
     savedList := savedList st;
     localStorage := localStorage st;
     OPENAI_API_KEY := OPENAI_API_KEY st;
     console := console st;
     requests := requests st;
     finds_save_btn := finds_save_btn st |}.

(** [recipeDisplay.innerHTML = html]: the former children, the save button
    among them, are gone. *)
Definition set_recipeDisplay_innerHTML (html : jsstring) : M unit := fun st =>
  match recipeDisplay st with
  | None => (Throw TypeError, st)
  | Some _ =>
      (Ok tt, put_recipeDisplay {| innerHTML := html; save_listener := false |} st)
  end.

(** [recipeDisplay.insertAdjacentHTML('beforeend', html)]. *)
Definition recipeDisplay_insert_beforeend (html : jsstring) : M unit := fun st =>
  match recipeDisplay st with
  | None => (Throw TypeError, st)
  | Some d =>
      (Ok tt, put_recipeDisplay
                {| innerHTML := innerHTML d ++ html;
                   save_listener := save_listener d |} st)
  end.

(** [const saveBtn = document.getElementById('save-recipe-btn');
    if (saveBtn) saveBtn.addEventListener('click', ...)] right after
    [renderRecipe] wrote its markup. *)
Definition add_save_listener : M unit := fun st =>
  match recipeDisplay st with
  | None => (Ok tt, st)
  | Some d =>
      if finds_save_btn st (innerHTML d) then
        (Ok tt, put_recipeDisplay
                  {| innerHTML := innerHTML d; save_listener := true |} st)
      else (Ok tt, st)
  end.

(** [remixOutput.innerHTML = html]. *)
Definition set_remixOutput_innerHTML (html : jsstring) : M unit := fun st =>
  match remixOutput st with
  | None => (Throw TypeError, st)
  | Some _ =>
      (Ok tt,
       {| currentRecipe := currentRecipe st;
          recipeDisplay := recipeDisplay st;
          remixOutput := Some html;
          remixThemeSelect := remixThemeSelect st;
          savedContainer := savedContainer st;
          savedList := savedList st;
          localStorage := localStorage st;
          OPENAI_API_KEY := OPENAI_API_KEY st;
          console := console st;
          requests := requests st;
          finds_save_btn := finds_save_btn st |})
  end.

(** [savedContainer.style.display = d], on an element that exists. *)
Definition set_savedContainer_display (d : jsstring) : M unit := fun st =>
  (Ok tt,
   {| currentRecipe := currentRecipe st;
      recipeDisplay := recipeDisplay st;
      remixOutput := remixOutput st;
      remixThemeSelect := remixThemeSelect st;
      savedContainer := Some d;
      savedList := savedList st;
      localStorage := localStorage st;
      OPENAI_API_KEY := OPENAI_API_KEY st;
      console := console st;
      requests := requests st;
      finds_save_btn := finds_save_btn st |}).

Definition put_savedList (items : list LiElement) (st : State) : State :=
  {| currentRecipe := currentRecipe st;
     recipeDisplay := recipeDisplay st;
     remixOutput := remixOutput st;
     remixThemeSelect := remixThemeSelect st;
     savedContainer := savedContainer st;
     savedList := Some items;
     localStorage := localStorage st;
     OPENAI_API_KEY := OPENAI_API_KEY st;
     console := console st;
     requests := requests st;
     finds_save_btn := finds_save_btn st |}.

(** [savedList.innerHTML = '']. *)
Definition clear_savedList : M unit := fun st => (Ok tt, put_savedList [] st).

(** [savedList.appendChild(li)]. *)
Definition savedList_appendChild (li : LiElement) : M unit := fun st =>
  match savedList st with
  | None => (Throw TypeError, st)
  | Some items => (Ok tt, put_savedList (items ++ [li]) st)
  end.

Definition put_localStorage (s : Storage) (st : State) : State :=
  {| currentRecipe := currentRecipe st;
     recipeDisplay := recipeDisplay st;
     remixOutput := remixOutput st;
     remixThemeSelect := remixThemeSelect st;
     savedContainer := savedContainer st;
     savedList := savedList st;
     localStorage := s;
     OPENAI_API_KEY := OPENAI_API_KEY st;
     console := console st;
     requests := requests st;
     finds_save_btn := finds_save_btn st |}.

(** [localStorage.getItem(SAVED_RECIPES_KEY)]. *)
Definition localStorage_getItem : M value := fun st =>
  if available (localStorage st) then
    (Ok match slot (localStorage st) with
        | Some raw => VStr raw
        | None => VNull
        end, st)
  else (Throw SecurityError, st).

(** [localStorage.setItem(SAVED_RECIPES_KEY, v)]. *)
Definition localStorage_setItem (v : jsstring) : M unit := fun st =>
  let ls := localStorage st in
  if available ls then
    if (N.of_nat (length v) <=? capacity ls)%N then
      (Ok tt, put_localStorage
                {| available := true; slot := Some v; capacity := capacity ls |} st)
    else (Throw QuotaExceededError, st)
  else (Throw SecurityError, st).

(** [console.error(label, err)]. *)
Definition console_error (label : jsstring) (err : exn) : M unit := fun st =>
  (Ok tt,
   {| currentRecipe := currentRecipe st;
      recipeDisplay := recipeDisplay st;
      remixOutput := remixOutput st;
      remixThemeSelect := remixThemeSelect st;
      savedContainer := savedContainer st;
      savedList := savedList st;
      localStorage := localStorage st;
      OPENAI_API_KEY := OPENAI_API_KEY st;
      console := console st ++ [{| log_label := label; log_error := err |}];
      requests := requests st;
      finds_save_btn := finds_save_btn st |}).

(** [await fetch(...)]: the request goes out, and the promise settles as
    the environment decides. *)
Definition fetch (req : Request) (s : settled) : M Response := fun st =>
  (match s with
   | Fulfilled res => Ok res
   | Rejected => Throw NetworkFailure
   end,
   {| currentRecipe := currentRecipe st;
      recipeDisplay := recipeDisplay st;
      remixOutput := remixOutput st;
      remixThemeSelect := remixThemeSelect st;
      savedContainer := savedContainer st;
      savedList := savedList st;
      localStorage := localStorage st;
      OPENAI_API_KEY := OPENAI_API_KEY st;
      console := console st;
      requests := requests st ++ [req];
      finds_save_btn := finds_save_btn st |}).

(** [await res.json()]. *)
Definition json (res : Response) : outcome value := JSON_parse (text res).

(** A [fetch(url)] without options. *)
Definition GET (u : jsstring) : Request :=
  {| url := u; method := js "GET"; headers := []; body := None |}.

(** The reference [OPENAI_API_KEY]. *)
Definition read_OPENAI_API_KEY : M value := fun st =>
  match OPENAI_API_KEY st with
  | Some k => (Ok k, st)
  | None => (Throw ReferenceError, st)
  end.

End Effects.
Export Effects.

(** ** The script *)

Module Script.

(** [jsq "a 'b'"] is the literal with every apostrophe read as a double
    quote. *)
Definition jsq (s : string) : jsstring :=
  map (fun c => if (c =? 39)%N then DQ else c) (js s).

(** The three characters that the source file holds where an em dash was
    meant, and the four where a spoon was. *)
Definition dash : jsstring := [226; 8364; 8221]%N.
Definition spoon : jsstring := [240; 376; 165; 8222]%N.

Definition SAVED_RECIPES_KEY : jsstring := js "savedRecipes".

(** [for (let i = first; ...; i++)] over [count] indices, threading the
    variable the body updates. *)
Fixpoint for_indices {A} (body : nat -> A -> outcome A)
         (count first : nat) (acc : A) : outcome A :=
  match count with
  | O => Ok acc
  | S n => acc' <-? body first acc ;; for_indices body n (S first) acc'
  end.

Definition strIngredient (i : nat) : jsstring := js "strIngredient" ++ decimal i.
Definition strMeasure (i : nat) : jsstring := js "strMeasure" ++ decimal i.

(** [ing && ing.trim()]. *)
Definition ing_and_trim (ing : value) : outcome value :=
  if truthy ing then call_trim ing else Ok ing.

(** [meas ? meas + ' ' : ''], whose [+] converts the measure. *)
Definition measure_and_space (meas : value) : outcome jsstring :=
  if truthy meas then m <-? to_string meas ;; Ok (m ++ js " ") else Ok [].

(** The item [<li>...</li>] of one slot, as the template literal gives it
    when its conversions complete: the measure and a space when the
    measure is truthy, then the ingredient. *)
Definition ingredient_li (meas ing : value) : jsstring :=
  js "<li>" ++ (if truthy meas then ToString meas ++ js " " else [])
  ++ ToString ing ++ js "</li>".

Definition getIngredientsHtml (recipe : value) : outcome jsstring :=
  for_indices
    (fun i html =>
       ing <-? get_prop recipe (strIngredient i) ;;
       meas <-? get_prop recipe (strMeasure i) ;;
       keep <-? ing_and_trim ing ;;
       if truthy keep then
         m <-? measure_and_space meas ;;
         text <-? to_string ing ;;
         Ok (html ++ js "<li>" ++ m ++ text ++ js "</li>")
       else Ok html)
    20 1 [].

(** *** Saved recipes *)

Definition getSavedRecipes : M value :=
  try_catch
    (raw <- localStorage_getItem ;;
     if truthy raw then lift (JSON_parse (ToString raw)) else ret (VArr []))
    (fun err =>
       console_error (js "Error reading saved recipes from localStorage") err ;;
       ret (VArr [])).

Definition setSavedRecipes (list : value) : M unit :=
  try_catch
    (localStorage_setItem (string_of_json (JSON_stringify list)))
    (fun err =>
       console_error (js "Error saving recipes to localStorage") err).

(** [el.textContent = name]: [null] and [undefined] give the empty
    string, any other value is converted, which can throw. *)
Definition set_textContent (name : value) : outcome jsstring :=
  match name with
  | VUndefined | VNull => Ok []
  | _ => to_string name
  end.

(** The text that the element holds after [el.textContent = name]
    completed. *)
Definition textContent_of (name : value) : jsstring :=
  match name with
  | VUndefined | VNull => []
  | _ => ToString name
  end.

(** The [<li>] that [renderSavedRecipesList] builds for one name, once the
    text of the name is set. *)
Definition saved_recipe_item (name : value) : LiElement :=
  {| li_className := js "saved-recipe-item";
     li_span :=
       {| span_textContent := textContent_of name;
          span_className := js "saved-recipe-name";
          span_cursor := js "pointer";
          span_title := js "Click to load this recipe";
          span_click := OnClickLoad name |};
     li_button :=
       {| button_textContent := js "Delete";
          button_className := js "delete-saved-recipe-btn";
          button_marginLeft := js "8px";
          button_click := OnClickDelete name |} |}.

Fixpoint forEach (f : value -> M unit) (l : list value) : M unit :=
  match l with
  | [] => ret tt
  | x :: r => f x ;; forEach f r
  end.

(** [list.forEach(f)]: only arrays have the method. *)
Definition call_forEach (list : value) (f : value -> M unit) : M unit :=
  match list with
  | VArr l => forEach f l
  | _ => throw TypeError
  end.

(** The body of the [forEach] in [renderSavedRecipesList]: the text of the
    name is set before the item is appended. *)
Definition append_saved_item (name : value) : M unit :=
  lift (set_textContent name) ;;
  savedList_appendChild (saved_recipe_item name).

Definition renderSavedRecipesList : M unit :=
  list <- getSavedRecipes ;;
  st <- get_state ;;
  match savedContainer st, savedList st with
  | Some _, Some _ =>
      len <- lift (get_prop list (js "length")) ;;
      if strict_equal len (VNum (number_of_nat 0)) then
        set_savedContainer_display (js "none") ;;
        clear_savedList
      else
        set_savedContainer_display [] ;;
        clear_savedList ;;
        call_forEach list append_saved_item
  | _, _ => ret tt
  end.

Definition saveRecipeName (name : value) : M unit :=
  list <- getSavedRecipes ;;
  present <- lift (call_includes list name) ;;
  if negb present then
    list' <- lift (call_push list name) ;;
    setSavedRecipes list' ;;
    renderSavedRecipesList
  else ret tt.

Definition deleteSavedRecipe (name : value) : M unit :=
  list <- getSavedRecipes ;;
  filtered <- lift (call_filter_neq list name) ;;
  setSavedRecipes filtered ;;
  renderSavedRecipesList.

Definition loadSavedRecipesOnStart : M unit := renderSavedRecipesList.

(** *** Rendering a recipe *)

Definition recipe_markup (strMeal strMealThumb : value)
           (ingredients : jsstring) (instructions : value) : jsstring :=
  [LF] ++ jsq "    <div class='recipe-title-row'>" ++ [LF]
  ++ js "      <h2>" ++ ToString strMeal ++ js "</h2>" ++ [LF]
  ++ js "    </div>" ++ [LF]
  ++ jsq "    <img src='" ++ ToString strMealThumb
  ++ jsq "' alt='" ++ ToString strMeal ++ jsq "' />" ++ [LF]
  ++ js "    <h3>Ingredients:</h3>" ++ [LF]
  ++ js "    <ul>" ++ ingredients ++ js "</ul>" ++ [LF]
  ++ js "    <h3>Instructions:</h3>" ++ [LF]
  ++ js "    <p>" ++ ToString instructions ++ js "</p>" ++ [LF]
  ++ jsq "    <div class='save-row'>" ++ [LF]
  ++ jsq "      <button id='save-recipe-btn' class='main-btn'>Save Recipe</button>"
  ++ [LF]
  ++ js "    </div>" ++ [LF]
  ++ js "  ".

(** The click listener of the save button. *)
Definition saveClick : M unit :=
  st <- get_state ;;
  let cur := currentRecipe st in
  if negb (truthy cur) || negb (truthy (get_own cur (js "strMeal"))) then
    recipeDisplay_insert_beforeend (js "<p>Please load a recipe before saving.</p>")
  else saveRecipeName (get_own cur (js "strMeal")).

(** The template literal converts [recipe.strMeal] and
    [recipe.strMealThumb] as it goes; [recipe_markup] is the text it gives
    when these conversions complete. *)
Definition renderRecipe (recipe : value) : M unit :=
  set_currentRecipe recipe ;;
  strMeal <- lift (get_prop recipe (js "strMeal")) ;;
  lift (to_string strMeal) ;;
  strMealThumb <- lift (get_prop recipe (js "strMealThumb")) ;;
  lift (to_string strMealThumb) ;;
  ingredients <- lift (getIngredientsHtml recipe) ;;
  strInstructions <- lift (get_prop recipe (js "strInstructions")) ;;
  instructions <- lift (call_replace replace_crlf_br strInstructions) ;;
  set_recipeDisplay_innerHTML
    (recipe_markup strMeal strMealThumb ingredients instructions) ;;
  add_save_listener.

(** [data?.meals?.[0]]. *)
Definition first_meal (data : value) : value :=
  opt_get (opt_get data (js "meals")) (js "0").

Definition not_found_message (name : value) : jsstring :=
  js "<p>Sorry, I couldn't find the recipe " ++ [DQ] ++ ToString name ++ [DQ]
  ++ js ".</p>".

Definition load_failed_message : jsstring :=
  js "<p>Sorry " ++ dash
  ++ js " could not load that recipe right now. Please try again later.</p>".

Definition search_url (encoded : jsstring) : jsstring :=
  js "https://www.themealdb.com/api/json/v1/1/search.php?s=" ++ encoded.

(** The one caller of this function is the click listener of a saved name,
    which is attached after [textContent] converted that name: the
    conversions of the name here give [ToString name]. *)
Definition fetchAndDisplayRecipeByName (name : value) (s : settled) : M unit :=
  if negb (truthy name) then ret tt
  else
    set_recipeDisplay_innerHTML (js "<p>Loading recipe...</p>") ;;
    try_catch
      (encoded <- lift (encodeURIComponent (ToString name)) ;;
       res <- fetch (GET (search_url encoded)) s ;;
       if negb (ok res) then
         throw (Error (js "MealDB error: " ++ decimalN (status res)))
       else
         data <- lift (json res) ;;
         let recipe := first_meal data in
         if negb (truthy recipe) then
           set_recipeDisplay_innerHTML (not_found_message name)
         else renderRecipe recipe)
      (fun err =>
         console_error (js "Error fetching recipe by name") err ;;
         set_recipeDisplay_innerHTML load_failed_message).

(** *** Remix *)

(** [${meas ? meas + ' ' : ''}${ing}], when its conversions complete. *)
Definition ingredient_entry (meas ing : value) : jsstring :=
  (if truthy meas then ToString meas ++ js " " else []) ++ ToString ing.

(** The loop that fills the local array [ingredients]. *)
Definition remix_ingredients (recipeJson : value) : outcome (list jsstring) :=
  for_indices
    (fun i ingredients =>
       ing <-? get_prop recipeJson (strIngredient i) ;;
       meas <-? get_prop recipeJson (strMeasure i) ;;
       keep <-? ing_and_trim ing ;;
       if truthy keep then
         m <-? measure_and_space meas ;;
         text <-? to_string ing ;;
         Ok (ingredients ++ [m ++ text])
       else Ok ingredients)
    20 1 [].

Definition userPrompt (recipeJson : value) (theme : jsstring) : jsstring :=
  js "Here is a recipe in JSON format:" ++ [LF]
  ++ string_of_json (JSON_stringify_2 recipeJson) ++ [LF; LF]
  ++ js "Remix theme: " ++ [DQ] ++ theme ++ [DQ] ++ [LF; LF]
  ++ js "Please produce a short, fun, creative, and totally doable remix of the recipe. "
  ++ js "Highlight any changed ingredients (bullet list) and changed or new cooking steps. "
  ++ js "Keep it concise and actionable so someone can follow it in the kitchen. "
  ++ js "If nothing needs to change for the theme, say so and offer one optional twist. "
  ++ js "Only return the remixed recipe (no extraneous commentary).".

Definition system_prompt : jsstring :=
  js "You are a playful, concise, and helpful recipe remixing assistant.".

(** The object that [remixRecipe] serializes as the body of its request. *)
Definition chat_body (prompt : jsstring) : value :=
  VObj [ (js "model", VStr (js "gpt-4.1"));
         (js "messages",
          VArr [ VObj [(js "role", VStr (js "system"));
                       (js "content", VStr system_prompt)];
                 VObj [(js "role", VStr (js "user"));
                       (js "content", VStr prompt)] ]);
         (js "temperature", VNum (Number false [8%N] 0));
         (js "max_tokens", VNum (Number false [5%N] 3)) ].

(** The key is the constant that [secrets.js] declares; the template
    literal of the header converts it. *)
Definition chat_request (key : value) (prompt : jsstring) : Request :=
  {| url := js "https://api.openai.com/v1/chat/completions";
     method := js "POST";
     headers := [ (js "Content-Type", js "application/json");
                  (js "Authorization", js "Bearer " ++ ToString key) ];
     body := Some (string_of_json (JSON_stringify (chat_body prompt))) |}.

(** [data?.choices?.[0]?.message?.content]. *)
Definition first_reply (data : value) : value :=
  opt_get (opt_get (opt_get (opt_get data (js "choices")) (js "0"))
             (js "message")) (js "content").

Definition remixRecipe (recipeJson : value) (theme : jsstring) (s : settled)
  : M value :=
  ingredients <- lift (remix_ingredients recipeJson) ;;
  let prompt := userPrompt recipeJson theme in
  try_catch
    (key <- read_OPENAI_API_KEY ;;
     res <- fetch (chat_request key prompt) s ;;
     if negb (ok res) then
       let errText := text res in
       throw (Error (js "OpenAI API error: " ++ decimalN (status res)
                     ++ js " " ++ errText))
     else
       data <- lift (json res) ;;
       let reply := first_reply data in
       if negb (truthy reply) then throw (Error (js "Empty reply from OpenAI"))
       else ret reply)
    (fun err => throw err).

Definition load_first_message : jsstring :=
  js "<p>Please load a recipe first (click " ++ [DQ] ++ js "Surprise Me Again!"
  ++ [DQ] ++ js ").</p>".

Definition remix_loading_message : jsstring :=
  js "<p>Stirring the idea pot... your remix is being prepared " ++ spoon
  ++ js "</p>".

Definition remix_failed_message : jsstring :=
  js "<p>Sorry " ++ dash
  ++ js " I couldn't prepare a remix just now. Please try again in a moment.</p>".

Definition remix_result (html : value) : jsstring :=
  jsq "<div class='remix-result'>" ++ ToString html ++ js "</div>".

(** The click listener of the remix button. *)
Definition remixClick (s : settled) : M unit :=
  st <- get_state ;;
  if negb (truthy (currentRecipe st)) then
    set_remixOutput_innerHTML load_first_message
  else
    let theme :=
      match remixThemeSelect st with
      | Some (c :: v) => c :: v
      | _ => js "Make it interesting"
      end in
    set_remixOutput_innerHTML remix_loading_message ;;
    try_catch
      (remixText <- remixRecipe (currentRecipe st) theme s ;;
       once <- lift (call_replace replace_lflf_brbr remixText) ;;
       twice <- lift (call_replace replace_lf_br once) ;;
       set_remixOutput_innerHTML (remix_result twice))
      (fun err =>
         console_error (js "Remix error:") err ;;
         set_remixOutput_innerHTML remix_failed_message).

(** *** A random recipe *)

Definition random_url : jsstring :=
  js "https://www.themealdb.com/api/json/v1/1/random.php".

Definition fetchAndDisplayRandomRecipe (s : settled) : M unit :=
  set_recipeDisplay_innerHTML (js "<p>Loading...</p>") ;;
  try_catch
    (res <- fetch (GET random_url) s ;;
     data <- lift (json res) ;;
     let recipe := first_meal data in
     if negb (truthy recipe) then
       throw (Error (js "No recipe returned from MealDB"))
     else renderRecipe recipe)
    (fun error =>
       set_recipeDisplay_innerHTML (js "<p>Sorry, couldn't load a recipe.</p>")).

End Script.
Export Script.

(** * What the properties speak of *)

Module Observations.

(** [result m st] is how [m] completes from [st], [after m st] the state it
    leaves. *)
Definition result {A} (m : M A) (st : State) : outcome A := fst (m st).
Definition after {A} (m : M A) (st : State) : State := snd (m st).

(** The value that [getSavedRecipes] returns, as a function of the
    store. *)
Definition persisted (ls : Storage) : value :=
  if available ls then
    match slot ls with
    | Some (c :: raw) =>
        match JSON_parse (c :: raw) with
        | Ok v => v
        | Throw _ => VArr []
        end
    | _ => VArr []
    end
  else VArr [].

(** The store accepts the serialization of [list]. *)
Definition store_accepts (ls : Storage) (list : value) : Prop :=
  available ls = true
  /\ (N.of_nat (length (string_of_json (JSON_stringify list))) <= capacity ls)%N.

(** The store after a call of [setSavedRecipes] that it accepts. *)
Definition stored (ls : Storage) (list : value) : Storage :=
  {| available := true;
     slot := Some (string_of_json (JSON_stringify list));
     capacity := capacity ls |}.

(** The text of a saved name can be set: the name is [null], [undefined]
    or a value whose conversion to a string completes. *)
Definition has_text (name : value) : bool :=
  match name with
  | VUndefined | VNull => true
  | _ => stringable name
  end.

(** The ingredient and the measure of slot [i]. *)
Definition ingredient_of (recipe : value) (i : nat) : value :=
  get_own recipe (strIngredient i).
Definition measure_of (recipe : value) (i : nat) : value :=
  get_own recipe (strMeasure i).

(** A slot holds text or nothing: a string, or a falsy value such as
    [null] or [undefined]. *)
Definition textual (ing : value) : bool :=
  match ing with
  | VStr _ => true
  | _ => negb (truthy ing)
  end.

(** A slot is blank: nothing, the empty string, or white space only. *)
Definition blank (ing : value) : bool :=
  match ing with
  | VStr s => match trim s with [] => true | _ => false end
  | _ => negb (truthy ing)
  end.

(** The slots that are not blank, in the order of the loop. *)
Definition kept_slots (recipe : value) : list nat :=
  filter (fun i => negb (blank (ingredient_of recipe i))) (seq 1 20).

(** The user message of a chat request: [messages[1].content] of its
    body. *)
Definition user_content (req : Request) : option value :=
  match body req with
  | Some b =>
      match JSON_parse b with
      | Ok data =>
          Some (opt_get (opt_get (opt_get data (js "messages")) (js "1"))
                  (js "content"))
      | Throw _ => None
      end
  | None => None
  end.

(** The member of slot [i] as [JSON.stringify(recipe, null, 2)] writes
    it. *)
Definition slot_member (recipe : value) (i : nat) : jsstring :=
  quote (strIngredient i) ++ js ": "
  ++ string_of_json (JSON_stringify_2 (ingredient_of recipe i)).

(** The text before and after the serialized record in the prompt. *)
Definition prompt_prefix : jsstring :=
  js "Here is a recipe in JSON format:" ++ [LF].

Definition prompt_suffix (theme : jsstring) : jsstring :=
  [LF; LF] ++ js "Remix theme: " ++ [DQ] ++ theme ++ [DQ] ++ [LF; LF]
  ++ js "Please produce a short, fun, creative, and totally doable remix of the recipe. "
  ++ js "Highlight any changed ingredients (bullet list) and changed or new cooking steps. "
  ++ js "Keep it concise and actionable so someone can follow it in the kitchen. "
  ++ js "If nothing needs to change for the theme, say so and offer one optional twist. "
  ++ js "Only return the remixed recipe (no extraneous commentary).".

(** What it means for a parser result on [s] to be in order: the budget
    was enough, and a value consumed at least one character. *)
Definition progress (s : jsstring) (r : parsed value) : Prop :=
  r <> OutOfFuel /\ forall v rest, r = Parsed v rest -> length rest < length s.

(** One more character in front of a string body. *)
Definition cons_body (c : char16) (o : option (jsstring * jsstring)) :=
  match o with
  | Some (t, rest) => Some (c :: t, rest)
  | None => None
  end.

(** What [parse_members] and [parse_elems] do once a value is read. *)
Definition after_member (fuel : nat) (acc : list (jsstring * value))
           (k : jsstring) (v : value) (r : jsstring) : parsed value :=
  match skip_ws r with
  | d :: r2 =>
      if (d =? 44)%N then parse_members fuel (set_prop k v acc) (skip_ws r2)
      else if (d =? 125)%N then Parsed (VObj (set_prop k v acc)) r2
      else Invalid
  | [] => Invalid
  end.

Definition after_elem (fuel : nat) (acc : list value) (v : value) (r : jsstring)
  : parsed value :=
  match skip_ws r with
  | d :: r2 =>
      if (d =? 44)%N then parse_elems fuel (acc ++ [v]) (skip_ws r2)
      else if (d =? 93)%N then Parsed (VArr (acc ++ [v])) r2
      else Invalid
  | [] => Invalid
  end.

End Observations.
Export Observations.

(** ** Concrete pages *)

Module Examples.

(** The lookup of the save button on the example pages, whose recipes hold
    plain text: the button is found where its tag is written. *)
Definition button_tag_in (html : jsstring) : bool :=
  is_infix (jsq "<button id='save-recipe-btn'") html.

(** The page as the script finds it on a first visit: every element is
    there and empty, nothing is stored, and the store has room. *)
Definition fresh_page : State :=
  {| currentRecipe := VNull;
     recipeDisplay := Some {| innerHTML := []; save_listener := false |};
     remixOutput := Some [];
     remixThemeSelect := Some (js "Make it spicy");
     savedContainer := Some [];
     savedList := Some [];
     localStorage := {| available := true; slot := None; capacity := 5000000 |};
     OPENAI_API_KEY := Some (VStr (js "sk-test"));
     console := [];
     requests := [];
     finds_save_btn := button_tag_in |}.

(** [fresh_page] with [raw] stored under ['savedRecipes']. *)
Definition page_storing (raw : jsstring) : State :=
  put_localStorage
    {| available := true; slot := Some raw; capacity := 5000000 |} fresh_page.

(** [fresh_page] showing [recipe]. *)
Definition page_showing (recipe : value) : State :=
  snd (set_currentRecipe recipe fresh_page).

(** A small recipe: slots 1 and 3 are filled, slot 2 is white space,
    slot 4 is empty, slot 5 is [null] and the others are absent. *)
Definition tea_props : list (jsstring * value) :=
  [ (js "strMeal", VStr (js "Tea"));
    (js "strMealThumb", VStr (js "tea.jpg"));
    (js "strInstructions", VStr (js "Boil water."));
    (js "strIngredient1", VStr (js "Water"));
    (js "strMeasure1", VStr (js "1 cup"));
    (js "strIngredient2", VStr (js " "));
    (js "strMeasure2", VStr (js " "));
    (js "strIngredient3", VStr (js "Tea leaves"));
    (js "strMeasure3", VNull);
    (js "strIngredient4", VStr []);
    (js "strIngredient5", VNull) ].

Definition tea : value := VObj tea_props.

(** A response that is not a success, carrying a recipe all the same. *)
Definition failed_response_with_recipe : Response :=
  {| ok := false; status := 500;
     text := jsq "{'meals':[{'strMeal':'Tea','strMealThumb':'tea.jpg','strInstructions':'Boil water.','strIngredient1':'Water','strMeasure1':'1 cup'}]}" |}.

Definition recipe_in_failed_response : value :=
  VObj [ (js "strMeal", VStr (js "Tea"));
         (js "strMealThumb", VStr (js "tea.jpg"));
         (js "strInstructions", VStr (js "Boil water."));
         (js "strIngredient1", VStr (js "Water"));
         (js "strMeasure1", VStr (js "1 cup")) ].

(** A successful response without a recipe. *)
Definition response_without_recipe : Response :=
  {| ok := true; status := 200; text := jsq "{'meals':null}" |}.

End Examples.
Export Examples.

(** ** States after one effect, and more pages *)

Module Steps.

(** The state after [recipeDisplay.innerHTML = html] on a page that has the
    element. *)
Definition shown (html : jsstring) (st : State) : State :=
  put_recipeDisplay {| innerHTML := html; save_listener := false |} st.

(** The state after [currentRecipe = recipe]. *)
Definition with_current (recipe : value) (st : State) : State :=
  snd (set_currentRecipe recipe st).

(** The state after a request went out. *)
Definition sent (req : Request) (st : State) : State :=
  snd (fetch req Rejected st).

(** The state after [console.error(label, err)]. *)
Definition logged (label : jsstring) (err : exn) (st : State) : State :=
  snd (console_error label err st).

(** The state after [remixOutput.innerHTML = html] on a page that has the
    element. *)
Definition remix_shown (html : jsstring) (st : State) : State :=
  {| currentRecipe := currentRecipe st;
     recipeDisplay := recipeDisplay st;
     remixOutput := Some html;
     remixThemeSelect := remixThemeSelect st;
     savedContainer := savedContainer st;
     savedList := savedList st;
     localStorage := localStorage st;
     OPENAI_API_KEY := OPENAI_API_KEY st;
     console := console st;
     requests := requests st;
     finds_save_btn := finds_save_btn st |}.

(** The markup that [renderRecipe] builds for a recipe, or the exception
    that building it throws. *)
Definition recipe_html (recipe : value) : outcome jsstring :=
  strMeal <-? get_prop recipe (js "strMeal") ;;
  _ <-? to_string strMeal ;;
  strMealThumb <-? get_prop recipe (js "strMealThumb") ;;
  _ <-? to_string strMealThumb ;;
  ingredients <-? getIngredientsHtml recipe ;;
  strInstructions <-? get_prop recipe (js "strInstructions") ;;
  instructions <-? call_replace replace_crlf_br strInstructions ;;
  Ok (recipe_markup strMeal strMealThumb ingredients instructions).

(** The state after [renderRecipe] wrote [html] for [recipe]: the listener
    of the save button is attached when the lookup finds the button in
    [html]. *)
Definition rendered (recipe : value) (html : jsstring) (st : State) : State :=
  put_recipeDisplay
    {| innerHTML := html; save_listener := finds_save_btn st html |}
    (with_current recipe st).

Definition random_failed_message : jsstring :=
  js "<p>Sorry, couldn't load a recipe.</p>".

Definition save_first_message : jsstring :=
  js "<p>Please load a recipe before saving.</p>".

(** The theme that the click listener of the remix button passes on. *)
Definition selected_theme (st : State) : jsstring :=
  match remixThemeSelect st with
  | Some (c :: v) => c :: v
  | _ => js "Make it interesting"
  end.

(** The string that [remixClick] shows for a reply. *)
Definition reply_markup (reply : jsstring) : jsstring :=
  jsq "<div class='remix-result'>" ++ replace_lf_br reply ++ js "</div>".

(** The error that [remixRecipe] throws on a response that is not a
    success. *)
Definition openai_error (res : Response) : exn :=
  Error (js "OpenAI API error: " ++ decimalN (status res) ++ js " " ++ text res).

(** How the [try] of [remixRecipe] completes once its request went out. *)
Definition chat_outcome (s : settled) : outcome value :=
  match s with
  | Rejected => Throw NetworkFailure
  | Fulfilled res =>
      if ok res then
        match json res with
        | Throw e => Throw e
        | Ok data =>
            if truthy (first_reply data) then Ok (first_reply data)
            else Throw (Error (js "Empty reply from OpenAI"))
        end
      else Throw (openai_error res)
  end.

(** The state after the [catch] of the remix click listener ran on a page
    that has the remix output. *)
Definition remix_failed (err : exn) (st : State) : State :=
  remix_shown remix_failed_message (logged (js "Remix error:") err st).

(** The names of a saved list are pairwise distinct. *)
Definition distinct_names (names : list jsstring) : Prop := NoDup names.

(** The state after the [catch] of [fetchAndDisplayRecipeByName] ran on a
    page that has the display. *)
Definition load_failed (err : exn) (st : State) : State :=
  shown load_failed_message
    (logged (js "Error fetching recipe by name") err st).

(** The error that [fetchAndDisplayRecipeByName] throws on a response that
    is not a success. *)
Definition mealdb_error (res : Response) : exn :=
  Error (js "MealDB error: " ++ decimalN (status res)).

(** The state when [fetchAndDisplayRecipeByName] is done, on a page with
    the display and for a truthy name. *)
Definition by_name_outcome (name : value) (s : settled) (st : State) : State :=
  match encodeURIComponent (ToString name) with
  | Throw e => load_failed e st
  | Ok encoded =>
      let st1 := sent (GET (search_url encoded)) st in
      match s with
      | Rejected => load_failed NetworkFailure st1
      | Fulfilled res =>
          if ok res then
            match json res with
            | Throw e => load_failed e st1
            | Ok data =>
                if truthy (first_meal data) then
                  match recipe_html (first_meal data) with
                  | Ok html => rendered (first_meal data) html st1
                  | Throw e => load_failed e (with_current (first_meal data) st1)
                  end
                else shown (not_found_message name) st1
            end
          else load_failed (mealdb_error res) st1
      end
  end.

(** The state when [fetchAndDisplayRandomRecipe] is done, on a page with
    the display. *)
Definition random_outcome (s : settled) (st : State) : State :=
  let st1 := sent (GET random_url) st in
  match s with
  | Rejected => shown random_failed_message st1
  | Fulfilled res =>
      match json res with
      | Throw _ => shown random_failed_message st1
      | Ok data =>
          if truthy (first_meal data) then
            match recipe_html (first_meal data) with
            | Ok html => rendered (first_meal data) html st1
            | Throw _ =>
                shown random_failed_message
                  (with_current (first_meal data) st1)
            end
          else shown random_failed_message st1
      end
  end.

(** The saved-recipes region shows the list [names] and the store holds
    it. *)
Definition shows_saved (st : State) (names : list jsstring) : Prop :=
  persisted (localStorage st) = VArr (map VStr names)
  /\ savedList st = Some (map saved_recipe_item (map VStr names))
  /\ savedContainer st
     = Some (match names with [] => js "none" | _ => [] end).

Definition read_error_label : jsstring :=
  js "Error reading saved recipes from localStorage".

Definition save_error_label : jsstring :=
  js "Error saving recipes to localStorage".

(** [names] without the entries equal to [name]. *)
Definition without (name : value) (names : list jsstring) : list jsstring :=
  filter (fun s => negb (strict_equal (VStr s) name)) names.

(** [fresh_page] without the element [#saved-recipes-list]. *)
Definition page_without_list : State :=
  {| currentRecipe := VNull;
     recipeDisplay := Some {| innerHTML := []; save_listener := false |};
     remixOutput := Some [];
     remixThemeSelect := Some (js "Make it spicy");
     savedContainer := Some [];
     savedList := None;
     localStorage := {| available := true; slot := Some (js "null"); capacity := 5000000 |};
     OPENAI_API_KEY := Some (VStr (js "sk-test"));
     console := [];
     requests := [];
     finds_save_btn := button_tag_in |}.

(** [fresh_page] with a store that is full. *)
Definition full_page : State :=
  put_localStorage {| available := true; slot := None; capacity := 0 |} fresh_page.

(** A page without any of the elements the script looks up, showing
    [tea]. *)
Definition page_without_display : State :=
  {| currentRecipe := tea;
     recipeDisplay := None;
     remixOutput := None;
     remixThemeSelect := None;
     savedContainer := None;
     savedList := None;
     localStorage := {| available := true; slot := None; capacity := 5000000 |};
     OPENAI_API_KEY := Some (VStr (js "sk-test"));
     console := [];
     requests := [];
     finds_save_btn := button_tag_in |}.

(** [fresh_page] on which the lookup of the save button finds nothing, as
    it does when a text of the recipe opens a comment that swallows the
    button. *)
Definition page_losing_button : State :=
  {| currentRecipe := VNull;
     recipeDisplay := Some {| innerHTML := []; save_listener := false |};
     remixOutput := Some [];
     remixThemeSelect := Some (js "Make it spicy");
     savedContainer := Some [];
     savedList := Some [];
     localStorage := {| available := true; slot := None; capacity := 5000000 |};
     OPENAI_API_KEY := Some (VStr (js "sk-test"));
     console := [];
     requests := [];
     finds_save_btn := fun _ => false |}.

(** [fresh_page] without a theme selector. *)
Definition page_without_theme : State :=
  {| currentRecipe := tea;
     recipeDisplay := Some {| innerHTML := []; save_listener := false |};
     remixOutput := Some [];
     remixThemeSelect := None;
     savedContainer := Some [];
     savedList := Some [];
     localStorage := {| available := true; slot := None; capacity := 5000000 |};
     OPENAI_API_KEY := Some (VStr (js "sk-test"));
     console := [];
     requests := [];
     finds_save_btn := button_tag_in |}.

(** A recipe without instructions. *)
Definition bare_recipe : value := VObj [(js "strMeal", VStr (js "Tea"))].

Definition ok_response (body : jsstring) : Response :=
  {| ok := true; status := 200; text := body |}.

Definition tea_response : Response :=
  ok_response (text failed_response_with_recipe).

Definition bare_response : Response :=
  ok_response (jsq "{'meals':[{'strMeal':'Tea'}]}").

Definition reply_response : Response :=
  ok_response (jsq "{'choices':[{'message':{'content':'Add chili.\n\nServe hot.\nEnjoy.'}}]}").

End Steps.
Export Steps.

(** * Properties of the built-in functions *)

(** ** Strings and sequencing *)

Module BasicFacts.

Lemma str_eqb_spec a b : reflect (a = b) (str_eqb a b).
Proof.
  revert b; induction a as [|x a IH]; intros [|y b]; simpl;
    try (constructor; congruence).
  destruct (N.eqb_spec x y) as [->|Hxy]; simpl.
  - destruct (IH b) as [->|Hab]; constructor; congruence.
  - constructor; congruence.
Qed.

Lemma str_eqb_refl a : str_eqb a a = true.
Proof. destruct (str_eqb_spec a a); congruence. Qed.

Lemma str_eqb_eq a b : str_eqb a b = true <-> a = b.
Proof. destruct (str_eqb_spec a b); split; congruence. Qed.

(** Running a sequence and a [try] one step at a time. *)
Lemma bind_Ok {A B} (m : M A) (k : A -> M B) st a st' :
  m st = (Ok a, st') -> bind m k st = k a st'.
Proof. unfold bind. now intros ->. Qed.

Lemma bind_Throw {A B} (m : M A) (k : A -> M B) st e st' :
  m st = (Throw e, st') -> bind m k st = (Throw e, st').
Proof. unfold bind. now intros ->. Qed.

Lemma try_catch_Ok {A} (body : M A) (handler : exn -> M A) st a st' :
  body st = (Ok a, st') -> try_catch body handler st = (Ok a, st').
Proof. unfold try_catch. now intros ->. Qed.

Lemma try_catch_Throw {A} (body : M A) (handler : exn -> M A) st e st' :
  body st = (Throw e, st') -> try_catch body handler st = handler e st'.
Proof. unfold try_catch. now intros ->. Qed.

End BasicFacts.
Export BasicFacts.

(** ** The built-in functions on sample inputs *)

Module BuiltinExamples.

Example trim_spaces : trim (js "  a b  ") = js "a b".
Proof. reflexivity. Qed.

Example trim_no_break_space : trim [160; 97; 8232]%N = js "a".
Proof. reflexivity. Qed.

Example ToString_array :
  ToString (VArr [VNull; VNum (number_of_nat 120); VArr [VStr (js "x"); VUndefined];
                  VObj []])
  = js ",120,x,,[object Object]".
Proof. reflexivity. Qed.

Example number_to_string_fraction :
  number_to_string (Number false [8%N] 0) = js "0.8".
Proof. reflexivity. Qed.

Example number_to_string_exponent :
  number_to_string (Number false [1; 2; 3]%N 25) = js "1.23e+24".
Proof. reflexivity. Qed.

Example number_to_string_small :
  number_to_string (Number true [1; 2; 3]%N (-6)) = js "-1.23e-7".
Proof. reflexivity. Qed.

Example index_on_string : get_own (VStr (js "abc")) (js "0") = VStr (js "a").
Proof. reflexivity. Qed.

Example index_not_canonical :
  get_own (VArr [VNull; VBool true]) (js "01") = VUndefined.
Proof. reflexivity. Qed.

(** [2^32 - 1] is no array index: as a key it keeps its place of
    insertion. *)
Example index_too_large :
  index_of_key (js "4294967295") = None
  /\ JSON_parse (jsq "{'b':1,'4294967295':2,'7':3}")
     = Ok (VObj [ (js "7", VNum (number_of_nat 3));
                  (js "b", VNum (number_of_nat 1));
                  (js "4294967295", VNum (number_of_nat 2)) ]).
Proof. split; vm_compute; reflexivity. Qed.

(** A value with a [toString] of its own cannot be converted, nor can an
    array that holds one. *)
Example stringable_values :
  stringable (VObj [(js "toString", VNull)]) = false
  /\ stringable (VArr [VNull; VArr [VObj [(js "toString", VStr (js "x"))]]]) = false
  /\ stringable (VObj [(js "valueOf", VNull)]) = true
  /\ to_string (VArr [VNull; VObj []; VNum (number_of_nat 5)])
     = Ok (js ",[object Object],5").
Proof. repeat split; reflexivity. Qed.

Example stringify_compact :
  JSON_stringify (VArr [VStr (js "Tea"); VNull; VObj [(js "a", VNum (number_of_nat 5))]])
  = Some (jsq "['Tea',null,{'a':5}]").
Proof. reflexivity. Qed.

Example stringify_indented :
  JSON_stringify_2 (VObj [(js "a", VArr [VBool true; VArr []]); (js "b", VUndefined)])
  = Some (js "{" ++ [LF] ++ jsq "  'a': [" ++ [LF] ++ js "    true," ++ [LF]
          ++ js "    []" ++ [LF] ++ js "  ]" ++ [LF] ++ js "}").
Proof. reflexivity. Qed.

Example stringify_escapes :
  JSON_stringify (VStr [34; 92; 10; 1; 55357; 56832; 55357]%N)
  = Some ([34; 92; 34; 92; 92]%N ++ js "\n\u0001" ++ [55357; 56832]%N ++ js "\ud83d"
          ++ [34]%N).
Proof. reflexivity. Qed.

Example parse_object :
  JSON_parse (jsq " { 'b' : [1, 2.50e3, -0.0, 'x\u0041\n'], '2': null, 'a': true, '1': false, 'b': {} } ")
  = Ok (VObj [ (js "1", VBool false); (js "2", VNull); (js "b", VObj []);
               (js "a", VBool true) ]).
Proof. reflexivity. Qed.

Example parse_numbers :
  JSON_parse (js "[1, 2.50e3, -0.0, 1E-2]")
  = Ok (VArr [ VNum (Number false [1%N] 1); VNum (Number false [2; 5]%N 4);
               VNum (Number false [] 0); VNum (Number false [1%N] (-1)) ]).
Proof. reflexivity. Qed.

Example parse_trailing_comma : JSON_parse (js "[1,]") = Throw SyntaxError.
Proof. reflexivity. Qed.

Example parse_leading_zero : JSON_parse (js "01") = Throw SyntaxError.
Proof. reflexivity. Qed.

Example parse_empty : JSON_parse [] = Throw SyntaxError.
Proof. reflexivity. Qed.

Example encode_space_and_accent :
  encodeURIComponent (js "Cr" ++ [232%N] ++ js "me br" ++ [251%N] ++ js "l" ++ [233%N] ++ js "e!")
  = Ok (js "Cr%C3%A8me%20br%C3%BBl%C3%A9e!").
Proof. reflexivity. Qed.

Example encode_pair : encodeURIComponent [55357; 56832]%N = Ok (js "%F0%9F%98%80").
Proof. reflexivity. Qed.

Example encode_lone_surrogate : encodeURIComponent [97; 55357]%N = Throw URIError.
Proof. reflexivity. Qed.

Example replace_line_breaks :
  replace_crlf_br [97; 13; 10; 98; 10; 13; 99]%N = js "a<br>b<br>" ++ [13%N] ++ js "c".
Proof. reflexivity. Qed.

End BuiltinExamples.

(** ** [JSON.parse] never exhausts its recursion budget *)

Module JsonParseFacts.

Lemma skip_ws_length s : length (skip_ws s) <= length s.
Proof.
  induction s as [|c s IH]; simpl; [lia|].
  destruct (is_json_ws c); simpl; lia.
Qed.

Lemma skip_ws_not_ws c s : is_json_ws c = false -> skip_ws (c :: s) = c :: s.
Proof. intros H; simpl; now rewrite H. Qed.

Lemma string_body_length s :
  forall t rest, string_body s = Some (t, rest) -> length rest < length s.
Proof.
  remember (length s) as n eqn:Hn.
  revert s Hn; induction n as [n IH] using lt_wf_ind; intros s Hn t rest.
  destruct s as [|c r]; simpl; [discriminate|].
  destruct (c =? 34)%N.
  { intros H; inversion H; subst; simpl; lia. }
  destruct (c =? 92)%N.
  - destruct r as [|e r1]; [discriminate|].
    destruct (e =? 117)%N.
    + destruct r1 as [|h1 [|h2 [|h3 [|h4 r2]]]]; try discriminate.
      destruct (hex4_value h1 h2 h3 h4); [|discriminate].
      destruct (string_body r2) as [[t' rest']|] eqn:E; [|discriminate].
      intros H; inversion H; subst.
      apply (IH (length r2)) in E; simpl in *; try lia; reflexivity.
    + destruct (simple_escape e); [|discriminate].
      destruct (string_body r1) as [[t' rest']|] eqn:E; [|discriminate].
      intros H; inversion H; subst.
      apply (IH (length r1)) in E; simpl in *; try lia; reflexivity.
  - destruct (c <? 32)%N; [discriminate|].
    destruct (string_body r) as [[t' rest']|] eqn:E; [|discriminate].
    intros H; inversion H; subst.
    apply (IH (length r)) in E; simpl in *; try lia; reflexivity.
Qed.

Lemma span_digits_length s :
  forall ds rest, span_digits s = (ds, rest) -> length rest <= length s.
Proof.
  induction s as [|c r IH]; simpl; intros ds rest H.
  - inversion H; subst; simpl; lia.
  - destruct (is_digit c).
    + destruct (span_digits r) as [ds' rest'] eqn:E.
      inversion H; subst. specialize (IH _ _ eq_refl). lia.
    + inversion H; subst; simpl; lia.
Qed.

Lemma int_part_length s ds rest :
  int_part s = Some (ds, rest) -> length rest < length s.
Proof.
  destruct s as [|c r]; simpl; [discriminate|].
  destruct (c =? 48)%N.
  { intros H; inversion H; subst; simpl; lia. }
  destruct (is_digit c) eqn:Hd; [|discriminate].
  destruct (span_digits r) as [ds' rest'] eqn:E.
  intros H; inversion H; subst.
  apply span_digits_length in E. simpl; lia.
Qed.

Lemma frac_part_length s ds rest :
  frac_part s = Some (ds, rest) -> length rest <= length s.
Proof.
  destruct s as [|c r]; simpl.
  { intros H; inversion H; subst; simpl; lia. }
  destruct (c =? 46)%N.
  - destruct (span_digits r) as [[|d ds'] rest'] eqn:E; [discriminate|].
    intros H; inversion H; subst.
    apply span_digits_length in E. simpl; lia.
  - intros H; inversion H; subst; simpl; lia.
Qed.

Lemma exp_digits_length neg s e rest :
  exp_digits neg s = Some (e, rest) -> length rest <= length s.
Proof.
  unfold exp_digits.
  destruct (span_digits s) as [[|d ds'] rest'] eqn:E; [discriminate|].
  intros H; inversion H; subst.
  now apply span_digits_length in E.
Qed.

Lemma exp_part_length s e rest :
  exp_part s = Some (e, rest) -> length rest <= length s.
Proof.
  destruct s as [|c r]; simpl.
  { intros H; inversion H; subst; simpl; lia. }
  destruct ((c =? 101) || (c =? 69))%N.
  - destruct r as [|d r']; [discriminate|].
    destruct (d =? 43)%N; [|destruct (d =? 45)%N];
      intros H; apply exp_digits_length in H; simpl in *; lia.
  - intros H; inversion H; subst; simpl; lia.
Qed.

Lemma parse_number_length s n rest :
  parse_number s = Some (n, rest) -> length rest < length s.
Proof.
  unfold parse_number.
  set (p := match s with
            | [] => (false, s)
            | c :: r => if (c =? 45)%N then (true, r) else (false, s)
            end).
  assert (Hp : length (snd p) <= length s).
  { subst p. destruct s as [|c r]; simpl; [lia|].
    destruct (c =? 45)%N; simpl; lia. }
  destruct p as [neg s1]; simpl in Hp.
  destruct (int_part s1) as [[ints s2]|] eqn:E1; [|discriminate].
  destruct (frac_part s2) as [[fracs s3]|] eqn:E2; [|discriminate].
  destruct (exp_part s3) as [[e s4]|] eqn:E3; [|discriminate].
  intros H; inversion H; subst.
  apply int_part_length in E1. apply frac_part_length in E2.
  apply exp_part_length in E3. lia.
Qed.

Lemma literal_length w v s v' rest :
  w <> [] -> literal w v s = Parsed v' rest -> length rest < length s.
Proof.
  unfold literal. intros Hw.
  destruct (is_prefix w s) eqn:E; [|discriminate].
  intros H; inversion H; subst.
  destruct w as [|x w]; [congruence|].
  destruct s as [|y s]; [discriminate|].
  simpl. pose proof (length_skipn (length w) s). lia.
Qed.

Lemma literal_fuel w v s : literal w v s <> OutOfFuel.
Proof. unfold literal; destruct (is_prefix w s); discriminate. Qed.

Lemma progress_Invalid s : progress s Invalid.
Proof. split; [discriminate|]. intros ? ? H; discriminate. Qed.

Lemma progress_Parsed s v rest : length rest < length s -> progress s (Parsed v rest).
Proof.
  intros H; split; [discriminate|].
  intros ? ? E; inversion E; subst; assumption.
Qed.

Lemma progress_weaken s s' r : progress s r -> length s <= length s' -> progress s' r.
Proof.
  intros [H1 H2] Hl; split; [assumption|].
  intros v rest E. specialize (H2 _ _ E). lia.
Qed.

Lemma parse_progress fuel :
  (forall s, 2 * length s < fuel -> progress s (parse_value fuel s))
  /\ (forall acc s, 2 * length s + 1 < fuel -> progress s (parse_elems fuel acc s))
  /\ (forall acc s, 2 * length s + 1 < fuel -> progress s (parse_members fuel acc s)).
Proof.
  induction fuel as [|fuel (IHv & IHe & IHm)].
  { repeat split; intros; lia. }
  split; [|split].
  - (* parse_value *)
    intros s Hs. destruct s as [|c r]; [apply progress_Invalid|].
    cbn [parse_value]. simpl in Hs.
    destruct (c =? 34)%N.
    { destruct (string_body r) as [[t rest]|] eqn:E; [|apply progress_Invalid].
      apply string_body_length in E. apply progress_Parsed; simpl; lia. }
    destruct (c =? 91)%N.
    { pose proof (skip_ws_length r) as Hw.
      destruct (skip_ws r) as [|d r'] eqn:E; [apply progress_Invalid|].
      destruct (d =? 93)%N.
      - apply progress_Parsed; simpl in *; lia.
      - apply progress_weaken with (s := d :: r'); [|simpl in *; lia].
        apply IHe; simpl in *; lia. }
    destruct (c =? 123)%N.
    { pose proof (skip_ws_length r) as Hw.
      destruct (skip_ws r) as [|d r'] eqn:E; [apply progress_Invalid|].
      destruct (d =? 125)%N.
      - apply progress_Parsed; simpl in *; lia.
      - apply progress_weaken with (s := d :: r'); [|simpl in *; lia].
        apply IHm; simpl in *; lia. }
    destruct (c =? 116)%N.
    { split; [apply literal_fuel|].
      intros v rest E. eapply literal_length; [|exact E]. discriminate. }
    destruct (c =? 102)%N.
    { split; [apply literal_fuel|].
      intros v rest E. eapply literal_length; [|exact E]. discriminate. }
    destruct (c =? 110)%N.
    { split; [apply literal_fuel|].
      intros v rest E. eapply literal_length; [|exact E]. discriminate. }
    destruct (parse_number (c :: r)) as [[n rest]|] eqn:E; [|apply progress_Invalid].
    apply parse_number_length in E. now apply progress_Parsed.
  - (* parse_elems *)
    intros acc s Hs. cbn [parse_elems].
    destruct (IHv s ltac:(lia)) as [Hf Hl].
    destruct (parse_value fuel s) as [v rest| |] eqn:E;
      [|apply progress_Invalid|congruence].
    specialize (Hl _ _ eq_refl).
    pose proof (skip_ws_length rest) as Hw.
    destruct (skip_ws rest) as [|d r] eqn:E'; [apply progress_Invalid|].
    destruct (d =? 44)%N.
    { pose proof (skip_ws_length r) as Hw'.
      apply progress_weaken with (s := skip_ws r); [|simpl in *; lia].
      apply IHe; simpl in *; lia. }
    destruct (d =? 93)%N; [|apply progress_Invalid].
    apply progress_Parsed; simpl in *; lia.
  - (* parse_members *)
    intros acc s Hs. cbn [parse_members].
    destruct s as [|q r]; [apply progress_Invalid|].
    destruct (q =? 34)%N; [|apply progress_Invalid].
    destruct (string_body r) as [[k rest]|] eqn:Ek; [|apply progress_Invalid].
    apply string_body_length in Ek.
    pose proof (skip_ws_length rest) as Hw.
    destruct (skip_ws rest) as [|colon r1] eqn:E1; [apply progress_Invalid|].
    destruct (colon =? 58)%N; [|apply progress_Invalid].
    pose proof (skip_ws_length r1) as Hw1.
    simpl in Hs, Hw.
    destruct (IHv (skip_ws r1) ltac:(lia)) as [Hf Hl].
    destruct (parse_value fuel (skip_ws r1)) as [v rest'| |] eqn:E;
      [|apply progress_Invalid|congruence].
    specialize (Hl _ _ eq_refl).
    pose proof (skip_ws_length rest') as Hw2.
    destruct (skip_ws rest') as [|d r2] eqn:E2; [apply progress_Invalid|].
    destruct (d =? 44)%N.
    { pose proof (skip_ws_length r2) as Hw3.
      apply progress_weaken with (s := skip_ws r2); [|simpl in *; lia].
      apply IHm; simpl in *; lia. }
    destruct (d =? 125)%N; [|apply progress_Invalid].
    apply progress_Parsed; simpl in *; lia.
Qed.

(** The budget that [JSON_parse] hands out is never used up: a
    [SyntaxError] of the model is a syntax error of the text. *)
Lemma JSON_parse_budget text :
  parse_value (2 * length text + 2) (skip_ws text) <> OutOfFuel.
Proof.
  pose proof (skip_ws_length text) as Hw.
  destruct (parse_progress (2 * length text + 2)) as (Hv & _ & _).
  apply Hv. lia.
Qed.

End JsonParseFacts.
Export JsonParseFacts.

(** ** [JSON.parse] reads back what [JSON.stringify] wrote for a list of
       strings *)

Module JsonRoundTrip.

Local Open Scope N_scope.

Lemma hex_value_digit d : d < 16 -> hex_value (hex_digit false d) = Some d.
Proof.
  intros Hd. unfold hex_digit, hex_value.
  destruct (N.ltb_spec d 10) as [H|H].
  - replace ((48 <=? 48 + d) && (48 + d <=? 57)) with true.
    + f_equal; lia.
    + symmetry; apply andb_true_intro; split; apply N.leb_le; lia.
  - replace ((48 <=? 87 + d) && (87 + d <=? 57)) with false.
    + replace ((97 <=? 87 + d) && (87 + d <=? 102)) with true.
      * f_equal; lia.
      * symmetry; apply andb_true_intro; split; apply N.leb_le; lia.
    + symmetry; apply andb_false_intro2; apply N.leb_gt; lia.
Qed.

Lemma hex4_value_hex4 c :
  c < 65536 ->
  hex4_value (hex_digit false ((c / 4096) mod 16)) (hex_digit false ((c / 256) mod 16))
             (hex_digit false ((c / 16) mod 16)) (hex_digit false (c mod 16))
  = Some c.
Proof.
  intros Hc. unfold hex4_value.
  rewrite !hex_value_digit by (apply N.mod_lt; discriminate).
  f_equal.
  replace (c / 4096) with (c / 16 / 16 / 16) by (now rewrite !N.Div0.div_div).
  replace (c / 256) with (c / 16 / 16) by (now rewrite !N.Div0.div_div).
  pose proof (N.div_mod c 16 ltac:(discriminate)) as E1.
  pose proof (N.div_mod (c / 16) 16 ltac:(discriminate)) as E2.
  pose proof (N.div_mod (c / 16 / 16) 16 ltac:(discriminate)) as E3.
  pose proof (N.div_mod (c / 16 / 16 / 16) 16 ltac:(discriminate)) as E4.
  pose proof (N.mod_lt c 16 ltac:(discriminate)).
  pose proof (N.mod_lt (c / 16) 16 ltac:(discriminate)).
  pose proof (N.mod_lt (c / 16 / 16) 16 ltac:(discriminate)).
  pose proof (N.mod_lt (c / 16 / 16 / 16) 16 ltac:(discriminate)).
  generalize dependent (c mod 16). generalize dependent ((c / 16) mod 16).
  generalize dependent ((c / 16 / 16) mod 16).
  generalize dependent ((c / 16 / 16 / 16) mod 16).
  generalize dependent (c / 16 / 16 / 16 / 16).
  generalize dependent (c / 16 / 16 / 16).
  generalize dependent (c / 16 / 16). generalize dependent (c / 16).
  intros. lia.
Qed.

Lemma string_body_raw c r :
  (c =? 34) = false -> (c =? 92) = false -> (c <? 32) = false ->
  string_body (c :: r) = cons_body c (string_body r).
Proof. intros H1 H2 H3; simpl; rewrite H1, H2, H3; reflexivity. Qed.

Lemma string_body_unicode_escape c r :
  c < 65536 ->
  string_body (unicode_escape c ++ r) = cons_body c (string_body r).
Proof.
  intros Hc. unfold unicode_escape, hex4.
  change (js "\u") with [92; 117]. cbn [app].
  change (string_body (92 :: 117 :: ?h1 :: ?h2 :: ?h3 :: ?h4 :: r))
    with (match hex4_value h1 h2 h3 h4 with
          | Some u => cons_body u (string_body r)
          | None => None
          end).
  now rewrite hex4_value_hex4.
Qed.

Lemma surrogate_raw c :
  is_high_surrogate c = true \/ is_low_surrogate c = true ->
  (c =? 34) = false /\ (c =? 92) = false /\ (c <? 32) = false /\ c < 65536.
Proof.
  unfold is_high_surrogate, is_low_surrogate.
  intros [H|H]; apply andb_prop in H; destruct H as [H1 H2];
    apply N.leb_le in H1; apply N.leb_le in H2;
    repeat split; try (apply N.eqb_neq; lia); try (apply N.ltb_ge; lia); lia.
Qed.

Lemma string_body_quote_char c r :
  is_high_surrogate c = false -> is_low_surrogate c = false ->
  string_body (quote_char c ++ r) = cons_body c (string_body r).
Proof.
  intros _ _. unfold quote_char.
  destruct (N.eqb_spec c 8) as [->|N8]; [reflexivity|].
  destruct (N.eqb_spec c 9) as [->|N9]; [reflexivity|].
  destruct (N.eqb_spec c 10) as [->|N10]; [reflexivity|].
  destruct (N.eqb_spec c 12) as [->|N12]; [reflexivity|].
  destruct (N.eqb_spec c 13) as [->|N13]; [reflexivity|].
  destruct (N.eqb_spec c 34) as [->|N34]; [reflexivity|].
  destruct (N.eqb_spec c 92) as [->|N92]; [reflexivity|].
  destruct (N.ltb_spec c 32) as [L|L].
  - apply string_body_unicode_escape; lia.
  - apply string_body_raw.
    + apply N.eqb_neq; assumption.
    + apply N.eqb_neq; assumption.
    + apply N.ltb_ge; assumption.
Qed.

(** The closing quote ends the body that [quote_chars] wrote. *)
Lemma string_body_quote_chars s rest :
  string_body (quote_chars s ++ DQ :: rest)%list = Some (s, rest).
Proof.
  remember (length s) as n eqn:Hn.
  revert s Hn; induction n as [n IH] using lt_wf_ind; intros s Hn.
  destruct s as [|c r]; [reflexivity|].
  cbn [quote_chars].
  destruct (is_high_surrogate c) eqn:Hh.
  - destruct (surrogate_raw c (or_introl Hh)) as (R1 & R2 & R3 & R4).
    destruct r as [|d r'].
    + rewrite string_body_unicode_escape by assumption. reflexivity.
    + destruct (is_low_surrogate d) eqn:Hl.
      * destruct (surrogate_raw d (or_intror Hl)) as (S1 & S2 & S3 & S4).
        cbn [app]. rewrite string_body_raw by assumption.
        rewrite string_body_raw by assumption.
        rewrite (IH (length r')) by (simpl in Hn; lia || reflexivity).
        reflexivity.
      * rewrite <- app_assoc, string_body_unicode_escape by assumption.
        rewrite (IH (length (d :: r'))) by (simpl in *; lia || reflexivity).
        reflexivity.
  - destruct (is_low_surrogate c) eqn:Hl.
    + destruct (surrogate_raw c (or_intror Hl)) as (R1 & R2 & R3 & R4).
      rewrite <- app_assoc, string_body_unicode_escape by assumption.
      rewrite (IH (length r)) by (simpl in *; lia || reflexivity).
      reflexivity.
    + rewrite <- app_assoc, string_body_quote_char by assumption.
      rewrite (IH (length r)) by (simpl in *; lia || reflexivity).
      reflexivity.
Qed.

Lemma parse_value_quote fuel s rest :
  (0 < fuel)%nat ->
  parse_value fuel (quote s ++ rest)%list = Parsed (VStr s) rest.
Proof.
  intros Hf. destruct fuel as [|fuel]; [lia|].
  unfold quote. cbn [app parse_value].
  change (DQ =? 34) with true. cbv iota.
  rewrite <- app_assoc. cbn [app].
  now rewrite string_body_quote_chars.
Qed.

Lemma join_quote_head y l t :
  exists r, (join (js ",") (map quote (y :: l)) ++ t)%list = DQ :: r.
Proof.
  cbn [map join]. destruct (map quote l); unfold quote; simpl; eauto.
Qed.

Lemma skip_ws_join_quote y l t :
  skip_ws (join (js ",") (map quote (y :: l)) ++ t)%list
  = (join (js ",") (map quote (y :: l)) ++ t)%list.
Proof.
  destruct (join_quote_head y l t) as [r E].
  rewrite E. now apply skip_ws_not_ws.
Qed.

(** The elements of an array of strings, read up to the closing
    bracket. *)
Lemma parse_elems_strings l :
  forall fuel acc x rest,
    (length l + 2 <= fuel)%nat ->
    parse_elems fuel acc (join (js ",") (map quote (x :: l)) ++ 93 :: rest)%list
    = Parsed (VArr (acc ++ map VStr (x :: l))) rest.
Proof.
  induction l as [|y l IH]; intros fuel acc x rest Hf;
    (destruct fuel as [|fuel]; [simpl in Hf; lia|]).
  - cbn [map join parse_elems].
    rewrite parse_value_quote by (simpl in Hf; lia). reflexivity.
  - change (join (js ",") (map quote (x :: y :: l)))
      with (quote x ++ js "," ++ join (js ",") (map quote (y :: l)))%list.
    set (J := join (js ",") (map quote (y :: l))).
    cbn [parse_elems].
    rewrite <- !app_assoc, parse_value_quote by (simpl in Hf; lia).
    change (js "," ++ J ++ 93 :: rest)%list with (44 :: J ++ 93 :: rest)%list.
    rewrite skip_ws_not_ws by reflexivity.
    change (44 =? 44) with true. cbv iota.
    subst J. rewrite skip_ws_join_quote.
    rewrite IH by (simpl in Hf; lia).
    now rewrite <- app_assoc.
Qed.

Lemma join_quote_length l :
  (length l <= length (join (js ",") (map quote l)))%nat.
Proof.
  induction l as [|x l IH]; [simpl; lia|].
  cbn [map join]. destruct (map quote l) eqn:E.
  - destruct l; [|discriminate]. unfold quote; simpl; lia.
  - rewrite <- E in *. rewrite !length_app. unfold quote at 1. simpl in *. lia.
Qed.

Lemma JSON_stringify_strings l :
  JSON_stringify (VArr (map VStr l))
  = Some (wrap [] [] [] 91 93 (map quote l)).
Proof.
  unfold JSON_stringify. cbn [serialize app]. do 2 f_equal.
  induction l as [|x l IH]; [reflexivity|].
  cbn [map serialize]. now rewrite IH.
Qed.

(** Reading back a stored list of names. *)
Lemma JSON_parse_stringify_strings (l : list jsstring) :
  JSON_parse (string_of_json (JSON_stringify (VArr (map VStr l))))
  = Ok (VArr (map VStr l)).
Proof.
  rewrite JSON_stringify_strings. cbn [string_of_json].
  destruct l as [|x l]; [reflexivity|].
  unfold JSON_parse, wrap.
  change (map quote (x :: l)) with (quote x :: map quote l).
  cbv iota.
  change (quote x :: map quote l) with (map quote (x :: l)).
  set (J := join (js ",") (map quote (x :: l))).
  assert (HJ : (length (x :: l) <= length J)%nat)
    by apply (join_quote_length (x :: l)).
  rewrite skip_ws_not_ws by reflexivity.
  match goal with
  | |- context [parse_value ?f _] => remember f as fuel eqn:Hfuel
  end.
  assert (Hl : (length l + 3 <= fuel)%nat).
  { subst fuel. cbn [length] in *. rewrite length_app. simpl. lia. }
  clear Hfuel. destruct fuel as [|fuel]; [lia|].
  cbn [parse_value]. change (91 =? 34) with false. change (91 =? 91) with true.
  cbv iota.
  subst J. rewrite skip_ws_join_quote.
  destruct (join_quote_head x l [93]) as [r E].
  rewrite E at 1. change (DQ =? 93) with false. cbv iota. rewrite <- E.
  rewrite parse_elems_strings by lia.
  reflexivity.
Qed.

End JsonRoundTrip.

(** ** [JSON.parse] reads back the body of the chat request *)

Module ChatBodyFacts.

Import JsonRoundTrip.
Local Open Scope N_scope.

Lemma skip_ws_quote s rest : skip_ws (quote s ++ rest)%list = (quote s ++ rest)%list.
Proof. reflexivity. Qed.

Lemma parse_members_value fuel acc k s v r :
  skip_ws s = s ->
  parse_value fuel s = Parsed v r ->
  parse_members (S fuel) acc (quote k ++ 58 :: s)%list = after_member fuel acc k v r.
Proof.
  intros Hs Hv. unfold quote. cbn [app parse_members].
  change (DQ =? 34) with true. cbv iota.
  rewrite <- app_assoc. cbn [app]. rewrite string_body_quote_chars.
  cbn [skip_ws]. change (is_json_ws 58) with false. cbv iota.
  change (58 =? 58) with true. cbv iota.
  rewrite Hs, Hv. reflexivity.
Qed.

Lemma parse_elems_value fuel acc s v r :
  parse_value fuel s = Parsed v r ->
  parse_elems (S fuel) acc s = after_elem fuel acc v r.
Proof. intros Hv. cbn [parse_elems]. now rewrite Hv. Qed.

Lemma parse_value_object fuel k t :
  parse_value (S fuel) (123 :: quote k ++ t)%list
  = parse_members fuel [] (quote k ++ t)%list.
Proof. reflexivity. Qed.

Lemma parse_value_array fuel t :
  parse_value (S fuel) (91 :: 123 :: t) = parse_elems fuel [] (123 :: t).
Proof. reflexivity. Qed.

(** An object of two members whose values are strings. *)
Lemma parse_value_two_strings f k1 s1 k2 s2 rest :
  parse_value (S (S (S (S f))))
    (123 :: quote k1 ++ 58 :: quote s1 ++ 44 :: quote k2 ++ 58 :: quote s2
         ++ 125 :: rest)%list
  = Parsed (VObj (set_prop k2 (VStr s2) (set_prop k1 (VStr s1) []))) rest.
Proof.
  rewrite parse_value_object.
  erewrite parse_members_value;
    [|apply skip_ws_quote|apply parse_value_quote; lia].
  unfold after_member. cbn [skip_ws]. change (is_json_ws 44) with false. cbv iota.
  change (44 =? 44) with true. cbv iota. rewrite skip_ws_quote.
  erewrite parse_members_value;
    [|apply skip_ws_quote|apply parse_value_quote; lia].
  reflexivity.
Qed.

(** The text of the body, member by member. *)
Lemma chat_body_text prompt :
  string_of_json (JSON_stringify (chat_body prompt))
  = (123 :: quote (js "model") ++ 58 :: quote (js "gpt-4.1")
      ++ 44 :: quote (js "messages") ++ 58 :: 91
      :: 123 :: quote (js "role") ++ 58 :: quote (js "system")
      ++ 44 :: quote (js "content") ++ 58 :: quote system_prompt
      ++ 125 :: 44
      :: 123 :: quote (js "role") ++ 58 :: quote (js "user")
      ++ 44 :: quote (js "content") ++ 58 :: quote prompt
      ++ 125 :: 93 :: 44 :: quote (js "temperature") ++ 58
      :: js "0.8" ++ 44 :: quote (js "max_tokens") ++ 58
      :: js "500" ++ [125])%list.
Proof. cbn. repeat (rewrite <- app_assoc; cbn [app]). reflexivity. Qed.

Lemma parse_chat_body f prompt :
  parse_value (10 + f) (string_of_json (JSON_stringify (chat_body prompt)))
  = Parsed (chat_body prompt) [].
Proof.
  rewrite chat_body_text.
  change (10 + f)%nat with (S (S (S (S (S (S (S (S (S (S f)))))))))).
  rewrite parse_value_object.
  erewrite parse_members_value;
    [|apply skip_ws_quote|apply parse_value_quote; lia].
  unfold after_member at 1. cbn [skip_ws]. change (is_json_ws 44) with false.
  cbv iota. change (44 =? 44) with true. cbv iota. rewrite skip_ws_quote.
  erewrite parse_members_value; [|reflexivity|].
  2:{ rewrite parse_value_array.
      erewrite parse_elems_value; [|apply parse_value_two_strings].
      unfold after_elem at 1. cbn [skip_ws]. change (is_json_ws 44) with false.
      cbv iota. change (44 =? 44) with true. cbv iota.
      cbn [skip_ws]. change (is_json_ws 123) with false. cbv iota.
      erewrite parse_elems_value; [|apply parse_value_two_strings].
      unfold after_elem at 1. cbn [skip_ws]. change (is_json_ws 93) with false.
      cbv iota. change (93 =? 44) with false. change (93 =? 93) with true.
      cbv iota. reflexivity. }
  unfold after_member at 1. cbn [skip_ws]. change (is_json_ws 44) with false.
  cbv iota. change (44 =? 44) with true. cbv iota. rewrite skip_ws_quote.
  vm_compute. reflexivity.
Qed.

(** The user message of a chat request is the prompt it was built from. *)
Lemma user_content_chat_request key prompt :
  user_content (chat_request key prompt) = Some (VStr prompt).
Proof.
  unfold user_content, chat_request. cbn [body]. unfold JSON_parse.
  set (T := string_of_json (JSON_stringify (chat_body prompt))).
  assert (HT : skip_ws T = T) by reflexivity.
  assert (HL : (4 <= length T)%nat) by (subst T; cbn; lia).
  rewrite HT.
  replace (2 * length T + 2)%nat with (10 + (2 * length T - 8))%nat by lia.
  subst T. rewrite parse_chat_body. reflexivity.
Qed.

End ChatBodyFacts.
Export ChatBodyFacts.

(** * Properties of the script *)

(** ** The saved list as [getSavedRecipes] reads it *)

Module SavedFacts.

Lemma getSavedRecipes_result st :
  result getSavedRecipes st = Ok (persisted (localStorage st)).
Proof.
  unfold result, getSavedRecipes, try_catch, bind, localStorage_getItem,
    persisted, lift, ret.
  destruct (available (localStorage st)); [|reflexivity].
  destruct (slot (localStorage st)) as [[|c raw]|]; try reflexivity.
  cbn [truthy ToString].
  destruct (JSON_parse (c :: raw)); reflexivity.
Qed.

(** Reading the list leaves everything but the console as it was. *)
Lemma getSavedRecipes_after st :
  let st' := after getSavedRecipes st in
  currentRecipe st' = currentRecipe st
  /\ recipeDisplay st' = recipeDisplay st
  /\ remixOutput st' = remixOutput st
  /\ remixThemeSelect st' = remixThemeSelect st
  /\ savedContainer st' = savedContainer st
  /\ savedList st' = savedList st
  /\ localStorage st' = localStorage st
  /\ OPENAI_API_KEY st' = OPENAI_API_KEY st
  /\ requests st' = requests st.
Proof.
  unfold after, getSavedRecipes, try_catch, bind, localStorage_getItem,
    lift, ret, console_error.
  destruct (available (localStorage st)); [|cbn; tauto].
  destruct (slot (localStorage st)) as [[|c raw]|]; try (cbn; tauto).
  cbn [truthy ToString].
  destruct (JSON_parse (c :: raw)); cbn; tauto.
Qed.

(** When the text in the store parses, nothing at all changes. *)
Lemma getSavedRecipes_quiet st c raw v :
  available (localStorage st) = true ->
  slot (localStorage st) = Some (c :: raw) ->
  JSON_parse (c :: raw) = Ok v ->
  getSavedRecipes st = (Ok v, st).
Proof.
  intros Ha Hs Hp.
  unfold getSavedRecipes, try_catch, bind, localStorage_getItem, lift, ret.
  rewrite Ha, Hs. cbn [truthy ToString]. now rewrite Hp.
Qed.

(** A non-empty list can only have come out of the store. *)
Lemma persisted_nonempty ls x l :
  persisted ls = VArr (x :: l) ->
  exists c raw, available ls = true /\ slot ls = Some (c :: raw)
                /\ JSON_parse (c :: raw) = Ok (VArr (x :: l)).
Proof.
  unfold persisted.
  destruct (available ls); [|discriminate].
  destruct (slot ls) as [[|c raw]|]; try discriminate.
  destruct (JSON_parse (c :: raw)) eqn:E; [|discriminate].
  intros ->. eauto.
Qed.

Lemma getSavedRecipes_nonempty st x l :
  result getSavedRecipes st = Ok (VArr (x :: l)) ->
  getSavedRecipes st = (Ok (VArr (x :: l)), st).
Proof.
  rewrite getSavedRecipes_result. intros H. inversion H as [H'].
  destruct (persisted_nonempty _ _ _ H') as (c & raw & Ha & Hs & Hp).
  rewrite H'. eapply getSavedRecipes_quiet; eauto.
Qed.

Lemma getSavedRecipes_pair st :
  getSavedRecipes st
  = (Ok (persisted (localStorage st)), after getSavedRecipes st).
Proof.
  rewrite <- getSavedRecipes_result. unfold result, after.
  now destruct (getSavedRecipes st).
Qed.

End SavedFacts.
Export SavedFacts.

(** ** The ingredient loops *)

Module IngredientFacts.

(** A loop whose body appends [item i] when [keep i] holds and does
    nothing otherwise. *)
Lemma for_indices_select {B} (body : nat -> list B -> outcome (list B))
      (keep : nat -> bool) (item : nat -> list B) :
  forall count first acc,
    (forall i a, first <= i < first + count ->
                 body i a = Ok (if keep i then a ++ item i else a)) ->
    for_indices body count first acc
    = Ok (acc ++ concat (map item (filter keep (seq first count)))).
Proof.
  induction count as [|n IH]; intros first acc Hbody.
  - simpl. now rewrite app_nil_r.
  - cbn [for_indices seq filter].
    rewrite Hbody by lia. cbn [obind].
    rewrite IH by (intros; apply Hbody; lia).
    destruct (keep first); cbn [map concat].
    + now rewrite <- app_assoc.
    + reflexivity.
Qed.

Lemma ing_and_trim_textual ing :
  textual ing = true ->
  exists keep, ing_and_trim ing = Ok keep /\ truthy keep = negb (blank ing).
Proof.
  unfold ing_and_trim.
  destruct ing as [| |b|n|s|l|ps]; cbn [textual blank truthy negb];
    intros H; try discriminate; try (eexists; split; reflexivity).
  - destruct b; [discriminate|]. eexists; split; reflexivity.
  - destruct (is_zero n) eqn:E; [|discriminate].
    eexists; split; [reflexivity|]. cbn [truthy]. now rewrite E.
  - destruct s as [|c s].
    + eexists; split; reflexivity.
    + cbn [call_trim]. eexists; split; [reflexivity|].
      cbn [truthy]. now destruct (trim (c :: s)).
Qed.

Lemma to_string_stringable v : stringable v = true -> to_string v = Ok (ToString v).
Proof. unfold to_string. now intros ->. Qed.

Lemma measure_and_space_stringable meas :
  stringable meas = true ->
  measure_and_space meas
  = Ok (if truthy meas then ToString meas ++ js " " else []).
Proof.
  intros H. unfold measure_and_space.
  destruct (truthy meas); [|reflexivity].
  now rewrite (to_string_stringable _ H).
Qed.

(** A slot that holds text and is not blank holds a string. *)
Lemma textual_not_blank ing :
  textual ing = true -> blank ing = false -> exists s, ing = VStr s.
Proof.
  destruct ing as [| |b|n|s|l|ps]; cbn; intros Ht Hb; try congruence.
  now exists s.
Qed.

Lemma seq_sorted first count : StronglySorted lt (seq first count).
Proof.
  revert first; induction count as [|n IH]; intros first; simpl.
  - constructor.
  - constructor; [apply IH|].
    apply Forall_forall. intros x Hx. apply in_seq in Hx. lia.
Qed.

Lemma filter_sorted (f : nat -> bool) l :
  StronglySorted lt l -> StronglySorted lt (filter f l).
Proof.
  induction 1 as [|x l Hs IH Hx]; simpl; [constructor|].
  destruct (f x); [|assumption].
  constructor; [assumption|].
  apply Forall_forall. intros y Hy. apply filter_In in Hy.
  rewrite Forall_forall in Hx. now apply Hx.
Qed.

Lemma concat_singletons {B} (f : nat -> B) l :
  concat (map (fun i => [f i]) l) = map f l.
Proof. induction l; simpl; congruence. Qed.

End IngredientFacts.
Export IngredientFacts.

(** ** Rendering and writing the saved list *)

Module ListFacts.

Lemma strip_zeros_head ds d r : strip_zeros ds = d :: r -> d <> 0%N.
Proof.
  induction ds as [|x ds IH]; simpl; [discriminate|].
  destruct (N.eqb_spec x 0) as [->|Hx]; [assumption|].
  intros H; inversion H; subst; assumption.
Qed.

Lemma strip_zeros_app_nonzero ds d : d <> 0%N -> strip_zeros (ds ++ [d]) <> [].
Proof.
  intros Hd. induction ds as [|x ds IH]; simpl.
  - destruct (N.eqb_spec d 0); [contradiction|discriminate].
  - destruct (x =? 0)%N; [assumption|discriminate].
Qed.

Lemma normalise_digits_nil x :
  digits (normalise x) = [] -> strip_zeros (digits x) = [].
Proof.
  unfold normalise.
  destruct (strip_zeros (digits x)) as [|d r] eqn:E; [reflexivity|].
  pose proof (strip_zeros_head _ _ _ E) as Hd.
  assert (Hne : strip_trailing_zeros (d :: r) <> []).
  { unfold strip_trailing_zeros. intros H.
    apply (f_equal (@rev N)) in H. rewrite rev_involutive in H.
    simpl in H. exact (strip_zeros_app_nonzero (rev r) d Hd H). }
  destruct (strip_trailing_zeros (d :: r)); [congruence|discriminate].
Qed.

Lemma strip_zeros_keeps_last ds d :
  d <> 0%N -> exists t, strip_zeros (ds ++ [d]) = t ++ [d].
Proof.
  intros Hd. induction ds as [|x ds IH]; simpl.
  - exists []. destruct (N.eqb_spec d 0); [contradiction|reflexivity].
  - destruct (x =? 0)%N; [assumption|]. now exists (x :: ds).
Qed.

Lemma normalise_no_leading_zero x :
  strip_zeros (digits (normalise x)) = digits (normalise x).
Proof.
  unfold normalise.
  destruct (strip_zeros (digits x)) as [|d r] eqn:E; [reflexivity|].
  pose proof (strip_zeros_head _ _ _ E) as Hd.
  unfold strip_trailing_zeros. change (rev (d :: r)) with (rev r ++ [d]).
  destruct (strip_zeros_keeps_last (rev r) d Hd) as [t Ht].
  rewrite Ht, rev_unit. cbn [digits strip_zeros].
  destruct (N.eqb_spec d 0); [contradiction|reflexivity].
Qed.

Lemma uint_all_zero u :
  strip_zeros (uint_digits u) = [] -> Nat.of_uint_acc u 0 = 0.
Proof.
  induction u; simpl; intros H; try discriminate; auto.
Qed.

Lemma number_of_nat_zero n :
  number_eqb (number_of_nat n) (number_of_nat 0) = (n =? 0).
Proof.
  destruct n as [|n]; [reflexivity|].
  change (S n =? 0) with false.
  apply not_true_is_false. intros H.
  unfold number_eqb in H.
  apply andb_prop in H. destruct H as [H _].
  apply andb_prop in H. destruct H as [_ H].
  change (digits (normalise (number_of_nat 0))) with (@nil N) in H.
  destruct (digits (normalise (number_of_nat (S n)))) eqn:E; [|discriminate].
  apply normalise_digits_nil in E. unfold number_of_nat in E.
  rewrite normalise_no_leading_zero in E.
  apply normalise_digits_nil in E. cbn [digits] in E.
  apply uint_all_zero in E.
  pose proof (DecimalNat.Unsigned.of_to (S n)) as Hof.
  unfold Nat.of_uint in Hof. congruence.
Qed.

(** [list.length === 0] on an array. *)
Lemma length_is_zero l :
  strict_equal (get_own (VArr l) (js "length")) (VNum (number_of_nat 0))
  = match l with [] => true | _ => false end.
Proof.
  change (get_own (VArr l) (js "length")) with (VNum (number_of_nat (length l))).
  cbn [strict_equal]. rewrite number_of_nat_zero. now destruct l.
Qed.

Lemma set_textContent_has_text name :
  set_textContent name
  = if has_text name then Ok (textContent_of name) else Throw TypeError.
Proof. destruct name; try reflexivity; unfold set_textContent, to_string, has_text;
  destruct (stringable _); reflexivity. Qed.

Lemma has_text_strings (names : list jsstring) :
  forallb has_text (map VStr names) = true.
Proof. induction names; [reflexivity|assumption]. Qed.

Lemma forEach_appendChild l :
  forall st items,
    forallb has_text l = true ->
    savedList st = Some items ->
    forEach append_saved_item l st
    = (Ok tt, put_savedList (items ++ map saved_recipe_item l) st).
Proof.
  induction l as [|x l IH]; intros st items Ht Hs.
  - cbn [forEach map ret]. rewrite app_nil_r.
    destruct st; cbn in *. now rewrite Hs.
  - cbn [forallb] in Ht. apply andb_true_iff in Ht as [Hx Hl].
    cbn [forEach map]. unfold bind at 1, append_saved_item at 1.
    unfold bind at 1, lift at 1. rewrite set_textContent_has_text, Hx.
    unfold savedList_appendChild at 1. rewrite Hs.
    rewrite (IH _ (items ++ [saved_recipe_item x])) by (assumption || reflexivity).
    now rewrite <- app_assoc.
Qed.

(** The loop returns when the text of every name can be set, and throws a
    [TypeError] at the first name for which it cannot. *)
Lemma forEach_append_result l :
  forall st items,
    savedList st = Some items ->
    fst (forEach append_saved_item l st)
    = if forallb has_text l then Ok tt else Throw TypeError.
Proof.
  induction l as [|x l IH]; intros st items Hs; [reflexivity|].
  cbn [forEach forallb]. unfold bind at 1, append_saved_item at 1.
  unfold bind at 1, lift at 1. rewrite set_textContent_has_text.
  destruct (has_text x); [|reflexivity].
  unfold savedList_appendChild at 1. rewrite Hs. cbn [andb].
  apply (IH _ (items ++ [saved_recipe_item x])). reflexivity.
Qed.

Lemma forEach_append_storage l :
  forall st, localStorage (snd (forEach append_saved_item l st)) = localStorage st.
Proof.
  induction l as [|x l IH]; intros st; [reflexivity|].
  cbn [forEach]. unfold bind at 1, append_saved_item at 1.
  unfold bind at 1, lift at 1.
  destruct (set_textContent x); [|reflexivity].
  unfold savedList_appendChild at 1.
  destruct (savedList st); [|reflexivity].
  now rewrite IH.
Qed.

(** What [renderSavedRecipesList] does when the saved list is an array of
    names whose text can be set and both of its elements are on the
    page. *)
Lemma renderSavedRecipesList_array st l c items :
  persisted (localStorage st) = VArr l ->
  forallb has_text l = true ->
  savedContainer st = Some c -> savedList st = Some items ->
  renderSavedRecipesList st
  = (Ok tt,
     put_savedList (map saved_recipe_item l)
       (snd (set_savedContainer_display
               (match l with [] => js "none" | _ => [] end)
               (after getSavedRecipes st)))).
Proof.
  intros Hp Ht Hc Hs.
  destruct (getSavedRecipes_after st)
    as (_ & _ & _ & _ & Hc' & Hs' & _).
  unfold renderSavedRecipesList. unfold bind at 1.
  rewrite getSavedRecipes_pair, Hp.
  set (st0 := after getSavedRecipes st) in *.
  unfold bind at 1, get_state at 1. rewrite Hc', Hc, Hs', Hs.
  unfold bind at 1, lift at 1. cbn [get_prop].
  rewrite length_is_zero.
  destruct l as [|x l].
  - reflexivity.
  - unfold bind at 1. cbn [set_savedContainer_display].
    unfold bind at 1. cbn [clear_savedList call_forEach].
    erewrite forEach_appendChild by (assumption || reflexivity).
    reflexivity.
Qed.

(** On an array the call returns when the text of every name can be set,
    and throws a [TypeError] otherwise. *)
Lemma renderSavedRecipesList_array_result st l c items :
  persisted (localStorage st) = VArr l ->
  savedContainer st = Some c -> savedList st = Some items ->
  result renderSavedRecipesList st
  = if forallb has_text l then Ok tt else Throw TypeError.
Proof.
  intros Hp Hc Hs.
  destruct (getSavedRecipes_after st)
    as (_ & _ & _ & _ & Hc' & Hs' & _).
  unfold result, renderSavedRecipesList. unfold bind at 1.
  rewrite getSavedRecipes_pair, Hp.
  set (st0 := after getSavedRecipes st) in *.
  unfold bind at 1, get_state at 1. rewrite Hc', Hc, Hs', Hs.
  unfold bind at 1, lift at 1. cbn [get_prop].
  rewrite length_is_zero.
  destruct l as [|x l]; [reflexivity|].
  unfold bind at 1. cbn [set_savedContainer_display].
  unfold bind at 1. cbn [clear_savedList call_forEach].
  apply (forEach_append_result (x :: l) _ []). reflexivity.
Qed.

(** Rendering never writes to the store. *)
Lemma renderSavedRecipesList_storage st :
  localStorage (after renderSavedRecipesList st) = localStorage st.
Proof.
  destruct (getSavedRecipes_after st)
    as (_ & _ & _ & _ & Hc' & Hs' & Hl & _).
  unfold after, renderSavedRecipesList. unfold bind at 1.
  rewrite getSavedRecipes_pair.
  set (st0 := after getSavedRecipes st) in *.
  unfold bind at 1, get_state at 1.
  destruct (savedContainer st0) as [c|]; [|exact Hl].
  destruct (savedList st0) as [items|] eqn:Hitems; [|exact Hl].
  unfold bind at 1, lift at 1.
  destruct (get_prop (persisted (localStorage st)) (js "length")) as [len|e];
    [|exact Hl].
  destruct (strict_equal len (VNum (number_of_nat 0))); [exact Hl|].
  unfold bind at 1. cbn [set_savedContainer_display].
  unfold bind at 1. cbn [clear_savedList].
  destruct (persisted (localStorage st)) as [| |b|n|s|l|ps]; try exact Hl.
  cbn [call_forEach]. rewrite forEach_append_storage.
  exact Hl.
Qed.

Lemma setSavedRecipes_accepted list st :
  store_accepts (localStorage st) list ->
  setSavedRecipes list st
  = (Ok tt, put_localStorage (stored (localStorage st) list) st).
Proof.
  intros [Ha Hc]. apply N.leb_le in Hc.
  unfold setSavedRecipes, try_catch, localStorage_setItem.
  now rewrite Ha, Hc.
Qed.

(** A call of [setSavedRecipes] either stores the list or leaves the
    store as it was. *)
Lemma setSavedRecipes_storage list st :
  localStorage (snd (setSavedRecipes list st)) = stored (localStorage st) list
  \/ localStorage (snd (setSavedRecipes list st)) = localStorage st.
Proof.
  unfold setSavedRecipes, try_catch, localStorage_setItem, console_error.
  destruct (available (localStorage st)); [|now right].
  destruct (N.of_nat _ <=? _)%N; [now left|now right].
Qed.

Lemma setSavedRecipes_result list st : fst (setSavedRecipes list st) = Ok tt.
Proof.
  unfold setSavedRecipes, try_catch, localStorage_setItem, console_error.
  destruct (available (localStorage st)); [|reflexivity].
  now destruct (N.of_nat _ <=? _)%N.
Qed.

Lemma setSavedRecipes_rejected list st :
  ~ store_accepts (localStorage st) list ->
  localStorage (snd (setSavedRecipes list st)) = localStorage st.
Proof.
  intros Hrej.
  unfold setSavedRecipes, try_catch, localStorage_setItem, console_error.
  destruct (available (localStorage st)) eqn:Ha; [|reflexivity].
  destruct (N.of_nat _ <=? _)%N eqn:Hc; [|reflexivity].
  exfalso. apply Hrej. split; [assumption|]. now apply N.leb_le.
Qed.

Lemma persisted_stored ls names :
  persisted (stored ls (VArr (map VStr names))) = VArr (map VStr names).
Proof.
  unfold persisted, stored. cbn [available slot].
  pose proof (JsonRoundTrip.JSON_parse_stringify_strings names) as Hrt.
  destruct (string_of_json (JSON_stringify (VArr (map VStr names))))
    as [|c raw] eqn:E.
  - rewrite JsonRoundTrip.JSON_stringify_strings in E.
    destruct names; discriminate.
  - now rewrite Hrt.
Qed.

Lemma filter_strings (name : value) (names : list jsstring) :
  filter (fun n => negb (strict_equal n name)) (map VStr names)
  = map VStr (filter (fun s => negb (strict_equal (VStr s) name)) names).
Proof.
  induction names as [|s names IH]; [reflexivity|].
  cbn [map filter]. rewrite IH.
  now destruct (strict_equal (VStr s) name).
Qed.

Lemma filter_absent (name : value) (l : list value) :
  existsb (fun n => strict_equal n name) l = false ->
  filter (fun n => negb (strict_equal n name)) l = l.
Proof.
  induction l as [|x l IH]; [reflexivity|].
  cbn [existsb filter]. intros H. apply orb_false_elim in H.
  destruct H as [Hx Hl]. rewrite Hx. cbn [negb]. now rewrite IH.
Qed.

End ListFacts.
Export ListFacts.

(** * Properties of the specification *)

(** ** C1: blank ingredient slots *)

(** C1, as amended. For a recipe record whose ingredient slots 1..20 hold
    text or nothing, and whose measures can be converted to a string in
    the slots that are not blank, [getIngredientsHtml] renders, and the
    loop of [remixRecipe] collects in its local array, exactly the slots
    that are not blank (absent, empty or white space only), in increasing
    index order. *)
Theorem blank_slots_are_skipped (props : list (jsstring * value)) :
  (forall i, 1 <= i <= 20 -> textual (ingredient_of (VObj props) i) = true) ->
  (forall i, 1 <= i <= 20 ->
     blank (ingredient_of (VObj props) i) = false ->
     stringable (measure_of (VObj props) i) = true) ->
  getIngredientsHtml (VObj props)
  = Ok (concat (map (fun i => ingredient_li (measure_of (VObj props) i)
                                            (ingredient_of (VObj props) i))
                    (kept_slots (VObj props))))
  /\ remix_ingredients (VObj props)
     = Ok (map (fun i => ingredient_entry (measure_of (VObj props) i)
                                          (ingredient_of (VObj props) i))
               (kept_slots (VObj props)))
  /\ (forall i, 1 <= i <= 20 ->
        blank (ingredient_of (VObj props) i) = true ->
        ~ In i (kept_slots (VObj props)))
  /\ (forall i, 1 <= i <= 20 ->
        blank (ingredient_of (VObj props) i) = false ->
        In i (kept_slots (VObj props)))
  /\ StronglySorted lt (kept_slots (VObj props)).
Proof.
  intros Htext Hmeas. repeat split.
  - unfold getIngredientsHtml, kept_slots.
    rewrite for_indices_select
      with (keep := fun i => negb (blank (ingredient_of (VObj props) i)))
           (item := fun i => ingredient_li (measure_of (VObj props) i)
                                           (ingredient_of (VObj props) i));
      [reflexivity|].
    intros i a Hi. cbn [get_prop obind].
    destruct (ing_and_trim_textual _ (Htext i ltac:(lia))) as (keep & Hk & Ht).
    fold (ingredient_of (VObj props) i). fold (measure_of (VObj props) i).
    rewrite Hk. cbn [obind]. rewrite Ht.
    destruct (blank (ingredient_of (VObj props) i)) eqn:Hb; [reflexivity|].
    cbn [negb].
    rewrite (measure_and_space_stringable _ (Hmeas i ltac:(lia) Hb)).
    destruct (textual_not_blank _ (Htext i ltac:(lia)) Hb) as [s ->].
    reflexivity.
  - unfold remix_ingredients, kept_slots.
    rewrite for_indices_select
      with (keep := fun i => negb (blank (ingredient_of (VObj props) i)))
           (item := fun i => [ingredient_entry (measure_of (VObj props) i)
                                               (ingredient_of (VObj props) i)]).
    + now rewrite concat_singletons.
    + intros i a Hi. cbn [get_prop obind].
      destruct (ing_and_trim_textual _ (Htext i ltac:(lia))) as (keep & Hk & Ht).
      fold (ingredient_of (VObj props) i). fold (measure_of (VObj props) i).
      rewrite Hk. cbn [obind]. rewrite Ht.
      destruct (blank (ingredient_of (VObj props) i)) eqn:Hb; [reflexivity|].
      cbn [negb].
      rewrite (measure_and_space_stringable _ (Hmeas i ltac:(lia) Hb)).
      destruct (textual_not_blank _ (Htext i ltac:(lia)) Hb) as [s ->].
      reflexivity.
  - intros i Hi Hb Hin. unfold kept_slots in Hin.
    apply filter_In in Hin. destruct Hin as [_ Hin].
    rewrite Hb in Hin. discriminate.
  - intros i Hi Hb. unfold kept_slots. apply filter_In. split.
    + apply in_seq. lia.
    + now rewrite Hb.
  - unfold kept_slots. apply filter_sorted, seq_sorted.
Qed.

Lemma blank_slots_are_skipped_witness :
  getIngredientsHtml tea
  = Ok (concat (map (fun i => ingredient_li (measure_of tea i) (ingredient_of tea i))
                    (kept_slots tea)))
  /\ remix_ingredients tea
     = Ok (map (fun i => ingredient_entry (measure_of tea i) (ingredient_of tea i))
               (kept_slots tea))
  /\ (forall i, 1 <= i <= 20 ->
        blank (ingredient_of tea i) = true -> ~ In i (kept_slots tea))
  /\ (forall i, 1 <= i <= 20 ->
        blank (ingredient_of tea i) = false -> In i (kept_slots tea))
  /\ StronglySorted lt (kept_slots tea).
Proof.
  apply (blank_slots_are_skipped tea_props).
  - intros i Hi.
    assert (Hin : In i (seq 1 20)) by (apply in_seq; lia).
    simpl in Hin.
    repeat (destruct Hin as [<-|Hin]; [reflexivity|]).
    contradiction.
  - intros i Hi _.
    assert (Hin : In i (seq 1 20)) by (apply in_seq; lia).
    simpl in Hin.
    repeat (destruct Hin as [<-|Hin]; [reflexivity|]).
    contradiction.
Defined.

(** The loops on [tea], and on a slot that holds a number: [trim] is not a
    method of a number. *)
Example getIngredientsHtml_tea :
  getIngredientsHtml tea = Ok (js "<li>1 cup Water</li><li>Tea leaves</li>").
Proof. reflexivity. Qed.

Example remix_ingredients_tea :
  remix_ingredients tea = Ok [js "1 cup Water"; js "Tea leaves"].
Proof. reflexivity. Qed.

Example getIngredientsHtml_number_slot :
  getIngredientsHtml (VObj [(js "strIngredient1", VNum (number_of_nat 5))])
  = Throw TypeError.
Proof. reflexivity. Qed.

(** A measure that cannot be converted: the object has a [toString] of its
    own, which is not a function. *)
Example getIngredientsHtml_measure_object :
  getIngredientsHtml
    (VObj [ (js "strIngredient1", VStr (js "Salt"));
            (js "strMeasure1", VObj [(js "toString", VNull)]) ])
  = Throw TypeError
  /\ remix_ingredients
       (VObj [ (js "strIngredient1", VStr (js "Salt"));
               (js "strMeasure1", VObj [(js "toString", VNull)]) ])
     = Throw TypeError
  /\ getIngredientsHtml
       (VObj [ (js "strIngredient1", VStr (js "Salt"));
               (js "strMeasure1", VObj [(js "amount", VNull)]) ])
     = Ok (js "<li>[object Object] Salt</li>").
Proof. repeat split; reflexivity. Qed.

(** C1, as stated, fails for the transmitted list: slot 2 of [tea] is
    blank and is left out of the array that [remixRecipe] computes, yet the
    prompt that goes out carries the slot. *)
Lemma blank_slot_is_transmitted :
  blank (ingredient_of tea 2) = true
  /\ remix_ingredients tea = Ok [js "1 cup Water"; js "Tea leaves"]
  /\ slot_member tea 2 = jsq "'strIngredient2': ' '"
  /\ map user_content
       (requests (after (remixRecipe tea (js "Make it spicy") Rejected) fresh_page))
     = [Some (VStr (userPrompt tea (js "Make it spicy")))]
  /\ is_infix (slot_member tea 2) (userPrompt tea (js "Make it spicy")) = true.
Proof. repeat split; vm_compute; reflexivity. Qed.

(** ** C10: what the remix request carries *)

Lemma remixRecipe_requests recipeJson theme s st :
  requests (after (remixRecipe recipeJson theme s) st)
  = match remix_ingredients recipeJson, OPENAI_API_KEY st with
    | Ok _, Some key =>
        requests st ++ [chat_request key (userPrompt recipeJson theme)]
    | _, _ => requests st
    end.
Proof.
  unfold after, remixRecipe, bind, lift, try_catch, read_OPENAI_API_KEY, fetch,
    throw, ret.
  destruct (remix_ingredients recipeJson) as [ingredients|e]; [|reflexivity].
  destruct (OPENAI_API_KEY st) as [key|]; [|reflexivity].
  destruct s as [|res]; [reflexivity|]. cbn [fst snd].
  destruct (ok res); cbn [negb]; [|reflexivity].
  destruct (json res) as [data|e]; [|reflexivity].
  destruct (truthy (first_reply data)); reflexivity.
Qed.

(** C10. The user prompt is the JSON serialization of the whole record
    between two fixed texts, the second holding the theme; a request that
    [remixRecipe] sends is the chat request built from that prompt, whatever
    its loop collected in [ingredients], and the user message in its body is
    that prompt; and two records with the same [ingredients] array can
    yield different prompts. *)
Theorem remix_sends_raw_record (recipeJson : value) (theme : jsstring)
        (s : settled) (st : State) :
  userPrompt recipeJson theme
  = prompt_prefix ++ string_of_json (JSON_stringify_2 recipeJson)
    ++ prompt_suffix theme
  /\ (requests (after (remixRecipe recipeJson theme s) st) = requests st
      \/ exists key,
           OPENAI_API_KEY st = Some key
           /\ requests (after (remixRecipe recipeJson theme s) st)
              = requests st ++ [chat_request key (userPrompt recipeJson theme)])
  /\ (forall ingredients key,
        remix_ingredients recipeJson = Ok ingredients ->
        OPENAI_API_KEY st = Some key ->
        requests (after (remixRecipe recipeJson theme s) st)
        = requests st ++ [chat_request key (userPrompt recipeJson theme)])
  /\ (forall key,
        user_content (chat_request key (userPrompt recipeJson theme))
        = Some (VStr (userPrompt recipeJson theme)))
  /\ (exists r1 r2,
        remix_ingredients r1 = remix_ingredients r2
        /\ userPrompt r1 theme <> userPrompt r2 theme).
Proof.
  split; [|split; [|split; [|split]]].
  - unfold userPrompt, prompt_prefix, prompt_suffix.
    now rewrite <- !app_assoc.
  - rewrite remixRecipe_requests.
    destruct (remix_ingredients recipeJson); [|now left].
    destruct (OPENAI_API_KEY st) as [key|]; [|now left].
    right. now exists key.
  - intros ingredients key Hi Hk.
    now rewrite remixRecipe_requests, Hi, Hk.
  - intros key. apply user_content_chat_request.
  - exists (VObj [(js "strIngredient1", VStr (js " "))]), (VObj []).
    split; [reflexivity|].
    unfold userPrompt. intros H.
    apply app_inv_head in H. vm_compute in H. discriminate.
Qed.

Lemma remix_sends_raw_record_witness :
  requests (after (remixRecipe tea (js "Make it spicy") Rejected) fresh_page)
  = requests fresh_page
    ++ [chat_request (VStr (js "sk-test")) (userPrompt tea (js "Make it spicy"))].
Proof.
  destruct (remix_sends_raw_record tea (js "Make it spicy") Rejected fresh_page)
    as (_ & _ & H & _).
  apply (H [js "1 cup Water"; js "Tea leaves"] (VStr (js "sk-test")));
    reflexivity.
Defined.

(** ** C4: reading the saved list *)

(** C4, as amended. [getSavedRecipes] never throws. It returns the empty
    list when the store is out of reach, when nothing or the empty string is
    stored, and when the stored text does not parse; otherwise it returns
    what the text parses to, which is the list of names whenever the text is
    the serialization of one. *)
Theorem getSavedRecipes_fails_open (st : State) :
  (exists v, result getSavedRecipes st = Ok v)
  /\ (available (localStorage st) = false ->
      result getSavedRecipes st = Ok (VArr []))
  /\ (slot (localStorage st) = None ->
      result getSavedRecipes st = Ok (VArr []))
  /\ (forall raw e,
        slot (localStorage st) = Some raw -> JSON_parse raw = Throw e ->
        result getSavedRecipes st = Ok (VArr []))
  /\ (forall raw v,
        available (localStorage st) = true ->
        slot (localStorage st) = Some raw -> JSON_parse raw = Ok v ->
        result getSavedRecipes st = Ok v)
  /\ (forall names,
        available (localStorage st) = true ->
        slot (localStorage st)
        = Some (string_of_json (JSON_stringify (VArr (map VStr names)))) ->
        result getSavedRecipes st = Ok (VArr (map VStr names))).
Proof.
  rewrite getSavedRecipes_result. unfold persisted.
  assert (Hparsed : forall raw v,
             available (localStorage st) = true ->
             slot (localStorage st) = Some raw -> JSON_parse raw = Ok v ->
             Ok (if available (localStorage st)
                 then match slot (localStorage st) with
                      | Some (c :: raw) =>
                          match JSON_parse (c :: raw) with
                          | Ok v => v
                          | Throw _ => VArr []
                          end
                      | _ => VArr []
                      end
                 else VArr []) = Ok v).
  { intros raw v Ha Hs Hp. rewrite Ha, Hs.
    destruct raw as [|c raw]; [discriminate|]. now rewrite Hp. }
  split; [eauto|]. split; [|split; [|split; [|split]]].
  - now intros ->.
  - intros ->. now destruct (available (localStorage st)).
  - intros raw e Hs Hp. rewrite Hs.
    destruct (available (localStorage st)); [|reflexivity].
    destruct raw as [|c raw]; [reflexivity|]. now rewrite Hp.
  - exact Hparsed.
  - intros names Ha Hs. apply (Hparsed _ _ Ha Hs).
    apply JsonRoundTrip.JSON_parse_stringify_strings.
Qed.

Lemma getSavedRecipes_fails_open_witness :
  result getSavedRecipes
    (put_localStorage {| available := false; slot := None; capacity := 0 |} fresh_page)
  = Ok (VArr [])
  /\ result getSavedRecipes fresh_page = Ok (VArr [])
  /\ result getSavedRecipes (page_storing (js "[oops")) = Ok (VArr [])
  /\ result getSavedRecipes (page_storing (jsq "[ 'Tea' ]"))
     = Ok (VArr [VStr (js "Tea")])
  /\ result getSavedRecipes (page_storing (jsq "['Tea','Lasagne']"))
     = Ok (VArr (map VStr [js "Tea"; js "Lasagne"])).
Proof.
  split; [|split; [|split; [|split]]].
  - destruct (getSavedRecipes_fails_open
                (put_localStorage
                   {| available := false; slot := None; capacity := 0 |} fresh_page))
      as (_ & H & _).
    apply H; reflexivity.
  - destruct (getSavedRecipes_fails_open fresh_page) as (_ & _ & H & _).
    apply H; reflexivity.
  - destruct (getSavedRecipes_fails_open (page_storing (js "[oops")))
      as (_ & _ & _ & H & _).
    apply (H (js "[oops") SyntaxError); reflexivity.
  - destruct (getSavedRecipes_fails_open (page_storing (jsq "[ 'Tea' ]")))
      as (_ & _ & _ & _ & H & _).
    apply (H (jsq "[ 'Tea' ]")); reflexivity.
  - destruct (getSavedRecipes_fails_open (page_storing (jsq "['Tea','Lasagne']")))
      as (_ & _ & _ & _ & _ & H).
    apply (H [js "Tea"; js "Lasagne"]); reflexivity.
Defined.

(** C4, as stated, fails: with the text [null] in the store,
    [getSavedRecipes] returns [null], which is not a list. *)
Lemma getSavedRecipes_not_a_list :
  result getSavedRecipes (page_storing (js "null")) = Ok VNull
  /\ ~ (exists l, result getSavedRecipes (page_storing (js "null")) = Ok (VArr l)).
Proof.
  split; [reflexivity|].
  intros [l H]. vm_compute in H. discriminate.
Qed.

(** ** C9: the saved list on the page *)

(** C9. When the saved list is an array and the container and the list
    element are on the page, [renderSavedRecipesList] hides the container
    and empties the list element if the array is empty. Otherwise, if the
    text of every name can be set (as it can for every string), it shows
    the container and gives the list element one item per saved name, in
    the order of the array: the item of a name has the class
    [saved-recipe-item] and holds a span with the text of the name, whose
    click loads the recipe of that name, and a button [Delete], whose
    click deletes that name. If the text of some name cannot be set, the
    call throws a [TypeError]. *)
Theorem saved_list_region (st : State) (l : list value) (c : jsstring)
        (items : list LiElement) :
  result getSavedRecipes st = Ok (VArr l) ->
  savedContainer st = Some c ->
  savedList st = Some items ->
  (l = [] ->
   result renderSavedRecipesList st = Ok tt
   /\ savedContainer (after renderSavedRecipesList st) = Some (js "none")
   /\ savedList (after renderSavedRecipesList st) = Some [])
  /\ (l <> [] ->
      forallb has_text l = true ->
      result renderSavedRecipesList st = Ok tt
      /\ savedContainer (after renderSavedRecipesList st) = Some []
      /\ savedList (after renderSavedRecipesList st)
         = Some (map (fun name =>
                        {| li_className := js "saved-recipe-item";
                           li_span :=
                             {| span_textContent :=
                                  match name with
                                  | VUndefined | VNull => []
                                  | _ => ToString name
                                  end;
                                span_className := js "saved-recipe-name";
                                span_cursor := js "pointer";
                                span_title := js "Click to load this recipe";
                                span_click := OnClickLoad name |};
                           li_button :=
                             {| button_textContent := js "Delete";
                                button_className := js "delete-saved-recipe-btn";
                                button_marginLeft := js "8px";
                                button_click := OnClickDelete name |} |})
                     l))
  /\ (forallb has_text l = false ->
      result renderSavedRecipesList st = Throw TypeError).
Proof.
  intros Hl Hc Hs. rewrite getSavedRecipes_result in Hl. inversion Hl as [Hp].
  split; [|split].
  - intros ->. unfold result, after.
    rewrite (renderSavedRecipesList_array st [] c items Hp eq_refl Hc Hs).
    repeat split; reflexivity.
  - intros Hne Ht. unfold result, after.
    rewrite (renderSavedRecipesList_array st l c items Hp Ht Hc Hs).
    destruct l as [|x l]; [congruence|]. repeat split; reflexivity.
  - intros Ht.
    now rewrite (renderSavedRecipesList_array_result st l c items Hp Hc Hs), Ht.
Qed.

Lemma saved_list_region_witness :
  (savedContainer (after renderSavedRecipesList fresh_page) = Some (js "none")
   /\ savedList (after renderSavedRecipesList fresh_page) = Some [])
  /\ (savedContainer
        (after renderSavedRecipesList (page_storing (jsq "['Tea','Lasagne']")))
      = Some []
      /\ savedList
           (after renderSavedRecipesList (page_storing (jsq "['Tea','Lasagne']")))
         = Some (map saved_recipe_item [VStr (js "Tea"); VStr (js "Lasagne")])).
Proof.
  split.
  - destruct (saved_list_region fresh_page [] [] [])
      as (H & _); try reflexivity.
    apply H; reflexivity.
  - destruct (saved_list_region (page_storing (jsq "['Tea','Lasagne']"))
                [VStr (js "Tea"); VStr (js "Lasagne")] [] [])
      as (_ & H & _); try reflexivity.
    apply H; [discriminate|reflexivity].
Defined.

(** ** C2: saving a name *)

Lemma result_persisted st v :
  result getSavedRecipes st = Ok v -> persisted (localStorage st) = v.
Proof. rewrite getSavedRecipes_result. now intros [= ->]. Qed.

Lemma saveRecipeName_present name st l :
  result getSavedRecipes st = Ok (VArr l) ->
  existsb (strict_equal name) l = true ->
  saveRecipeName name st = (Ok tt, st).
Proof.
  intros Hl Hin.
  destruct l as [|x l]; [discriminate|].
  unfold saveRecipeName, bind.
  rewrite (getSavedRecipes_nonempty st x l Hl).
  cbn [lift call_includes]. now rewrite Hin.
Qed.

Lemma saveRecipeName_appends st names n :
  persisted (localStorage st) = VArr (map VStr names) ->
  existsb (strict_equal (VStr n)) (map VStr names) = false ->
  store_accepts (localStorage st) (VArr (map VStr (names ++ [n]))) ->
  localStorage (after (saveRecipeName (VStr n)) st)
  = stored (localStorage st) (VArr (map VStr (names ++ [n]))).
Proof.
  intros Hp Hin Hacc.
  destruct (getSavedRecipes_after st) as (_ & _ & _ & _ & _ & _ & Hls & _).
  unfold after, saveRecipeName. unfold bind at 1.
  rewrite getSavedRecipes_pair, Hp.
  set (st0 := after getSavedRecipes st) in *.
  unfold bind at 1. cbn [lift call_includes]. rewrite Hin. cbn [negb].
  unfold bind at 1. cbn [lift call_push].
  replace (map VStr names ++ [VStr n]) with (map VStr (names ++ [n]))
    by (now rewrite map_app).
  unfold bind at 1.
  rewrite setSavedRecipes_accepted by (now rewrite Hls).
  change (snd (renderSavedRecipesList ?s)) with (after renderSavedRecipesList s).
  rewrite renderSavedRecipesList_storage. cbn [put_localStorage localStorage].
  now rewrite Hls.
Qed.

Lemma saveRecipeName_storage name st l :
  persisted (localStorage st) = VArr l ->
  existsb (strict_equal name) l = false ->
  localStorage (after (saveRecipeName name) st)
  = localStorage (snd (setSavedRecipes (VArr (l ++ [name]))
                         (after getSavedRecipes st))).
Proof.
  intros Hp Hin.
  unfold after at 1, saveRecipeName. unfold bind at 1.
  rewrite getSavedRecipes_pair, Hp.
  unfold bind at 1. cbn [lift call_includes]. rewrite Hin. cbn [negb].
  unfold bind at 1. cbn [lift call_push]. unfold bind at 1.
  pose proof (setSavedRecipes_result (VArr (l ++ [name]))
                (after getSavedRecipes st)) as Hr.
  destruct (setSavedRecipes _ (after getSavedRecipes st)) as [o st1].
  cbn [fst snd] in *. subst o.
  change (snd (renderSavedRecipesList st1)) with (after renderSavedRecipesList st1).
  now rewrite renderSavedRecipesList_storage.
Qed.

(** C2. A call of [saveRecipeName] with a name that the saved list holds
    changes nothing at all. With a name that a list of names lacks, and a
    store that accepts the longer list, the call appends the name and a
    second call changes nothing; from the empty list, two calls leave the
    list with that name once. A store that does not accept the longer list
    is left as it was. *)
Theorem saveRecipeName_idempotent (name : value) (st : State) (l : list value) :
  result getSavedRecipes st = Ok (VArr l) ->
  (existsb (strict_equal name) l = true ->
   saveRecipeName name st = (Ok tt, st))
  /\ (forall names n,
        name = VStr n -> l = map VStr names ->
        existsb (strict_equal name) l = false ->
        store_accepts (localStorage st) (VArr (map VStr (names ++ [n]))) ->
        result getSavedRecipes (after (saveRecipeName name) st)
        = Ok (VArr (map VStr (names ++ [n])))
        /\ saveRecipeName name (after (saveRecipeName name) st)
           = (Ok tt, after (saveRecipeName name) st))
  /\ (forall n,
        name = VStr n -> l = [] ->
        store_accepts (localStorage st) (VArr [VStr n]) ->
        result getSavedRecipes
          (after (saveRecipeName name) (after (saveRecipeName name) st))
        = Ok (VArr [VStr n]))
  /\ (existsb (strict_equal name) l = false ->
      ~ store_accepts (localStorage st) (VArr (l ++ [name])) ->
      localStorage (after (saveRecipeName name) st) = localStorage st).
Proof.
  intros Hl.
  assert (Hstep : forall names n,
             name = VStr n -> l = map VStr names ->
             existsb (strict_equal name) l = false ->
             store_accepts (localStorage st) (VArr (map VStr (names ++ [n]))) ->
             result getSavedRecipes (after (saveRecipeName name) st)
             = Ok (VArr (map VStr (names ++ [n])))
             /\ saveRecipeName name (after (saveRecipeName name) st)
                = (Ok tt, after (saveRecipeName name) st)).
  { intros names n -> -> Hin Hacc.
    assert (Hafter : result getSavedRecipes (after (saveRecipeName (VStr n)) st)
                     = Ok (VArr (map VStr (names ++ [n])))).
    { rewrite getSavedRecipes_result.
      rewrite (saveRecipeName_appends st names n (result_persisted st _ Hl) Hin Hacc).
      now rewrite persisted_stored. }
    split; [exact Hafter|].
    apply (saveRecipeName_present _ _ _ Hafter).
    rewrite map_app, existsb_app. cbn [map existsb strict_equal].
    rewrite str_eqb_refl. now rewrite orb_true_r. }
  split; [|split; [|split]].
  - now apply saveRecipeName_present.
  - exact Hstep.
  - intros n Hn Hnil Hacc.
    destruct (Hstep [] n Hn Hnil) as [H1 H2]; [now rewrite Hnil|exact Hacc|].
    unfold after at 1. rewrite H2. exact H1.
  - intros Hin Hrej.
    destruct (getSavedRecipes_after st) as (_ & _ & _ & _ & _ & _ & Hls & _).
    rewrite (saveRecipeName_storage name st l (result_persisted st _ Hl) Hin).
    rewrite setSavedRecipes_rejected by (now rewrite Hls).
    exact Hls.
Qed.

Lemma saveRecipeName_idempotent_witness :
  result getSavedRecipes
    (after (saveRecipeName (VStr (js "Lasagne")))
       (after (saveRecipeName (VStr (js "Lasagne"))) fresh_page))
  = Ok (VArr [VStr (js "Lasagne")])
  /\ saveRecipeName (VStr (js "Tea")) (page_storing (jsq "['Tea','Lasagne']"))
     = (Ok tt, page_storing (jsq "['Tea','Lasagne']")).
Proof.
  split.
  - destruct (saveRecipeName_idempotent (VStr (js "Lasagne")) fresh_page [])
      as (_ & _ & H & _); [reflexivity|].
    apply H; try reflexivity.
    split; [reflexivity|]. vm_compute. discriminate.
  - destruct (saveRecipeName_idempotent (VStr (js "Tea"))
                (page_storing (jsq "['Tea','Lasagne']"))
                [VStr (js "Tea"); VStr (js "Lasagne")])
      as (H & _); [reflexivity|].
    apply H; reflexivity.
Defined.

(** ** C3: deleting a name *)

Lemma deleteSavedRecipe_storage name st l :
  persisted (localStorage st) = VArr l ->
  localStorage (after (deleteSavedRecipe name) st)
  = localStorage
      (snd (setSavedRecipes
              (VArr (filter (fun n => negb (strict_equal n name)) l))
              (after getSavedRecipes st))).
Proof.
  intros Hp. unfold after at 1, deleteSavedRecipe. unfold bind at 1.
  rewrite getSavedRecipes_pair, Hp.
  unfold bind at 1. cbn [lift call_filter_neq]. unfold bind at 1.
  destruct (setSavedRecipes _ (after getSavedRecipes st)) as [[[]|e] st1] eqn:E.
  - change (snd (renderSavedRecipesList st1)) with (after renderSavedRecipesList st1).
    now rewrite renderSavedRecipesList_storage.
  - reflexivity.
Qed.

Lemma filter_removes (name : value) (names : list jsstring) :
  existsb (fun n => strict_equal n name)
    (map VStr (filter (fun s => negb (strict_equal (VStr s) name)) names))
  = false.
Proof.
  induction names as [|s names IH]; [reflexivity|].
  cbn [filter]. destruct (strict_equal (VStr s) name) eqn:E; cbn [negb].
  - apply IH.
  - cbn [map existsb]. rewrite E. apply IH.
Qed.

(** C3. On a saved list of names, [deleteSavedRecipe] persists the list
    without the entries equal to the name when the store accepts the write,
    and leaves the list as it was when the store does not; a name that the
    list does not hold leaves the list as it was in either case. *)
Theorem deleteSavedRecipe_removes (name : value) (st : State)
        (names : list jsstring) :
  result getSavedRecipes st = Ok (VArr (map VStr names)) ->
  (store_accepts (localStorage st)
     (VArr (map VStr (filter (fun s => negb (strict_equal (VStr s) name)) names))) ->
   result getSavedRecipes (after (deleteSavedRecipe name) st)
   = Ok (VArr (map VStr (filter (fun s => negb (strict_equal (VStr s) name)) names)))
   /\ existsb (fun n => strict_equal n name)
        (map VStr (filter (fun s => negb (strict_equal (VStr s) name)) names))
      = false)
  /\ (existsb (fun n => strict_equal n name) (map VStr names) = false ->
      result getSavedRecipes (after (deleteSavedRecipe name) st)
      = Ok (VArr (map VStr names)))
  /\ (~ store_accepts (localStorage st)
         (VArr (map VStr (filter (fun s => negb (strict_equal (VStr s) name)) names))) ->
      result getSavedRecipes (after (deleteSavedRecipe name) st)
      = Ok (VArr (map VStr names))).
Proof.
  intros Hl. pose proof (result_persisted st _ Hl) as Hp.
  destruct (getSavedRecipes_after st) as (_ & _ & _ & _ & _ & _ & Hls & _).
  split; [|split]; cycle 2.
  { intros Hrej.
    rewrite getSavedRecipes_result, (deleteSavedRecipe_storage name st _ Hp).
    rewrite filter_strings.
    rewrite setSavedRecipes_rejected by (now rewrite Hls).
    now rewrite Hls, Hp. }
  - intros Hacc. split.
    + rewrite getSavedRecipes_result, (deleteSavedRecipe_storage name st _ Hp).
      rewrite filter_strings.
      rewrite setSavedRecipes_accepted by (now rewrite Hls).
      cbn [snd put_localStorage localStorage]. now rewrite persisted_stored.
    + apply filter_removes.
  - intros Habsent.
    rewrite getSavedRecipes_result, (deleteSavedRecipe_storage name st _ Hp).
    rewrite (filter_absent name _ Habsent).
    destruct (setSavedRecipes_storage (VArr (map VStr names))
                (after getSavedRecipes st)) as [E|E]; rewrite E.
    + now rewrite persisted_stored.
    + now rewrite Hls, Hp.
Qed.

Lemma deleteSavedRecipe_removes_witness :
  result getSavedRecipes
    (after (deleteSavedRecipe (VStr (js "Tea")))
       (page_storing (jsq "['Tea','Lasagne','Tea']")))
  = Ok (VArr [VStr (js "Lasagne")])
  /\ result getSavedRecipes
       (after (deleteSavedRecipe (VStr (js "Soup")))
          (page_storing (jsq "['Tea','Lasagne','Tea']")))
     = Ok (VArr (map VStr [js "Tea"; js "Lasagne"; js "Tea"])).
Proof.
  split.
  - destruct (deleteSavedRecipe_removes (VStr (js "Tea"))
                (page_storing (jsq "['Tea','Lasagne','Tea']"))
                [js "Tea"; js "Lasagne"; js "Tea"]) as (H & _); [reflexivity|].
    apply H. split; [reflexivity|]. vm_compute. discriminate.
  - destruct (deleteSavedRecipe_removes (VStr (js "Soup"))
                (page_storing (jsq "['Tea','Lasagne','Tea']"))
                [js "Tea"; js "Lasagne"; js "Tea"]) as (_ & H & _); [reflexivity|].
    apply H. reflexivity.
Defined.

(** ** C6 and C7: loading a saved recipe by name *)

(** C6. With a falsy name, the empty string among them,
    [fetchAndDisplayRecipeByName] returns at once: no request goes out and
    the page, the current recipe included, is as it was. *)
Theorem fetchByName_empty_is_noop (name : value) (s : settled) (st : State) :
  truthy name = false ->
  fetchAndDisplayRecipeByName name s st = (Ok tt, st).
Proof.
  intros Hn. unfold fetchAndDisplayRecipeByName. now rewrite Hn.
Qed.

Lemma fetchByName_empty_is_noop_witness :
  fetchAndDisplayRecipeByName (VStr []) Rejected (page_showing tea)
  = (Ok tt, page_showing tea).
Proof.
  apply (fetchByName_empty_is_noop (VStr []) Rejected (page_showing tea)).
  reflexivity.
Defined.

(** C7. For a truthy name whose search request went out and came back
    successful without a recipe, [fetchAndDisplayRecipeByName] shows the
    message that quotes the name, which is not the message of a failed
    load, and leaves the current recipe as it was. *)
Theorem fetchByName_not_found (name : value) (res : Response) (data : value)
        (encoded : jsstring) (d : Display) (st : State) :
  truthy name = true ->
  recipeDisplay st = Some d ->
  encodeURIComponent (ToString name) = Ok encoded ->
  ok res = true ->
  json res = Ok data ->
  truthy (first_meal data) = false ->
  result (fetchAndDisplayRecipeByName name (Fulfilled res)) st = Ok tt
  /\ recipeDisplay (after (fetchAndDisplayRecipeByName name (Fulfilled res)) st)
     = Some {| innerHTML :=
                 js "<p>Sorry, I couldn't find the recipe " ++ [DQ]
                 ++ ToString name ++ [DQ] ++ js ".</p>";
               save_listener := false |}
  /\ js "<p>Sorry, I couldn't find the recipe " ++ [DQ] ++ ToString name
     ++ [DQ] ++ js ".</p>" <> load_failed_message
  /\ currentRecipe (after (fetchAndDisplayRecipeByName name (Fulfilled res)) st)
     = currentRecipe st
  /\ requests (after (fetchAndDisplayRecipeByName name (Fulfilled res)) st)
     = requests st ++ [GET (search_url encoded)]
  /\ console (after (fetchAndDisplayRecipeByName name (Fulfilled res)) st)
     = console st.
Proof.
  intros Hn Hd He Hok Hj Hm.
  unfold result, after, fetchAndDisplayRecipeByName. rewrite Hn. cbn [negb].
  cbv beta delta [bind try_catch lift throw ret set_recipeDisplay_innerHTML fetch].
  rewrite Hd, He, Hok. cbn [negb]. rewrite Hj, Hm.
  cbn [negb recipeDisplay put_recipeDisplay fst snd currentRecipe requests console].
  unfold not_found_message.
  repeat split.
  intros H. vm_compute in H. discriminate.
Qed.

Lemma fetchByName_not_found_witness :
  recipeDisplay
    (after (fetchAndDisplayRecipeByName (VStr (js "Nonexistent Dish"))
              (Fulfilled {| ok := true; status := 200;
                            text := jsq "{'meals':null}" |}))
       (page_showing tea))
  = Some {| innerHTML :=
              js "<p>Sorry, I couldn't find the recipe " ++ [DQ]
              ++ js "Nonexistent Dish" ++ [DQ] ++ js ".</p>";
            save_listener := false |}
  /\ currentRecipe
       (after (fetchAndDisplayRecipeByName (VStr (js "Nonexistent Dish"))
                 (Fulfilled {| ok := true; status := 200;
                               text := jsq "{'meals':null}" |}))
          (page_showing tea))
     = tea.
Proof.
  destruct (fetchByName_not_found (VStr (js "Nonexistent Dish"))
              {| ok := true; status := 200; text := jsq "{'meals':null}" |}
              (VObj [(js "meals", VNull)]) (js "Nonexistent%20Dish")
              {| innerHTML := []; save_listener := false |}
              (page_showing tea))
    as (_ & H1 & _ & H2 & _); try reflexivity.
  split; [exact H1|exact H2].
Defined.

(** ** C8: a remix reply without choices *)

(** [remixRecipe] touches nothing but the list of requests. *)
Lemma remixRecipe_frame recipeJson theme s st :
  currentRecipe (after (remixRecipe recipeJson theme s) st) = currentRecipe st
  /\ remixOutput (after (remixRecipe recipeJson theme s) st) = remixOutput st
  /\ console (after (remixRecipe recipeJson theme s) st) = console st.
Proof.
  unfold after, remixRecipe, bind, lift, try_catch, read_OPENAI_API_KEY, fetch,
    throw, ret.
  destruct (remix_ingredients recipeJson) as [ingredients|e]; [|cbn; tauto].
  destruct (OPENAI_API_KEY st) as [key|]; [|cbn; tauto].
  destruct s as [|res]; [cbn; tauto|]. cbn [fst snd].
  destruct (ok res); cbn [negb]; [|cbn; tauto].
  destruct (json res) as [data|e]; [|cbn; tauto].
  destruct (truthy (first_reply data)); cbn; tauto.
Qed.

(** With no choice in a successful response, [remixRecipe] throws; when its
    request went out, it throws the error of an empty reply. *)
Lemma remixRecipe_empty_choices recipeJson theme res data st :
  ok res = true ->
  json res = Ok data ->
  opt_get data (js "choices") = VArr [] ->
  (exists e, result (remixRecipe recipeJson theme (Fulfilled res)) st = Throw e)
  /\ (forall ingredients key,
        remix_ingredients recipeJson = Ok ingredients ->
        OPENAI_API_KEY st = Some key ->
        result (remixRecipe recipeJson theme (Fulfilled res)) st
        = Throw (Error (js "Empty reply from OpenAI"))).
Proof.
  intros Hok Hj Hc.
  assert (Hr : truthy (first_reply data) = false).
  { unfold first_reply. now rewrite Hc. }
  unfold result, remixRecipe.
  cbv beta iota delta [bind try_catch lift throw ret read_OPENAI_API_KEY fetch].
  split.
  - destruct (remix_ingredients recipeJson) as [ingredients|e]; [|cbn; eauto].
    destruct (OPENAI_API_KEY st) as [key|]; [|cbn; eauto].
    rewrite Hok. cbn [negb]. rewrite Hj, Hr. cbn [negb fst]. eauto.
  - intros ingredients key -> ->.
    rewrite Hok. cbn [negb]. rewrite Hj, Hr. reflexivity.
Qed.

(** C8. When the remix service answers with a successful response whose
    list of choices is empty, [remixRecipe] throws (the error of an empty
    reply, once its request went out), and the click listener of the remix
    button, run on a page that has a current recipe and the output element,
    logs the error, shows the message of a failed remix, which is spelled
    out below and is not the message shown while waiting, and leaves the
    current recipe as it was. *)
Theorem remix_empty_choices (res : Response) (data : value) (st : State) :
  ok res = true ->
  json res = Ok data ->
  opt_get data (js "choices") = VArr [] ->
  (forall recipeJson theme,
      exists e, result (remixRecipe recipeJson theme (Fulfilled res)) st = Throw e)
  /\ (forall recipeJson theme ingredients key,
        remix_ingredients recipeJson = Ok ingredients ->
        OPENAI_API_KEY st = Some key ->
        result (remixRecipe recipeJson theme (Fulfilled res)) st
        = Throw (Error (js "Empty reply from OpenAI")))
  /\ (forall html,
        truthy (currentRecipe st) = true ->
        remixOutput st = Some html ->
        result (remixClick (Fulfilled res)) st = Ok tt
        /\ remixOutput (after (remixClick (Fulfilled res)) st)
           = Some (js "<p>Sorry " ++ [226; 8364; 8221]%N
                   ++ js " I couldn't prepare a remix just now. Please try again in a moment.</p>")
        /\ remixOutput (after (remixClick (Fulfilled res)) st)
           <> Some remix_loading_message
        /\ currentRecipe (after (remixClick (Fulfilled res)) st)
           = currentRecipe st
        /\ exists e,
             console (after (remixClick (Fulfilled res)) st)
             = console st ++ [{| log_label := js "Remix error:"; log_error := e |}]).
Proof.
  intros Hok Hj Hc. split; [|split].
  - intros recipeJson theme.
    apply (remixRecipe_empty_choices recipeJson theme res data st Hok Hj Hc).
  - intros recipeJson theme.
    apply (remixRecipe_empty_choices recipeJson theme res data st Hok Hj Hc).
  - intros html Hcur Hout.
    set (theme := match remixThemeSelect st with
                  | Some (c :: v) => c :: v
                  | _ => js "Make it interesting"
                  end).
    destruct (set_remixOutput_innerHTML remix_loading_message st)
      as [o1 st1] eqn:E1.
    assert (H1 : o1 = Ok tt /\ currentRecipe st1 = currentRecipe st
                 /\ remixOutput st1 = Some remix_loading_message
                 /\ console st1 = console st).
    { unfold set_remixOutput_innerHTML in E1. rewrite Hout in E1.
      inversion E1; subst. cbn. tauto. }
    destruct H1 as (-> & C1 & O1 & L1).
    destruct (remixRecipe_empty_choices (currentRecipe st) theme res data st1
                Hok Hj Hc) as [[e He] _].
    destruct (remixRecipe_frame (currentRecipe st) theme (Fulfilled res) st1)
      as (C2 & O2 & L2).
    unfold result in He. unfold after in C2, O2, L2.
    destruct (remixRecipe (currentRecipe st) theme (Fulfilled res) st1)
      as [o2 st2] eqn:E2. cbn [fst snd] in *. subst o2.
    assert (Hrun : remixClick (Fulfilled res) st
                   = bind (console_error (js "Remix error:") e)
                       (fun _ => set_remixOutput_innerHTML remix_failed_message)
                       st2).
    { unfold remixClick.
      rewrite (bind_Ok get_state _ st st st) by reflexivity.
      rewrite Hcur. cbn [negb]. fold theme.
      rewrite (bind_Ok _ _ _ _ _ E1).
      erewrite try_catch_Throw; [reflexivity|]. now apply bind_Throw. }
    unfold result, after. rewrite Hrun.
    unfold bind, console_error, set_remixOutput_innerHTML.
    cbn [remixOutput]. rewrite O2, O1.
    cbn [fst snd remixOutput currentRecipe console].
    rewrite C2, C1, L2, L1.
    split; [reflexivity|]. split; [reflexivity|].
    split; [vm_compute; discriminate|]. eauto.
Qed.

Lemma remix_empty_choices_witness :
  result (remixRecipe tea (js "Make it spicy")
            (Fulfilled {| ok := true; status := 200;
                          text := jsq "{'choices':[]}" |}))
    (page_showing tea)
  = Throw (Error (js "Empty reply from OpenAI"))
  /\ remixOutput
       (after (remixClick (Fulfilled {| ok := true; status := 200;
                                        text := jsq "{'choices':[]}" |}))
          (page_showing tea))
     = Some (js "<p>Sorry " ++ [226; 8364; 8221]%N
             ++ js " I couldn't prepare a remix just now. Please try again in a moment.</p>")
  /\ currentRecipe
       (after (remixClick (Fulfilled {| ok := true; status := 200;
                                        text := jsq "{'choices':[]}" |}))
          (page_showing tea))
     = tea.
Proof.
  destruct (remix_empty_choices
              {| ok := true; status := 200; text := jsq "{'choices':[]}" |}
              (VObj [(js "choices", VArr [])]) (page_showing tea))
    as (_ & H1 & H2); try reflexivity.
  split.
  - apply (H1 tea (js "Make it spicy") [js "1 cup Water"; js "Tea leaves"]
              (VStr (js "sk-test"))); reflexivity.
  - destruct (H2 []) as (_ & Ho & _ & Hc & _); try reflexivity.
    split; [exact Ho|exact Hc].
Defined.

(** ** C5: failures of the random fetch *)

(** C5 fails on the code. [fetchAndDisplayRandomRecipe] never looks at the
    status of the response: a response that is not a success and carries a
    recipe is rendered and becomes the current recipe. A transport failure
    and a response without a recipe end in the same message, and nothing
    is logged that would tell them apart. *)
Theorem random_fetch_ignores_status :
  (forall ok1 ok2 status1 status2 body st,
      fetchAndDisplayRandomRecipe
        (Fulfilled {| ok := ok1; status := status1; text := body |}) st
      = fetchAndDisplayRandomRecipe
          (Fulfilled {| ok := ok2; status := status2; text := body |}) st)
  /\ (result (fetchAndDisplayRandomRecipe (Fulfilled failed_response_with_recipe))
        fresh_page = Ok tt
      /\ currentRecipe
           (after (fetchAndDisplayRandomRecipe (Fulfilled failed_response_with_recipe))
              fresh_page)
         = recipe_in_failed_response
      /\ recipeDisplay
           (after (fetchAndDisplayRandomRecipe (Fulfilled failed_response_with_recipe))
              fresh_page)
         = Some {| innerHTML :=
                     recipe_markup (VStr (js "Tea")) (VStr (js "tea.jpg"))
                       (js "<li>1 cup Water</li>") (VStr (js "Boil water."));
                   save_listener := true |})
  /\ (after (fetchAndDisplayRandomRecipe Rejected) fresh_page
      = put_recipeDisplay
          {| innerHTML := js "<p>Sorry, couldn't load a recipe.</p>";
             save_listener := false |}
          (snd (fetch (GET random_url) Rejected fresh_page))
      /\ after (fetchAndDisplayRandomRecipe (Fulfilled response_without_recipe))
           fresh_page
         = after (fetchAndDisplayRandomRecipe Rejected) fresh_page).
Proof.
  split; [|split; [|split]].
  - intros ok1 ok2 status1 status2 body st. reflexivity.
  - repeat split; vm_compute; reflexivity.
  - vm_compute; reflexivity.
  - vm_compute; reflexivity.
Qed.

(** The sibling path does look at the status: on the same response,
    [fetchAndDisplayRecipeByName] logs the error that names the status,
    shows the message of a failed load and keeps the current recipe. *)
Lemma fetchByName_checks_status :
  recipeDisplay
    (after (fetchAndDisplayRecipeByName (VStr (js "Tea"))
              (Fulfilled failed_response_with_recipe)) (page_showing tea))
  = Some {| innerHTML := load_failed_message; save_listener := false |}
  /\ console
       (after (fetchAndDisplayRecipeByName (VStr (js "Tea"))
                 (Fulfilled failed_response_with_recipe)) (page_showing tea))
     = [ {| log_label := js "Error fetching recipe by name";
            log_error := Error (js "MealDB error: 500") |} ]
  /\ currentRecipe
       (after (fetchAndDisplayRecipeByName (VStr (js "Tea"))
                 (Fulfilled failed_response_with_recipe)) (page_showing tea))
     = tea.
Proof. repeat split; vm_compute; reflexivity. Qed.

(** * Further properties of the script *)

(** ** The ingredient list *)

Lemma for_indices_ext {A} (body1 body2 : nat -> A -> outcome A) :
  forall count first acc,
    (forall i a, first <= i < first + count -> body1 i a = body2 i a) ->
    for_indices body1 count first acc = for_indices body2 count first acc.
Proof.
  induction count as [|n IH]; intros first acc Hb; [reflexivity|].
  cbn [for_indices]. rewrite Hb by lia.
  destruct (body2 first acc) as [a|e]; [|reflexivity].
  cbn [obind]. apply IH. intros; apply Hb; lia.
Qed.

Lemma for_indices_throws {A} (body : nat -> A -> outcome A) (E : exn) :
  (forall i a e, body i a = Throw e -> e = E) ->
  forall count first acc e,
    for_indices body count first acc = Throw e -> e = E.
Proof.
  intros Hb. induction count as [|n IH]; intros first acc e; [discriminate|].
  cbn [for_indices]. destruct (body first acc) as [a|e'] eqn:Eb; cbn [obind].
  - apply IH.
  - intros [= <-]. eapply Hb; eassumption.
Qed.

(** X1. [getIngredientsHtml] reads the forty properties [strIngredient1..20]
    and [strMeasure1..20] and nothing else: two recipes that agree on them
    give the same result. *)
Theorem getIngredientsHtml_reads_its_slots (r1 r2 : value) :
  (forall i, 1 <= i <= 20 ->
     get_prop r1 (strIngredient i) = get_prop r2 (strIngredient i)
     /\ get_prop r1 (strMeasure i) = get_prop r2 (strMeasure i)) ->
  getIngredientsHtml r1 = getIngredientsHtml r2.
Proof.
  intros H. unfold getIngredientsHtml. apply for_indices_ext.
  intros i a Hi. destruct (H i ltac:(lia)) as [-> ->]. reflexivity.
Qed.

Lemma getIngredientsHtml_reads_its_slots_witness :
  getIngredientsHtml tea
  = getIngredientsHtml
      (VObj (tea_props ++ [ (js "strIngredient21", VStr (js "Salt"));
                            (js "strIngredient0", VStr (js "Sugar"));
                            (js "strIngredient01", VStr (js "Milk")) ])).
Proof.
  apply (getIngredientsHtml_reads_its_slots tea).
  intros i Hi.
  assert (Hin : In i (seq 1 20)) by (apply in_seq; lia).
  simpl in Hin.
  repeat (destruct Hin as [<-|Hin]; [split; reflexivity|]).
  contradiction.
Defined.

Lemma slot_of_a_primitive v i :
  match v with VObj _ | VUndefined | VNull => False | _ => True end ->
  get_prop v (strIngredient i) = Ok VUndefined
  /\ get_prop v (strMeasure i) = Ok VUndefined.
Proof.
  assert (Hk : forall c k, is_digit c = false -> index_of_key (c :: k) = None).
  { intros c k Hc. unfold index_of_key. cbn [digits_value]. now rewrite Hc. }
  destruct v; intros H; try contradiction; split; try reflexivity;
    unfold get_prop, get_own, strIngredient, strMeasure;
    cbn [js app map list_ascii_of_string str_eqb];
    match goal with
    | |- context [index_of_key (?c :: ?k)] =>
        rewrite (Hk c k eq_refl); reflexivity
    end.
Qed.

(** X2. On [null] and [undefined], [getIngredientsHtml] throws a [TypeError];
    on a value that is neither of them nor an object (a string, a number,
    a boolean, an array) it returns the empty string. *)
Theorem getIngredientsHtml_not_a_record :
  getIngredientsHtml VNull = Throw TypeError
  /\ getIngredientsHtml VUndefined = Throw TypeError
  /\ (forall b, getIngredientsHtml (VBool b) = Ok [])
  /\ (forall n, getIngredientsHtml (VNum n) = Ok [])
  /\ (forall s, getIngredientsHtml (VStr s) = Ok [])
  /\ (forall l, getIngredientsHtml (VArr l) = Ok []).
Proof.
  assert (H : forall v,
             match v with VObj _ | VUndefined | VNull => False | _ => True end ->
             getIngredientsHtml v = Ok []).
  { intros v Hv. unfold getIngredientsHtml.
    rewrite for_indices_select with (keep := fun _ => false) (item := fun _ => []).
    - reflexivity.
    - intros i a _. destruct (slot_of_a_primitive v i Hv) as [-> ->].
      reflexivity. }
  repeat split; try reflexivity; intros; apply H; exact I.
Qed.

(** ** Rendering a recipe *)

Lemma get_prop_TypeError v k e : get_prop v k = Throw e -> e = TypeError.
Proof. destruct v; cbn; congruence. Qed.

Lemma to_string_TypeError v e : to_string v = Throw e -> e = TypeError.
Proof. unfold to_string. destruct (stringable v); congruence. Qed.

Lemma measure_and_space_TypeError meas e :
  measure_and_space meas = Throw e -> e = TypeError.
Proof.
  unfold measure_and_space. destruct (truthy meas); [|discriminate].
  destruct (to_string meas) eqn:E; cbn [obind]; [discriminate|].
  intros [= <-]. eapply to_string_TypeError; eassumption.
Qed.

Lemma ing_and_trim_TypeError ing e : ing_and_trim ing = Throw e -> e = TypeError.
Proof.
  unfold ing_and_trim, call_trim. destruct (truthy ing); [|discriminate].
  destruct ing; congruence.
Qed.

Lemma call_replace_TypeError f v e : call_replace f v = Throw e -> e = TypeError.
Proof. destruct v; cbn; congruence. Qed.

Create HintDb type_errors.

#[local] Hint Resolve get_prop_TypeError to_string_TypeError
  measure_and_space_TypeError ing_and_trim_TypeError call_replace_TypeError
  : type_errors.

(** One step of a sequence that throws: the exception is the one of the
    step, or the one of what follows. *)
Ltac throwing_step :=
  match goal with
  | |- obind ?o _ = Throw _ -> _ =>
      let E := fresh "E" in
      destruct o eqn:E; cbn [obind];
      [|intros [= <-]; eauto with type_errors]
  end.

Lemma getIngredientsHtml_TypeError recipe e :
  getIngredientsHtml recipe = Throw e -> e = TypeError.
Proof.
  unfold getIngredientsHtml. apply for_indices_throws.
  intros i a e'. do 3 throwing_step.
  destruct (truthy _); [|discriminate].
  do 2 throwing_step. discriminate.
Qed.

#[local] Hint Resolve getIngredientsHtml_TypeError : type_errors.

Lemma recipe_html_TypeError recipe e :
  recipe_html recipe = Throw e -> e = TypeError.
Proof.
  unfold recipe_html. do 7 throwing_step. discriminate.
Qed.

(** [renderRecipe], run: the current recipe is replaced first, and the page
    is written only when the markup could be built and the display is
    there. *)
Lemma renderRecipe_run recipe st :
  renderRecipe recipe st
  = match recipe_html recipe with
    | Ok html =>
        match recipeDisplay st with
        | Some _ => (Ok tt, rendered recipe html st)
        | None => (Throw TypeError, with_current recipe st)
        end
    | Throw e => (Throw e, with_current recipe st)
    end.
Proof.
  unfold renderRecipe, recipe_html.
  cbv beta iota delta [bind lift set_currentRecipe].
  fold (with_current recipe st).
  destruct (get_prop recipe (js "strMeal")) as [m|e]; [|reflexivity].
  cbn [obind]. destruct (to_string m) as [m'|e]; [|reflexivity].
  cbn [obind].
  destruct (get_prop recipe (js "strMealThumb")) as [t|e]; [|reflexivity].
  cbn [obind]. destruct (to_string t) as [t''|e]; [|reflexivity].
  cbn [obind].
  destruct (getIngredientsHtml recipe) as [h|e]; [|reflexivity].
  destruct (get_prop recipe (js "strInstructions")) as [i|e]; [|reflexivity].
  cbn [obind].
  destruct (call_replace replace_crlf_br i) as [i'|e]; [|reflexivity].
  cbn [obind]. set (html := recipe_markup m t h i').
  unfold set_recipeDisplay_innerHTML, add_save_listener, rendered.
  destruct st as [c [d|] o t' sc sl ls k lg rq fb]; [|reflexivity].
  cbn [recipeDisplay put_recipeDisplay with_current set_currentRecipe snd
         innerHTML finds_save_btn].
  destruct (fb html); reflexivity.
Qed.

Lemma get_prop_of_record v k s k' :
  get_own v k = VStr s -> get_prop v k' = Ok (get_own v k').
Proof. destruct v; simpl; intros H; try discriminate; reflexivity. Qed.

Lemma recipe_html_Ok recipe html :
  recipe_html recipe = Ok html ->
  exists s, get_own recipe (js "strInstructions") = VStr s.
Proof.
  unfold recipe_html. intros H.
  repeat match type of H with
         | obind (call_replace _ _) _ = Ok _ => fail 1
         | obind ?o _ = Ok _ =>
             let E := fresh "E" in
             destruct o eqn:E; cbn [obind] in H; [|discriminate H]
         end.
  match goal with
  | E : get_prop recipe (js "strInstructions") = Ok ?a |- _ =>
      destruct a; try discriminate H;
      unfold get_prop in E; destruct recipe; try discriminate E;
      injection E as E; eexists; exact E
  end.
Qed.

Lemma recipe_html_of_record recipe items instr :
  stringable (get_own recipe (js "strMeal")) = true ->
  stringable (get_own recipe (js "strMealThumb")) = true ->
  getIngredientsHtml recipe = Ok items ->
  get_own recipe (js "strInstructions") = VStr instr ->
  recipe_html recipe
  = Ok (recipe_markup (get_own recipe (js "strMeal"))
          (get_own recipe (js "strMealThumb")) items
          (VStr (replace_crlf_br instr))).
Proof.
  intros Hm Ht Hi Hs. unfold recipe_html.
  rewrite !(get_prop_of_record _ _ _ _ Hs). cbn [obind].
  rewrite (to_string_stringable _ Hm), (to_string_stringable _ Ht), Hi, Hs.
  reflexivity.
Qed.

(** X3. A recipe whose name and picture address can be converted to a
    string, whose ingredient list can be built and whose instructions are a
    string is rendered on a page that has the display: it becomes the
    current recipe, the display holds the markup with every line break of
    the instructions turned into [<br>], and nothing else on the page
    changes. The listener of the save button is attached exactly when the
    lookup of the button in the new markup finds an element. *)
Theorem renderRecipe_renders (recipe : value) (items instr : jsstring)
        (d : Display) (st : State) :
  stringable (get_own recipe (js "strMeal")) = true ->
  stringable (get_own recipe (js "strMealThumb")) = true ->
  getIngredientsHtml recipe = Ok items ->
  get_own recipe (js "strInstructions") = VStr instr ->
  recipeDisplay st = Some d ->
  renderRecipe recipe st
  = (Ok tt,
     put_recipeDisplay
       {| innerHTML :=
            recipe_markup (get_own recipe (js "strMeal"))
              (get_own recipe (js "strMealThumb")) items
              (VStr (replace_crlf_br instr));
          save_listener :=
            finds_save_btn st
              (recipe_markup (get_own recipe (js "strMeal"))
                 (get_own recipe (js "strMealThumb")) items
                 (VStr (replace_crlf_br instr))) |}
       (with_current recipe st)).
Proof.
  intros Hm Ht Hi Hs Hd. rewrite renderRecipe_run.
  rewrite (recipe_html_of_record _ _ _ Hm Ht Hi Hs), Hd. reflexivity.
Qed.

Lemma renderRecipe_renders_witness :
  renderRecipe tea fresh_page
  = (Ok tt,
     put_recipeDisplay
       {| innerHTML :=
            recipe_markup (VStr (js "Tea")) (VStr (js "tea.jpg"))
              (js "<li>1 cup Water</li><li>Tea leaves</li>")
              (VStr (js "Boil water."));
          save_listener := true |}
       (with_current tea fresh_page)).
Proof.
  apply (renderRecipe_renders tea (js "<li>1 cup Water</li><li>Tea leaves</li>")
           (js "Boil water.") {| innerHTML := []; save_listener := false |}
           fresh_page); reflexivity.
Defined.

(** Where the lookup finds no button, the recipe is rendered and no
    listener is attached; and a recipe whose name cannot be converted is
    not rendered at all. *)
Example renderRecipe_without_listener :
  recipeDisplay (after (renderRecipe tea) page_losing_button)
  = Some {| innerHTML :=
              recipe_markup (VStr (js "Tea")) (VStr (js "tea.jpg"))
                (js "<li>1 cup Water</li><li>Tea leaves</li>")
                (VStr (js "Boil water."));
            save_listener := false |}
  /\ renderRecipe
       (VObj [ (js "strMeal", VObj [(js "toString", VNull)]);
               (js "strInstructions", VStr (js "Boil water.")) ])
       fresh_page
     = (Throw TypeError,
        with_current
          (VObj [ (js "strMeal", VObj [(js "toString", VNull)]);
                  (js "strInstructions", VStr (js "Boil water.")) ])
          fresh_page).
Proof. split; vm_compute; reflexivity. Qed.

Lemma renderRecipe_current recipe st :
  currentRecipe (after (renderRecipe recipe) st) = recipe.
Proof.
  unfold after. rewrite renderRecipe_run.
  destruct (recipe_html recipe); [destruct (recipeDisplay st)|]; reflexivity.
Qed.

(** X4. [renderRecipe] assigns [currentRecipe] before anything else: the
    recipe is the current one after every call, also after a call that
    throws. When the instructions are not a string, or the page has no
    display, the call throws a [TypeError] and that assignment is its only
    effect. *)
Theorem renderRecipe_sets_current_first (recipe : value) (st : State) :
  currentRecipe (after (renderRecipe recipe) st) = recipe
  /\ ((forall s, get_own recipe (js "strInstructions") <> VStr s)
      \/ recipeDisplay st = None ->
      renderRecipe recipe st = (Throw TypeError, with_current recipe st)).
Proof.
  split.
  - apply renderRecipe_current.
  - intros H. rewrite renderRecipe_run.
    destruct (recipe_html recipe) as [html|e] eqn:Eh.
    + destruct H as [H| ->]; [|reflexivity].
      destruct (recipe_html_Ok _ _ Eh) as [s Hs]. destruct (H s Hs).
    + now rewrite (recipe_html_TypeError _ _ Eh).
Qed.

Lemma renderRecipe_sets_current_first_witness :
  renderRecipe bare_recipe fresh_page
  = (Throw TypeError, with_current bare_recipe fresh_page).
Proof.
  apply (proj2 (renderRecipe_sets_current_first bare_recipe fresh_page)).
  left. intros s H. vm_compute in H. discriminate H.
Defined.

Lemma renderRecipe_storage recipe st :
  localStorage (after (renderRecipe recipe) st) = localStorage st.
Proof.
  unfold after. rewrite renderRecipe_run.
  destruct (recipe_html recipe); [destruct (recipeDisplay st)|]; reflexivity.
Qed.

(** ** The save button *)

(** X5. A click on the save button when there is no current recipe, or
    when its [strMeal] is falsy (absent, empty), appends the hint to the
    display and does nothing else: the store is not read, nothing is
    written. *)
Theorem saveClick_without_name (d : Display) (st : State) :
  truthy (currentRecipe st) = false
  \/ truthy (get_own (currentRecipe st) (js "strMeal")) = false ->
  recipeDisplay st = Some d ->
  saveClick st
  = (Ok tt,
     put_recipeDisplay
       {| innerHTML := innerHTML d ++ save_first_message;
          save_listener := save_listener d |} st).
Proof.
  intros H Hd. unfold saveClick, bind, get_state.
  assert (Hc : negb (truthy (currentRecipe st))
               || negb (truthy (get_own (currentRecipe st) (js "strMeal")))
               = true).
  { destruct H as [-> | ->]; [reflexivity|apply orb_true_r]. }
  rewrite Hc. unfold recipeDisplay_insert_beforeend. rewrite Hd. reflexivity.
Qed.

Lemma saveClick_without_name_witness :
  saveClick (after (renderRecipe (VObj [(js "strInstructions", VStr (js "Boil."))]))
               fresh_page)
  = (Ok tt,
     put_recipeDisplay
       {| innerHTML :=
            recipe_markup VUndefined VUndefined [] (VStr (js "Boil."))
            ++ save_first_message;
          save_listener := true |}
       (after (renderRecipe (VObj [(js "strInstructions", VStr (js "Boil."))]))
          fresh_page)).
Proof.
  apply (saveClick_without_name
           {| innerHTML := recipe_markup VUndefined VUndefined []
                             (VStr (js "Boil."));
              save_listener := true |}).
  - right. reflexivity.
  - reflexivity.
Defined.

Lemma includes_name (n : jsstring) (names : list jsstring) :
  existsb (strict_equal (VStr n)) (map VStr names) = true <-> In n names.
Proof.
  induction names as [|x r IH]; simpl.
  - split; [discriminate|contradiction].
  - rewrite orb_true_iff, IH. split.
    + intros [H|H]; [left; symmetry; now apply str_eqb_eq|now right].
    + intros [<-|H]; [left; apply str_eqb_refl|now right].
Qed.

Lemma excludes_name (n : jsstring) (names : list jsstring) :
  ~ In n names -> existsb (strict_equal (VStr n)) (map VStr names) = false.
Proof.
  intros H. destruct (existsb _ _) eqn:E; [|reflexivity].
  apply includes_name in E. contradiction.
Qed.

Lemma saveClick_named st n :
  get_own (currentRecipe st) (js "strMeal") = VStr n -> n <> [] ->
  saveClick st = saveRecipeName (VStr n) st.
Proof.
  intros H Hn. unfold saveClick, bind, get_state. rewrite H.
  assert (Ht : truthy (currentRecipe st) = true).
  { destruct (currentRecipe st); try discriminate H; try reflexivity;
      vm_compute in H; discriminate H. }
  rewrite Ht. destruct n; [contradiction|reflexivity].
Qed.

(** X6. Render, then save: after a call of [renderRecipe] that returned, a
    click on the save button stores the name of the rendered recipe. With
    a saved list of names that lacks the (non-empty) name and a store that
    accepts the write, the saved list is the old one with the name at its
    end; with a saved list that has the name, the click changes nothing. *)
Theorem save_after_render (recipe : value) (n : jsstring)
        (names : list jsstring) (st : State) :
  result (renderRecipe recipe) st = Ok tt ->
  get_own recipe (js "strMeal") = VStr n -> n <> [] ->
  persisted (localStorage st) = VArr (map VStr names) ->
  (In n names ->
   saveClick (after (renderRecipe recipe) st)
   = (Ok tt, after (renderRecipe recipe) st))
  /\ (~ In n names ->
      store_accepts (localStorage st) (VArr (map VStr (names ++ [n]))) ->
      result getSavedRecipes (after saveClick (after (renderRecipe recipe) st))
      = Ok (VArr (map VStr (names ++ [n])))).
Proof.
  intros _ Hm Hn Hp.
  pose proof (renderRecipe_current recipe st) as Hc.
  pose proof (renderRecipe_storage recipe st) as Hs.
  set (st1 := after (renderRecipe recipe) st) in *.
  assert (Hk : saveClick st1 = saveRecipeName (VStr n) st1).
  { apply saveClick_named; [now rewrite Hc|assumption]. }
  split.
  - intros Hin. rewrite Hk.
    apply saveRecipeName_present with (l := map VStr names).
    + rewrite getSavedRecipes_result, Hs, Hp. reflexivity.
    + now apply includes_name.
  - intros Hin Ha. unfold after at 1. rewrite Hk.
    rewrite getSavedRecipes_result. fold (after (saveRecipeName (VStr n)) st1).
    rewrite (saveRecipeName_appends st1 names n).
    + now rewrite persisted_stored.
    + now rewrite Hs.
    + now apply excludes_name.
    + now rewrite Hs.
Qed.

Lemma save_after_render_witness :
  result getSavedRecipes (after saveClick (after (renderRecipe tea) fresh_page))
  = Ok (VArr (map VStr ([] ++ [js "Tea"]))).
Proof.
  apply (proj2 (save_after_render tea (js "Tea") [] fresh_page
                  ltac:(reflexivity) ltac:(reflexivity) ltac:(discriminate)
                  ltac:(reflexivity))).
  - simpl. intros H. exact H.
  - split; [reflexivity|vm_compute; discriminate].
Defined.

(** ** The saved list in the store *)

Lemma JSON_parse_SyntaxError raw e : JSON_parse raw = Throw e -> e = SyntaxError.
Proof.
  unfold JSON_parse.
  destruct (parse_value _ _) as [v rest| |]; try (intros [= <-]; reflexivity).
  destruct (skip_ws rest); [discriminate|intros [= <-]; reflexivity].
Qed.

(** X7. [getSavedRecipes] changes nothing but the console, and writes to
    it only when the read failed: with a store that can be read and holds
    nothing, the empty string or a JSON text, the state is left as it was;
    with a store that cannot be read, or a text that is not JSON, exactly
    one entry is logged ([SecurityError], [SyntaxError]) and the empty list
    is returned. *)
Theorem getSavedRecipes_logs_failures (st : State) :
  (available (localStorage st) = true ->
   (forall raw, slot (localStorage st) = Some raw ->
                raw = [] \/ exists v, JSON_parse raw = Ok v) ->
   getSavedRecipes st = (Ok (persisted (localStorage st)), st))
  /\ (available (localStorage st) = false ->
      getSavedRecipes st
      = (Ok (VArr []), logged read_error_label SecurityError st))
  /\ (forall raw e,
        available (localStorage st) = true ->
        slot (localStorage st) = Some raw -> raw <> [] ->
        JSON_parse raw = Throw e ->
        getSavedRecipes st
        = (Ok (VArr []), logged read_error_label SyntaxError st)).
Proof.
  unfold getSavedRecipes, try_catch, bind, localStorage_getItem, persisted,
    lift, ret, logged, read_error_label.
  split; [|split].
  - intros Ha Hs. rewrite Ha.
    destruct (slot (localStorage st)) as [[|c raw]|]; try reflexivity.
    cbn [truthy ToString].
    destruct (Hs (c :: raw) eq_refl) as [H|[v H]]; [discriminate|].
    now rewrite H.
  - intros ->. reflexivity.
  - intros raw e Ha Hs Hr He. rewrite Ha, Hs.
    destruct raw as [|c raw]; [contradiction|]. cbn [truthy ToString].
    rewrite He. now rewrite (JSON_parse_SyntaxError _ _ He).
Qed.

Lemma getSavedRecipes_logs_failures_witness :
  getSavedRecipes (page_storing (jsq "['Tea']"))
  = (Ok (persisted (localStorage (page_storing (jsq "['Tea']")))),
     page_storing (jsq "['Tea']"))
  /\ getSavedRecipes (page_storing (js "[oops"))
     = (Ok (VArr []),
        logged read_error_label SyntaxError (page_storing (js "[oops"))).
Proof.
  split.
  - apply (proj1 (getSavedRecipes_logs_failures (page_storing (jsq "['Tea']"))));
      [reflexivity|].
    intros raw [= <-]. right. eexists. vm_compute. reflexivity.
  - apply (proj2 (proj2 (getSavedRecipes_logs_failures (page_storing (js "[oops"))))
             (js "[oops") SyntaxError); try reflexivity.
    discriminate.
Defined.

Lemma setSavedRecipes_run list st :
  setSavedRecipes list st
  = (Ok tt,
     if available (localStorage st) then
       if (N.of_nat (length (string_of_json (JSON_stringify list)))
           <=? capacity (localStorage st))%N
       then put_localStorage (stored (localStorage st) list) st
       else logged save_error_label QuotaExceededError st
     else logged save_error_label SecurityError st).
Proof.
  unfold setSavedRecipes, try_catch, localStorage_setItem.
  destruct (available (localStorage st)); [|reflexivity].
  destruct (_ <=? _)%N; reflexivity.
Qed.

Lemma store_accepts_dec ls list :
  {store_accepts ls list} + {~ store_accepts ls list}.
Proof.
  unfold store_accepts.
  destruct (available ls); [|right; intros [H _]; discriminate].
  destruct (N.of_nat (length (string_of_json (JSON_stringify list)))
            <=? capacity ls)%N eqn:E.
  - left. split; [reflexivity|now apply N.leb_le].
  - right. intros [_ H']. apply N.leb_le in H'. congruence.
Qed.

(** X8. Write, then read: after [setSavedRecipes] wrote a list of names
    to a store that accepts it, [getSavedRecipes] returns that list and
    leaves the state as it is (nothing is logged). *)
Theorem setSavedRecipes_then_get (names : list jsstring) (st : State) :
  store_accepts (localStorage st) (VArr (map VStr names)) ->
  getSavedRecipes (snd (setSavedRecipes (VArr (map VStr names)) st))
  = (Ok (VArr (map VStr names)),
     put_localStorage (stored (localStorage st) (VArr (map VStr names))) st).
Proof.
  intros Ha. rewrite (setSavedRecipes_accepted _ _ Ha). cbn [snd].
  pose proof (JsonRoundTrip.JSON_parse_stringify_strings names) as Hr.
  destruct (string_of_json (JSON_stringify (VArr (map VStr names))))
    as [|c raw] eqn:Es; [vm_compute in Hr; discriminate Hr|].
  apply (getSavedRecipes_quiet _ c raw); [reflexivity| |exact Hr].
  change (Some (string_of_json (JSON_stringify (VArr (map VStr names))))
          = Some (c :: raw)).
  now rewrite Es.
Qed.

Lemma setSavedRecipes_then_get_witness :
  getSavedRecipes
    (snd (setSavedRecipes (VArr (map VStr [js "Tea"; js "Lasagne"])) fresh_page))
  = (Ok (VArr (map VStr [js "Tea"; js "Lasagne"])),
     put_localStorage
       (stored (localStorage fresh_page)
          (VArr (map VStr [js "Tea"; js "Lasagne"]))) fresh_page).
Proof.
  apply (setSavedRecipes_then_get [js "Tea"; js "Lasagne"] fresh_page).
  split; [reflexivity|vm_compute; discriminate].
Defined.

(** X9. [setSavedRecipes] never throws. A write that the store rejects
    leaves the page as it was, the store included, except for one console
    entry: [SecurityError] when the store cannot be reached,
    [QuotaExceededError] when the text does not fit. *)
Theorem setSavedRecipes_rejected_write (list : value) (st : State) :
  ~ store_accepts (localStorage st) list ->
  setSavedRecipes list st
  = (Ok tt,
     logged save_error_label
       (if available (localStorage st) then QuotaExceededError
        else SecurityError) st).
Proof.
  intros Hn. rewrite setSavedRecipes_run.
  destruct (available (localStorage st)) eqn:Ea; [|reflexivity].
  destruct (N.leb_spec (N.of_nat (length (string_of_json (JSON_stringify list))))
              (capacity (localStorage st))); [|reflexivity].
  destruct Hn. now split.
Qed.

Lemma setSavedRecipes_rejected_write_witness :
  setSavedRecipes (VArr [VStr (js "Tea")]) full_page
  = (Ok tt, logged save_error_label QuotaExceededError full_page).
Proof.
  apply (setSavedRecipes_rejected_write (VArr [VStr (js "Tea")]) full_page).
  intros [_ H]. vm_compute in H. apply H. reflexivity.
Defined.

Lemma setSavedRecipes_elements list st :
  savedContainer (snd (setSavedRecipes list st)) = savedContainer st
  /\ savedList (snd (setSavedRecipes list st)) = savedList st.
Proof.
  rewrite setSavedRecipes_run. cbn [snd].
  destruct (available (localStorage st)); [destruct (_ <=? _)%N|]; split;
    reflexivity.
Qed.

Lemma map_VStr_snoc names n :
  map VStr names ++ [VStr n] = map VStr (names ++ [n]).
Proof. now rewrite map_app. Qed.

Lemma saveRecipeName_run name st l :
  persisted (localStorage st) = VArr l ->
  existsb (strict_equal name) l = false ->
  saveRecipeName name st
  = renderSavedRecipesList
      (snd (setSavedRecipes (VArr (l ++ [name])) (after getSavedRecipes st))).
Proof.
  intros Hp Hin. unfold saveRecipeName. unfold bind at 1.
  rewrite getSavedRecipes_pair, Hp.
  unfold bind at 1. cbn [lift call_includes]. rewrite Hin. cbn [negb].
  unfold bind at 1. cbn [lift call_push]. unfold bind at 1.
  pose proof (setSavedRecipes_result (VArr (l ++ [name]))
                (after getSavedRecipes st)) as Hr.
  destruct (setSavedRecipes _ (after getSavedRecipes st)) as [o st1].
  cbn [fst snd] in *. now subst o.
Qed.

Lemma deleteSavedRecipe_run name st l :
  persisted (localStorage st) = VArr l ->
  deleteSavedRecipe name st
  = renderSavedRecipesList
      (snd (setSavedRecipes
              (VArr (filter (fun n => negb (strict_equal n name)) l))
              (after getSavedRecipes st))).
Proof.
  intros Hp. unfold deleteSavedRecipe. unfold bind at 1.
  rewrite getSavedRecipes_pair, Hp.
  unfold bind at 1. cbn [lift call_filter_neq]. unfold bind at 1.
  pose proof (setSavedRecipes_result
                (VArr (filter (fun n => negb (strict_equal n name)) l))
                (after getSavedRecipes st)) as Hr.
  destruct (setSavedRecipes _ (after getSavedRecipes st)) as [o st1].
  cbn [fst snd] in *. now subst o.
Qed.

(** Writing a list of names and rendering: the region shows the list that
    the store holds afterwards, the new one when the store took it and the
    old one when it did not. *)
Lemma write_and_render (names old : list jsstring) c items st :
  persisted (localStorage st) = VArr (map VStr old) ->
  savedContainer st = Some c -> savedList st = Some items ->
  (store_accepts (localStorage st) (VArr (map VStr names)) ->
   shows_saved
     (after renderSavedRecipesList
        (snd (setSavedRecipes (VArr (map VStr names)) (after getSavedRecipes st))))
     names)
  /\ (~ store_accepts (localStorage st) (VArr (map VStr names)) ->
      shows_saved
        (after renderSavedRecipesList
           (snd (setSavedRecipes (VArr (map VStr names))
                   (after getSavedRecipes st))))
        old).
Proof.
  intros Hp Hc Hs.
  destruct (getSavedRecipes_after st) as (_ & _ & _ & _ & Hc0 & Hs0 & Hl0 & _).
  set (st0 := after getSavedRecipes st) in *.
  destruct (setSavedRecipes_elements (VArr (map VStr names)) st0) as [Hc2 Hs2].
  assert (Hshow : forall shown,
             persisted (localStorage
                          (snd (setSavedRecipes (VArr (map VStr names)) st0)))
             = VArr (map VStr shown) ->
             shows_saved
               (after renderSavedRecipesList
                  (snd (setSavedRecipes (VArr (map VStr names)) st0))) shown).
  { set (st2 := snd (setSavedRecipes (VArr (map VStr names)) st0)) in *.
    intros shown Hp2.
    destruct (getSavedRecipes_after st2) as (_ & _ & _ & _ & _ & _ & Hl2 & _).
    unfold after at 1.
    rewrite (renderSavedRecipesList_array st2 (map VStr shown) c items Hp2
               (has_text_strings shown))
      by congruence.
    unfold shows_saved. cbn [snd put_savedList set_savedContainer_display
                               localStorage savedList savedContainer].
    rewrite Hl2, Hp2. destruct shown; repeat split; reflexivity. }
  split; intros Ha; apply Hshow.
  - rewrite setSavedRecipes_accepted by (now rewrite Hl0).
    cbn [snd put_localStorage localStorage]. apply persisted_stored.
  - rewrite setSavedRecipes_rejected by (now rewrite Hl0).
    now rewrite Hl0.
Qed.

(** X10. The saved-recipes region follows the store. On a page that has
    the region and a saved list of names, after [deleteSavedRecipe], and
    after [saveRecipeName] with a name the list lacks, the region shows
    one item per name that the store then holds and is hidden exactly when
    there is none: the changed list when the store took the write, the old
    list when it did not. *)
Theorem saved_region_follows_store (names : list jsstring) (c : jsstring)
        (items : list LiElement) (st : State) :
  persisted (localStorage st) = VArr (map VStr names) ->
  savedContainer st = Some c ->
  savedList st = Some items ->
  (forall name,
      (store_accepts (localStorage st) (VArr (map VStr (without name names))) ->
       shows_saved (after (deleteSavedRecipe name) st) (without name names))
      /\ (~ store_accepts (localStorage st)
            (VArr (map VStr (without name names))) ->
          shows_saved (after (deleteSavedRecipe name) st) names))
  /\ (forall n,
        ~ In n names ->
        (store_accepts (localStorage st) (VArr (map VStr (names ++ [n]))) ->
         shows_saved (after (saveRecipeName (VStr n)) st) (names ++ [n]))
        /\ (~ store_accepts (localStorage st) (VArr (map VStr (names ++ [n]))) ->
            shows_saved (after (saveRecipeName (VStr n)) st) names)).
Proof.
  intros Hp Hc Hs. split.
  - intros name. unfold after at 1 2.
    rewrite (deleteSavedRecipe_run name st _ Hp), filter_strings.
    apply (write_and_render (without name names) names c items st Hp Hc Hs).
  - intros n Hn. unfold after at 1 2.
    rewrite (saveRecipeName_run (VStr n) st _ Hp (excludes_name _ _ Hn)).
    rewrite map_VStr_snoc.
    apply (write_and_render (names ++ [n]) names c items st Hp Hc Hs).
Qed.

Lemma saved_region_follows_store_witness :
  shows_saved
    (after (deleteSavedRecipe (VStr (js "Tea")))
       (page_storing (jsq "['Tea','Lasagne']")))
    (without (VStr (js "Tea")) [js "Tea"; js "Lasagne"]).
Proof.
  apply (proj1 (proj1 (saved_region_follows_store [js "Tea"; js "Lasagne"] []
                         [] (page_storing (jsq "['Tea','Lasagne']"))
                         ltac:(vm_compute; reflexivity) ltac:(reflexivity)
                         ltac:(reflexivity))
                  (VStr (js "Tea")))).
  split; [reflexivity|vm_compute; discriminate].
Defined.

Lemma without_NoDup name names : NoDup names -> NoDup (without name names).
Proof. apply NoDup_filter. Qed.

Lemma snoc_NoDup (n : jsstring) names :
  NoDup names -> ~ In n names -> NoDup (names ++ [n]).
Proof.
  intros Hd Hn. apply NoDup_app; [assumption|repeat constructor; intros []|].
  intros a Ha [<-|[]]. contradiction.
Qed.

(** X11. No name is saved twice. If the saved list is a list of pairwise
    distinct names, it still is one after [saveRecipeName] of any name and
    after [deleteSavedRecipe] of any value, whether or not the store took
    the write. *)
Theorem saved_names_stay_distinct (names : list jsstring) (st : State) :
  persisted (localStorage st) = VArr (map VStr names) ->
  distinct_names names ->
  (forall n, exists names',
      persisted (localStorage (after (saveRecipeName (VStr n)) st))
      = VArr (map VStr names')
      /\ distinct_names names')
  /\ (forall name, exists names',
        persisted (localStorage (after (deleteSavedRecipe name) st))
        = VArr (map VStr names')
        /\ distinct_names names').
Proof.
  intros Hp Hd.
  destruct (getSavedRecipes_after st) as (_ & _ & _ & _ & _ & _ & Hl0 & _).
  assert (Hw : forall new,
             NoDup new ->
             exists names',
               persisted (localStorage
                            (snd (setSavedRecipes (VArr (map VStr new))
                                    (after getSavedRecipes st))))
               = VArr (map VStr names') /\ distinct_names names').
  { intros new Hnew.
    destruct (setSavedRecipes_storage (VArr (map VStr new))
                (after getSavedRecipes st)) as [-> | ->].
    - exists new. split; [apply persisted_stored|exact Hnew].
    - exists names. rewrite Hl0. now split. }
  split.
  - intros n.
    destruct (in_dec (list_eq_dec N.eq_dec) n names) as [Hin|Hin].
    + exists names. split; [|exact Hd]. unfold after.
      rewrite (saveRecipeName_present (VStr n) st (map VStr names)).
      * exact Hp.
      * rewrite getSavedRecipes_result. now rewrite Hp.
      * now apply includes_name.
    + rewrite (saveRecipeName_storage (VStr n) st _ Hp (excludes_name _ _ Hin)).
      rewrite map_VStr_snoc. apply Hw. now apply snoc_NoDup.
  - intros name. rewrite (deleteSavedRecipe_storage name st _ Hp).
    rewrite filter_strings. apply Hw. now apply without_NoDup.
Qed.

Lemma saved_names_stay_distinct_witness :
  exists names',
    persisted (localStorage
                 (after (saveRecipeName (VStr (js "Soup")))
                    (page_storing (jsq "['Tea','Lasagne']"))))
    = VArr (map VStr names')
    /\ distinct_names names'.
Proof.
  apply (proj1 (saved_names_stay_distinct [js "Tea"; js "Lasagne"]
                  (page_storing (jsq "['Tea','Lasagne']"))
                  ltac:(vm_compute; reflexivity)
                  ltac:(repeat constructor; simpl; intuition discriminate))
           (js "Soup")).
Defined.

Lemma join_snoc_length (sep : jsstring) (l : list jsstring) (x : jsstring) :
  length (join sep l) <= length (join sep (l ++ [x])).
Proof.
  induction l as [|p [|q r] IH].
  - simpl. lia.
  - simpl. rewrite !length_app. lia.
  - change (length (p ++ sep ++ join sep (q :: r))
            <= length (p ++ sep ++ join sep ((q :: r) ++ [x]))).
    rewrite !length_app. lia.
Qed.

Lemma store_accepts_shorter ls (names : list jsstring) n :
  store_accepts ls (VArr (map VStr (names ++ [n]))) ->
  store_accepts ls (VArr (map VStr names)).
Proof.
  unfold store_accepts. intros [Ha Hc]. split; [assumption|].
  rewrite JsonRoundTrip.JSON_stringify_strings in *. cbn [string_of_json] in *.
  assert (length (wrap [] [] [] 91%N 93%N (map quote names))
          <= length (wrap [] [] [] 91%N 93%N (map quote (names ++ [n]))));
    [|lia].
  rewrite map_app. cbn [map]. unfold wrap.
  pose proof (join_snoc_length (js ",") (map quote names) (quote n)) as Hj.
  destruct (map quote names) as [|p r] eqn:E.
  - simpl. lia.
  - destruct ((p :: r) ++ [quote n]) eqn:E'; [discriminate|].
    cbn [length]. rewrite !length_app. cbn [length]. lia.
Qed.

Lemma without_snoc (n : jsstring) names :
  ~ In n names -> without (VStr n) (names ++ [n]) = names.
Proof.
  intros Hn. unfold without. rewrite filter_app. cbn [filter strict_equal].
  rewrite str_eqb_refl. cbn [negb]. rewrite app_nil_r.
  induction names as [|x r IH]; [reflexivity|].
  cbn [filter strict_equal].
  destruct (str_eqb_spec x n) as [->|Hx].
  - destruct Hn. now left.
  - cbn [negb]. f_equal. apply IH. intros H. apply Hn. now right.
Qed.

(** X12. Save, then delete: on a saved list of names that lacks [n], and a
    store that accepts the list with [n], saving [n] and then deleting it
    leaves the store holding the old list again. *)
Theorem save_then_delete (names : list jsstring) (n : jsstring) (st : State) :
  persisted (localStorage st) = VArr (map VStr names) ->
  ~ In n names ->
  store_accepts (localStorage st) (VArr (map VStr (names ++ [n]))) ->
  localStorage
    (after (deleteSavedRecipe (VStr n)) (after (saveRecipeName (VStr n)) st))
  = stored (localStorage st) (VArr (map VStr names))
  /\ result getSavedRecipes
       (after (deleteSavedRecipe (VStr n)) (after (saveRecipeName (VStr n)) st))
     = Ok (VArr (map VStr names)).
Proof.
  intros Hp Hn Ha.
  pose proof (saveRecipeName_appends st names n Hp (excludes_name _ _ Hn) Ha)
    as Hs1.
  set (st1 := after (saveRecipeName (VStr n)) st) in *.
  assert (Hp1 : persisted (localStorage st1) = VArr (map VStr (names ++ [n])))
    by (rewrite Hs1; apply persisted_stored).
  destruct (getSavedRecipes_after st1) as (_ & _ & _ & _ & _ & _ & Hl1 & _).
  assert (Hl : localStorage (after (deleteSavedRecipe (VStr n)) st1)
               = stored (localStorage st) (VArr (map VStr names))).
  { rewrite (deleteSavedRecipe_storage (VStr n) st1 _ Hp1), filter_strings.
    fold (without (VStr n) (names ++ [n])). rewrite (without_snoc n names Hn).
    rewrite setSavedRecipes_accepted.
    - cbn [snd put_localStorage localStorage]. rewrite Hl1, Hs1. reflexivity.
    - rewrite Hl1, Hs1. apply store_accepts_shorter in Ha.
      destruct Ha as [Ha Hc]. split; [reflexivity|exact Hc]. }
  split; [exact Hl|].
  rewrite getSavedRecipes_result, Hl. now rewrite persisted_stored.
Qed.

Lemma save_then_delete_witness :
  localStorage
    (after (deleteSavedRecipe (VStr (js "Soup")))
       (after (saveRecipeName (VStr (js "Soup")))
          (page_storing (jsq "['Tea','Lasagne']"))))
  = stored (localStorage (page_storing (jsq "['Tea','Lasagne']")))
      (VArr (map VStr [js "Tea"; js "Lasagne"]))
  /\ result getSavedRecipes
       (after (deleteSavedRecipe (VStr (js "Soup")))
          (after (saveRecipeName (VStr (js "Soup")))
             (page_storing (jsq "['Tea','Lasagne']"))))
     = Ok (VArr (map VStr [js "Tea"; js "Lasagne"])).
Proof.
  apply (save_then_delete [js "Tea"; js "Lasagne"] (js "Soup")
           (page_storing (jsq "['Tea','Lasagne']"))).
  - vm_compute. reflexivity.
  - simpl. intuition discriminate.
  - split; [reflexivity|vm_compute; discriminate].
Defined.

(** X13. A saved value that is not a list is never overwritten. When the
    store holds a JSON text that is not an array ([null], a number, an
    object, a string), [deleteSavedRecipe] throws a [TypeError] and
    [saveRecipeName] throws one too, unless the value is a string that
    contains the name, in which case it returns; in every case the store
    is left as it was. *)
Theorem saved_value_not_a_list (name : value) (st : State) :
  (forall l, persisted (localStorage st) <> VArr l) ->
  result (deleteSavedRecipe name) st = Throw TypeError
  /\ localStorage (after (deleteSavedRecipe name) st) = localStorage st
  /\ localStorage (after (saveRecipeName name) st) = localStorage st
  /\ (result (saveRecipeName name) st = Throw TypeError
      \/ exists s, persisted (localStorage st) = VStr s
                   /\ is_infix (ToString name) s = true
                   /\ result (saveRecipeName name) st = Ok tt).
Proof.
  intros Hn.
  destruct (getSavedRecipes_after st) as (_ & _ & _ & _ & _ & _ & Hl0 & _).
  assert (Hd : deleteSavedRecipe name st
               = match call_filter_neq (persisted (localStorage st)) name with
                 | Ok filtered =>
                     bind (setSavedRecipes filtered)
                       (fun _ => renderSavedRecipesList) (after getSavedRecipes st)
                 | Throw e => (Throw e, after getSavedRecipes st)
                 end).
  { unfold deleteSavedRecipe. unfold bind at 1. rewrite getSavedRecipes_pair.
    unfold bind at 1, lift. destruct (call_filter_neq _ _); reflexivity. }
  assert (Hs : saveRecipeName name st
               = match call_includes (persisted (localStorage st)) name with
                 | Ok true => (Ok tt, after getSavedRecipes st)
                 | Ok false =>
                     match call_push (persisted (localStorage st)) name with
                     | Ok list' =>
                         bind (setSavedRecipes list')
                           (fun _ => renderSavedRecipesList)
                           (after getSavedRecipes st)
                     | Throw e => (Throw e, after getSavedRecipes st)
                     end
                 | Throw e => (Throw e, after getSavedRecipes st)
                 end).
  { unfold saveRecipeName. unfold bind at 1. rewrite getSavedRecipes_pair.
    unfold bind at 1, lift at 1.
    destruct (call_includes _ _) as [[|]|]; reflexivity. }
  unfold result, after. rewrite Hd.
  set (R := saveRecipeName name st) in *. clearbody R. subst R. clear Hd.
  destruct (persisted (localStorage st)) as [| | | |s|l|props] eqn:Ep.
  6: destruct (Hn l eq_refl).
  5: { cbn [call_filter_neq call_includes call_push fst snd].
       unfold to_string.
       destruct (stringable name); cbn [obind fst snd];
         [|repeat split; try exact Hl0; left; reflexivity].
       destruct (is_infix (ToString name) s) eqn:Ei.
       - repeat split; try exact Hl0. right. exists s.
         repeat split; try reflexivity; exact Ei.
       - repeat split; try exact Hl0. left. reflexivity. }
  all: repeat split; try exact Hl0; left; reflexivity.
Qed.

Lemma saved_value_not_a_list_witness :
  result (deleteSavedRecipe (VStr (js "Tea"))) (page_storing (js "null"))
  = Throw TypeError
  /\ localStorage (after (deleteSavedRecipe (VStr (js "Tea")))
                     (page_storing (js "null")))
     = localStorage (page_storing (js "null"))
  /\ localStorage (after (saveRecipeName (VStr (js "Tea")))
                     (page_storing (js "null")))
     = localStorage (page_storing (js "null"))
  /\ (result (saveRecipeName (VStr (js "Tea"))) (page_storing (js "null"))
      = Throw TypeError
      \/ exists s, persisted (localStorage (page_storing (js "null"))) = VStr s
                   /\ is_infix (ToString (VStr (js "Tea"))) s = true
                   /\ result (saveRecipeName (VStr (js "Tea")))
                        (page_storing (js "null")) = Ok tt).
Proof.
  apply (saved_value_not_a_list (VStr (js "Tea")) (page_storing (js "null"))).
  intros l H. vm_compute in H. discriminate H.
Defined.

(** ** The saved-recipes region *)

(** X14. On a page that lacks the container or the list element,
    [renderSavedRecipesList] reads the saved value and returns: the state
    is the one that [getSavedRecipes] leaves, whatever the saved value
    is. *)
Theorem renderSavedRecipesList_without_region (st : State) :
  savedContainer st = None \/ savedList st = None ->
  renderSavedRecipesList st = (Ok tt, after getSavedRecipes st).
Proof.
  intros H.
  destruct (getSavedRecipes_after st) as (_ & _ & _ & _ & Hc0 & Hs0 & _).
  unfold renderSavedRecipesList. unfold bind at 1.
  rewrite getSavedRecipes_pair. unfold bind at 1, get_state at 1.
  rewrite Hc0, Hs0.
  destruct H as [-> | ->]; [reflexivity|].
  destruct (savedContainer st); reflexivity.
Qed.

Lemma renderSavedRecipesList_without_region_witness :
  renderSavedRecipesList page_without_list
  = (Ok tt, after getSavedRecipes page_without_list).
Proof.
  apply (renderSavedRecipesList_without_region page_without_list).
  right. reflexivity.
Defined.

Lemma renderSavedRecipesList_result st c items :
  savedContainer st = Some c -> savedList st = Some items ->
  result renderSavedRecipesList st
  = match persisted (localStorage st) with
    | VArr l => if forallb has_text l then Ok tt else Throw TypeError
    | VUndefined | VNull => Throw TypeError
    | v =>
        if strict_equal (get_own v (js "length")) (VNum (number_of_nat 0))
        then Ok tt else Throw TypeError
    end.
Proof.
  intros Hc Hs.
  destruct (persisted (localStorage st)) as [| |b|x|s|l|props] eqn:Ep.
  7: { destruct (getSavedRecipes_after st) as (_ & _ & _ & _ & Hc0 & Hs0 & _).
       unfold result, renderSavedRecipesList. unfold bind at 1.
       rewrite getSavedRecipes_pair, Ep. unfold bind at 1, get_state at 1.
       rewrite Hc0, Hc, Hs0, Hs. unfold bind at 1, lift at 1. cbn [get_prop].
       destruct (strict_equal _ _); reflexivity. }
  6: exact (renderSavedRecipesList_array_result st l c items Ep Hc Hs).
  all: destruct (getSavedRecipes_after st) as (_ & _ & _ & _ & Hc0 & Hs0 & _);
    unfold result, renderSavedRecipesList; unfold bind at 1;
    rewrite getSavedRecipes_pair, Ep; unfold bind at 1, get_state at 1;
    rewrite Hc0, Hc, Hs0, Hs; unfold bind at 1, lift at 1; cbn [get_prop];
    try reflexivity;
    destruct (strict_equal _ _); reflexivity.
Qed.

(** X15. The call at start-up. On a page that has the saved-recipes
    region, [loadSavedRecipesOnStart] returns exactly when the saved value
    is an array of names whose text can be set (every string is one), or
    has a [length] that is strictly equal to [0]; on every other saved
    value, such as the stored text [null] or an array that holds an object
    with a [toString] of its own, it throws a [TypeError]. *)
Theorem loadSavedRecipesOnStart_returns (c : jsstring) (items : list LiElement)
        (st : State) :
  savedContainer st = Some c ->
  savedList st = Some items ->
  (result loadSavedRecipesOnStart st = Ok tt
   \/ result loadSavedRecipesOnStart st = Throw TypeError)
  /\ (result loadSavedRecipesOnStart st = Ok tt
      <-> (exists l, persisted (localStorage st) = VArr l
                     /\ forallb has_text l = true)
          \/ exists len,
               get_prop (persisted (localStorage st)) (js "length") = Ok len
               /\ strict_equal len (VNum (number_of_nat 0)) = true)
  /\ (forall names,
        persisted (localStorage st) = VArr (map VStr names) ->
        result loadSavedRecipesOnStart st = Ok tt).
Proof.
  intros Hc Hs. unfold loadSavedRecipesOnStart.
  rewrite (renderSavedRecipesList_result st c items Hc Hs).
  destruct (persisted (localStorage st)) as [| |b|x|s|l|props] eqn:Ep;
    cbn [get_prop].
  6: { split; [destruct (forallb has_text l); auto|].
       split; [split|].
       - intros H. left. exists l. split; [reflexivity|].
         now destruct (forallb has_text l).
       - intros [[l' [[= <-] ->]]|[len [[= <-] Hz]]]; [reflexivity|].
         destruct l as [|x l]; [reflexivity|].
         pose proof (length_is_zero (x :: l)) as Hz'.
         assert (true = false)
           by (etransitivity; [symmetry; exact Hz|exact Hz']).
         discriminate.
       - intros names [= ->]. now rewrite has_text_strings. }
  1, 2: split; [now right|]; split; [|discriminate]; split; [discriminate|];
    intros [[l [H _]]|[len [H _]]]; discriminate.
  all: match goal with
       | |- context [strict_equal ?a ?b] => destruct (strict_equal a b) eqn:Ez
       end;
    (split; [auto|]); (split; [|discriminate]);
    split; try discriminate; try reflexivity.
  all: try (intros _; right; eexists; split; [reflexivity|exact Ez]).
  all: intros [[l [H _]]|[len [H Hz]]]; [discriminate|].
  all: injection H as H; subst len;
    match type of Ez with ?x = false => change (x = true) in Hz end;
    rewrite Ez in Hz; discriminate Hz.
Qed.

Lemma loadSavedRecipesOnStart_returns_witness :
  result loadSavedRecipesOnStart (page_storing (jsq "['Tea','Lasagne']")) = Ok tt
  /\ (result loadSavedRecipesOnStart (page_storing (js "null")) = Ok tt
      \/ result loadSavedRecipesOnStart (page_storing (js "null"))
         = Throw TypeError).
Proof.
  split.
  - apply (proj2 (proj2 (loadSavedRecipesOnStart_returns [] []
                           (page_storing (jsq "['Tea','Lasagne']"))
                           ltac:(reflexivity) ltac:(reflexivity)))
             [js "Tea"; js "Lasagne"]).
    vm_compute. reflexivity.
  - apply (proj1 (loadSavedRecipesOnStart_returns [] []
                    (page_storing (js "null"))
                    ltac:(reflexivity) ltac:(reflexivity))).
Defined.

(** A saved array that holds an object with a [toString] of its own stops
    the start-up call. *)
Example loadSavedRecipesOnStart_bad_name :
  result loadSavedRecipesOnStart (page_storing (jsq "[{'toString':null}]"))
  = Throw TypeError
  /\ result loadSavedRecipesOnStart (page_storing (jsq "[{'name':null}]"))
     = Ok tt.
Proof. split; vm_compute; reflexivity. Qed.

(** ** Loading a recipe *)

Lemma recipe_html_broken recipe :
  (forall s, get_own recipe (js "strInstructions") <> VStr s) ->
  recipe_html recipe = Throw TypeError.
Proof.
  intros H. destruct (recipe_html recipe) as [html|e] eqn:Eh.
  - destruct (recipe_html_Ok _ _ Eh) as [s Hs]. destruct (H s Hs).
  - now rewrite (recipe_html_TypeError _ _ Eh).
Qed.

(** [fetchAndDisplayRecipeByName], run on a page that has the display. *)
Lemma fetchByName_run name s d st :
  truthy name = true -> recipeDisplay st = Some d ->
  fetchAndDisplayRecipeByName name s st = (Ok tt, by_name_outcome name s st).
Proof.
  intros Ht Hd. unfold fetchAndDisplayRecipeByName, by_name_outcome.
  rewrite Ht. cbn [negb].
  destruct st as [cur dis out thm con lst ls key log rq fb]. cbn in Hd. subst dis.
  cbv beta iota delta [bind lift try_catch throw ret fetch console_error
                         set_recipeDisplay_innerHTML recipeDisplay
                         put_recipeDisplay].
  destruct (encodeURIComponent (ToString name)) as [encoded|e]; [|reflexivity].
  destruct s as [|res]; [reflexivity|].
  destruct (ok res); cbn [negb]; [|reflexivity].
  destruct (json res) as [data|e]; [|reflexivity].
  destruct (truthy (first_meal data)); cbn [negb]; [|reflexivity].
  rewrite renderRecipe_run.
  destruct (recipe_html (first_meal data)) as [html|e] eqn:Eh; [reflexivity|].
  reflexivity.
Qed.

(** [fetchAndDisplayRandomRecipe], run on a page that has the display. *)
Lemma fetchRandom_run s d st :
  recipeDisplay st = Some d ->
  fetchAndDisplayRandomRecipe s st = (Ok tt, random_outcome s st).
Proof.
  intros Hd. unfold fetchAndDisplayRandomRecipe, random_outcome.
  destruct st as [cur dis out thm con lst ls key log rq fb]. cbn in Hd. subst dis.
  cbv beta iota delta [bind lift try_catch throw ret fetch
                         set_recipeDisplay_innerHTML recipeDisplay
                         put_recipeDisplay].
  destruct s as [|res]; [reflexivity|].
  destruct (json res) as [data|e]; [|reflexivity].
  destruct (truthy (first_meal data)); cbn [negb]; [|reflexivity].
  rewrite renderRecipe_run.
  destruct (recipe_html (first_meal data)) as [html|e] eqn:Eh; reflexivity.
Qed.

Lemma record_truthy v k s : get_own v k = VStr s -> truthy v = true.
Proof.
  destruct v as [| |b|x|s0|l|props]; simpl; try discriminate; try reflexivity.
  destruct s0 as [|c s0]; [|reflexivity].
  destruct (str_eqb k (js "length")); [discriminate|].
  destruct (index_of_key k) as [[|i]|]; discriminate.
Qed.

(** X16. The failures of [fetchAndDisplayRecipeByName] that come before a
    recipe is found end alike on a page that has the display: the error is
    logged once, the display holds the message of a failed load, the
    current recipe is the one from before. There are four of them: a name
    that cannot be encoded, which sends no request; a transport failure,
    which logs [NetworkFailure]; a response that is not a success, which
    logs the error that names its status; a body that is not JSON, which
    logs a [SyntaxError]. (A recipe that is found and cannot be rendered
    is logged and shown in the same way, but has become the current
    recipe by then.) *)
Theorem fetchByName_failures (name : value) (d : Display) (st : State) :
  truthy name = true ->
  recipeDisplay st = Some d ->
  (forall s e,
      encodeURIComponent (ToString name) = Throw e ->
      fetchAndDisplayRecipeByName name s st = (Ok tt, load_failed e st))
  /\ (forall encoded,
        encodeURIComponent (ToString name) = Ok encoded ->
        fetchAndDisplayRecipeByName name Rejected st
        = (Ok tt, load_failed NetworkFailure (sent (GET (search_url encoded)) st))
        /\ (forall res,
              ok res = false ->
              fetchAndDisplayRecipeByName name (Fulfilled res) st
              = (Ok tt,
                 load_failed (mealdb_error res)
                   (sent (GET (search_url encoded)) st)))
        /\ (forall res e,
              ok res = true -> json res = Throw e ->
              fetchAndDisplayRecipeByName name (Fulfilled res) st
              = (Ok tt,
                 load_failed SyntaxError (sent (GET (search_url encoded)) st)))).
Proof.
  intros Ht Hd. split; [|intros encoded He; split; [|split]].
  - intros s e He. rewrite (fetchByName_run name s d st Ht Hd).
    unfold by_name_outcome. now rewrite He.
  - rewrite (fetchByName_run name _ d st Ht Hd).
    unfold by_name_outcome. now rewrite He.
  - intros res Ho. rewrite (fetchByName_run name _ d st Ht Hd).
    unfold by_name_outcome. now rewrite He, Ho.
  - intros res e Ho Hj. rewrite (fetchByName_run name _ d st Ht Hd).
    unfold by_name_outcome. rewrite He, Ho, Hj.
    unfold json in Hj. now rewrite (JSON_parse_SyntaxError _ _ Hj).
Qed.

Lemma fetchByName_failures_witness :
  fetchAndDisplayRecipeByName (VStr [55357%N]) Rejected (page_showing tea)
  = (Ok tt, load_failed URIError (page_showing tea))
  /\ fetchAndDisplayRecipeByName (VStr (js "Tea")) Rejected (page_showing tea)
     = (Ok tt,
        load_failed NetworkFailure
          (sent (GET (search_url (js "Tea"))) (page_showing tea))).
Proof.
  split.
  - apply (proj1 (fetchByName_failures (VStr [55357%N])
                    {| innerHTML := []; save_listener := false |}
                    (page_showing tea) ltac:(reflexivity) ltac:(reflexivity))).
    reflexivity.
  - apply (proj1 (proj2 (fetchByName_failures (VStr (js "Tea"))
                           {| innerHTML := []; save_listener := false |}
                           (page_showing tea) ltac:(reflexivity)
                           ltac:(reflexivity))
                    (js "Tea") ltac:(reflexivity))).
Defined.

(** X17. A recipe that was found is rendered: with an encodable name, a
    successful response and a first meal whose name and picture address
    can be converted to a string, whose ingredient list can be built and
    whose instructions are a string, the call sends one request to the
    search address of the encoded name, writes the markup of the meal
    into the display and makes the meal the current recipe; nothing is
    logged. The listener of the save button is attached exactly when the
    lookup of the button in that markup finds an element. *)
Theorem fetchByName_renders (name : value) (encoded : jsstring) (res : Response)
        (data : value) (items instr : jsstring) (d : Display) (st : State) :
  truthy name = true ->
  recipeDisplay st = Some d ->
  encodeURIComponent (ToString name) = Ok encoded ->
  ok res = true ->
  json res = Ok data ->
  stringable (get_own (first_meal data) (js "strMeal")) = true ->
  stringable (get_own (first_meal data) (js "strMealThumb")) = true ->
  getIngredientsHtml (first_meal data) = Ok items ->
  get_own (first_meal data) (js "strInstructions") = VStr instr ->
  fetchAndDisplayRecipeByName name (Fulfilled res) st
  = (Ok tt,
     put_recipeDisplay
       {| innerHTML :=
            recipe_markup (get_own (first_meal data) (js "strMeal"))
              (get_own (first_meal data) (js "strMealThumb")) items
              (VStr (replace_crlf_br instr));
          save_listener :=
            finds_save_btn st
              (recipe_markup (get_own (first_meal data) (js "strMeal"))
                 (get_own (first_meal data) (js "strMealThumb")) items
                 (VStr (replace_crlf_br instr))) |}
       (with_current (first_meal data) (sent (GET (search_url encoded)) st))).
Proof.
  intros Ht Hd He Ho Hj Hm Hp Hi Hs. rewrite (fetchByName_run name _ d st Ht Hd).
  unfold by_name_outcome.
  rewrite He, Ho, Hj, (record_truthy _ _ _ Hs),
    (recipe_html_of_record _ _ _ Hm Hp Hi Hs).
  reflexivity.
Qed.

Lemma fetchByName_renders_witness :
  fetchAndDisplayRecipeByName (VStr (js "Tea")) (Fulfilled tea_response)
    fresh_page
  = (Ok tt,
     put_recipeDisplay
       {| innerHTML :=
            recipe_markup (VStr (js "Tea")) (VStr (js "tea.jpg"))
              (js "<li>1 cup Water</li>") (VStr (js "Boil water."));
          save_listener := true |}
       (with_current recipe_in_failed_response
          (sent (GET (search_url (js "Tea"))) fresh_page))).
Proof.
  apply (fetchByName_renders (VStr (js "Tea")) (js "Tea") tea_response
           (VObj [(js "meals", VArr [recipe_in_failed_response])])
           (js "<li>1 cup Water</li>") (js "Boil water.")
           {| innerHTML := []; save_listener := false |} fresh_page);
    vm_compute; reflexivity.
Defined.

(** X18. A recipe that cannot be rendered still becomes the current one.
    When the first meal of the response is truthy and its instructions are
    not a string, both fetch functions end with their failure message in
    the display, and [currentRecipe] is that meal: [renderRecipe] had
    assigned it before it threw. *)
Theorem broken_recipe_becomes_current (res : Response) (data : value)
        (d : Display) (st : State) :
  recipeDisplay st = Some d ->
  json res = Ok data ->
  truthy (first_meal data) = true ->
  (forall s, get_own (first_meal data) (js "strInstructions") <> VStr s) ->
  fetchAndDisplayRandomRecipe (Fulfilled res) st
  = (Ok tt,
     shown random_failed_message
       (with_current (first_meal data) (sent (GET random_url) st)))
  /\ (forall name encoded,
        truthy name = true ->
        encodeURIComponent (ToString name) = Ok encoded ->
        ok res = true ->
        fetchAndDisplayRecipeByName name (Fulfilled res) st
        = (Ok tt,
           load_failed TypeError
             (with_current (first_meal data)
                (sent (GET (search_url encoded)) st)))).
Proof.
  intros Hd Hj Ht Hs. split.
  - rewrite (fetchRandom_run _ d st Hd). unfold random_outcome.
    now rewrite Hj, Ht, (recipe_html_broken _ Hs).
  - intros name encoded Hn He Ho. rewrite (fetchByName_run name _ d st Hn Hd).
    unfold by_name_outcome.
    now rewrite He, Ho, Hj, Ht, (recipe_html_broken _ Hs).
Qed.

Lemma broken_recipe_becomes_current_witness :
  currentRecipe (after (fetchAndDisplayRandomRecipe (Fulfilled bare_response))
                   (page_showing tea))
  = bare_recipe
  /\ recipeDisplay (after (fetchAndDisplayRandomRecipe (Fulfilled bare_response))
                      (page_showing tea))
     = Some {| innerHTML := random_failed_message; save_listener := false |}.
Proof.
  unfold after.
  rewrite (proj1 (broken_recipe_becomes_current bare_response
                    (VObj [(js "meals", VArr [bare_recipe])])
                    {| innerHTML := []; save_listener := false |}
                    (page_showing tea) ltac:(reflexivity)
                    ltac:(vm_compute; reflexivity) ltac:(reflexivity)
                    ltac:(intros s H; vm_compute in H; discriminate H))).
  split; reflexivity.
Defined.

(** X19. On a page that has the display, [fetchAndDisplayRandomRecipe]
    never throws, sends exactly one request, to the random-recipe address,
    and logs nothing; the store, the saved-recipes region and the remix
    output are left as they were. *)
Theorem fetchRandom_frame (s : settled) (d : Display) (st : State) :
  recipeDisplay st = Some d ->
  result (fetchAndDisplayRandomRecipe s) st = Ok tt
  /\ requests (after (fetchAndDisplayRandomRecipe s) st)
     = requests st ++ [GET random_url]
  /\ console (after (fetchAndDisplayRandomRecipe s) st) = console st
  /\ localStorage (after (fetchAndDisplayRandomRecipe s) st) = localStorage st
  /\ savedContainer (after (fetchAndDisplayRandomRecipe s) st) = savedContainer st
  /\ savedList (after (fetchAndDisplayRandomRecipe s) st) = savedList st
  /\ remixOutput (after (fetchAndDisplayRandomRecipe s) st) = remixOutput st.
Proof.
  intros Hd. unfold result, after. rewrite (fetchRandom_run s d st Hd).
  unfold random_outcome. cbn [fst snd].
  destruct s as [|res]; [repeat split|].
  destruct (json res) as [data|e]; [|repeat split].
  destruct (truthy (first_meal data)); [|repeat split].
  destruct (recipe_html (first_meal data)); repeat split.
Qed.

Lemma fetchRandom_frame_witness :
  result (fetchAndDisplayRandomRecipe (Fulfilled tea_response)) fresh_page = Ok tt
  /\ requests (after (fetchAndDisplayRandomRecipe (Fulfilled tea_response))
                 fresh_page)
     = requests fresh_page ++ [GET random_url].
Proof.
  destruct (fetchRandom_frame (Fulfilled tea_response)
              {| innerHTML := []; save_listener := false |} fresh_page
              ltac:(reflexivity)) as (H1 & H2 & _).
  split; [exact H1|exact H2].
Defined.

(** X20. The failures of [fetchAndDisplayRandomRecipe] cannot be told
    apart. On a page that has the display, a transport failure, a body
    that is not JSON and a response without a first meal all leave the
    same state: the request sent, the failure message in the display, the
    current recipe untouched, nothing logged. *)
Theorem fetchRandom_failures (d : Display) (st : State) :
  recipeDisplay st = Some d ->
  after (fetchAndDisplayRandomRecipe Rejected) st
  = shown random_failed_message (sent (GET random_url) st)
  /\ (forall res e,
        json res = Throw e ->
        after (fetchAndDisplayRandomRecipe (Fulfilled res)) st
        = shown random_failed_message (sent (GET random_url) st))
  /\ (forall res data,
        json res = Ok data -> truthy (first_meal data) = false ->
        after (fetchAndDisplayRandomRecipe (Fulfilled res)) st
        = shown random_failed_message (sent (GET random_url) st)).
Proof.
  intros Hd. unfold after. split; [|split].
  - now rewrite (fetchRandom_run _ d st Hd).
  - intros res e Hj. rewrite (fetchRandom_run _ d st Hd).
    unfold random_outcome. now rewrite Hj.
  - intros res data Hj Ht. rewrite (fetchRandom_run _ d st Hd).
    unfold random_outcome. now rewrite Hj, Ht.
Qed.

Lemma fetchRandom_failures_witness :
  after (fetchAndDisplayRandomRecipe (Fulfilled response_without_recipe))
    (page_showing tea)
  = shown random_failed_message (sent (GET random_url) (page_showing tea)).
Proof.
  apply (proj2 (proj2 (fetchRandom_failures
                         {| innerHTML := []; save_listener := false |}
                         (page_showing tea) ltac:(reflexivity)))
           response_without_recipe (VObj [(js "meals", VNull)]));
    vm_compute; reflexivity.
Defined.

(** X21. A random recipe is rendered: with a response, of whatever status,
    whose first meal has a name and a picture address that can be
    converted to a string, an ingredient list that can be built and
    instructions that are a string, the call writes the markup of the meal
    into the display and makes the meal the current recipe. The listener
    of the save button is attached exactly when the lookup of the button
    in that markup finds an element. *)
Theorem fetchRandom_renders (res : Response) (data : value)
        (items instr : jsstring) (d : Display) (st : State) :
  recipeDisplay st = Some d ->
  json res = Ok data ->
  stringable (get_own (first_meal data) (js "strMeal")) = true ->
  stringable (get_own (first_meal data) (js "strMealThumb")) = true ->
  getIngredientsHtml (first_meal data) = Ok items ->
  get_own (first_meal data) (js "strInstructions") = VStr instr ->
  fetchAndDisplayRandomRecipe (Fulfilled res) st
  = (Ok tt,
     put_recipeDisplay
       {| innerHTML :=
            recipe_markup (get_own (first_meal data) (js "strMeal"))
              (get_own (first_meal data) (js "strMealThumb")) items
              (VStr (replace_crlf_br instr));
          save_listener :=
            finds_save_btn st
              (recipe_markup (get_own (first_meal data) (js "strMeal"))
                 (get_own (first_meal data) (js "strMealThumb")) items
                 (VStr (replace_crlf_br instr))) |}
       (with_current (first_meal data) (sent (GET random_url) st))).
Proof.
  intros Hd Hj Hm Hp Hi Hs. rewrite (fetchRandom_run _ d st Hd).
  unfold random_outcome.
  now rewrite Hj, (record_truthy _ _ _ Hs),
    (recipe_html_of_record _ _ _ Hm Hp Hi Hs).
Qed.

Lemma fetchRandom_renders_witness :
  fetchAndDisplayRandomRecipe (Fulfilled tea_response) (page_showing tea)
  = (Ok tt,
     put_recipeDisplay
       {| innerHTML :=
            recipe_markup (VStr (js "Tea")) (VStr (js "tea.jpg"))
              (js "<li>1 cup Water</li>") (VStr (js "Boil water."));
          save_listener := true |}
       (with_current recipe_in_failed_response
          (sent (GET random_url) (page_showing tea)))).
Proof.
  apply (fetchRandom_renders tea_response
           (VObj [(js "meals", VArr [recipe_in_failed_response])])
           (js "<li>1 cup Water</li>") (js "Boil water.")
           {| innerHTML := []; save_listener := false |} (page_showing tea));
    vm_compute; reflexivity.
Defined.

(** X22. Without the display nothing is fetched: on a page that lacks
    [#recipe-display], both fetch functions throw a [TypeError] at their
    first statement, outside their [try]; no request is sent and the state
    is left as it was. *)
Theorem fetch_without_display (s : settled) (st : State) :
  recipeDisplay st = None ->
  fetchAndDisplayRandomRecipe s st = (Throw TypeError, st)
  /\ (forall name,
        truthy name = true ->
        fetchAndDisplayRecipeByName name s st = (Throw TypeError, st)).
Proof.
  intros Hd. split.
  - unfold fetchAndDisplayRandomRecipe, bind, set_recipeDisplay_innerHTML.
    now rewrite Hd.
  - intros name Ht.
    unfold fetchAndDisplayRecipeByName. rewrite Ht. cbn [negb].
    unfold bind, set_recipeDisplay_innerHTML. now rewrite Hd.
Qed.

Lemma fetch_without_display_witness :
  fetchAndDisplayRandomRecipe Rejected page_without_display
  = (Throw TypeError, page_without_display).
Proof.
  apply (proj1 (fetch_without_display Rejected page_without_display
                  ltac:(reflexivity))).
Defined.

(** ** Remix *)

(** [remixRecipe], run. *)
Lemma remixRecipe_run recipeJson theme s st :
  remixRecipe recipeJson theme s st
  = match remix_ingredients recipeJson with
    | Throw e => (Throw e, st)
    | Ok _ =>
        match OPENAI_API_KEY st with
        | None => (Throw ReferenceError, st)
        | Some key =>
            (chat_outcome s,
             sent (chat_request key (userPrompt recipeJson theme)) st)
        end
    end.
Proof.
  unfold remixRecipe, chat_outcome, openai_error, sent.
  destruct st as [cur dis out thm con lst ls [key|] log rq fb];
    cbv beta iota delta [bind lift try_catch throw ret read_OPENAI_API_KEY
                           fetch OPENAI_API_KEY];
    (destruct (remix_ingredients recipeJson) as [ings|e]; [|reflexivity]);
    [|reflexivity].
  destruct s as [|res]; [reflexivity|].
  destruct (ok res); cbn [negb]; [|reflexivity].
  destruct (json res) as [data|e]; [|reflexivity].
  destruct (truthy (first_reply data)); reflexivity.
Qed.

(** X23. What [remixRecipe] does. If the loop over the ingredient slots
    throws, or [OPENAI_API_KEY] is not declared ([ReferenceError]), no
    request is sent and the state is left as it was. Otherwise exactly one
    request goes out and the call throws [NetworkFailure] on a transport
    failure, the error that carries status and body on a response that is
    not a success, a [SyntaxError] on a body that is not JSON, and returns
    the first reply when it is truthy. *)
Theorem remixRecipe_outcomes (recipeJson : value) (theme : jsstring)
        (st : State) :
  (forall e s,
      remix_ingredients recipeJson = Throw e ->
      remixRecipe recipeJson theme s st = (Throw e, st))
  /\ (forall ingredients s,
        remix_ingredients recipeJson = Ok ingredients ->
        OPENAI_API_KEY st = None ->
        remixRecipe recipeJson theme s st = (Throw ReferenceError, st))
  /\ (forall ingredients key,
        remix_ingredients recipeJson = Ok ingredients ->
        OPENAI_API_KEY st = Some key ->
        remixRecipe recipeJson theme Rejected st
        = (Throw NetworkFailure,
           sent (chat_request key (userPrompt recipeJson theme)) st)
        /\ (forall res,
              ok res = false ->
              remixRecipe recipeJson theme (Fulfilled res) st
              = (Throw (openai_error res),
                 sent (chat_request key (userPrompt recipeJson theme)) st))
        /\ (forall res e,
              ok res = true -> json res = Throw e ->
              remixRecipe recipeJson theme (Fulfilled res) st
              = (Throw SyntaxError,
                 sent (chat_request key (userPrompt recipeJson theme)) st))
        /\ (forall res data,
              ok res = true -> json res = Ok data ->
              truthy (first_reply data) = true ->
              remixRecipe recipeJson theme (Fulfilled res) st
              = (Ok (first_reply data),
                 sent (chat_request key (userPrompt recipeJson theme)) st))).
Proof.
  split; [|split].
  - intros e s He. now rewrite remixRecipe_run, He.
  - intros ings s Hi Hk. now rewrite remixRecipe_run, Hi, Hk.
  - intros ings key Hi Hk. repeat split.
    + now rewrite remixRecipe_run, Hi, Hk.
    + intros res Ho. rewrite remixRecipe_run, Hi, Hk. unfold chat_outcome.
      now rewrite Ho.
    + intros res e Ho Hj. rewrite remixRecipe_run, Hi, Hk. unfold chat_outcome.
      rewrite Ho, Hj. unfold json in Hj.
      now rewrite (JSON_parse_SyntaxError _ _ Hj).
    + intros res data Ho Hj Ht. rewrite remixRecipe_run, Hi, Hk.
      unfold chat_outcome. now rewrite Ho, Hj, Ht.
Qed.

Lemma remixRecipe_outcomes_witness :
  remixRecipe tea (js "Make it spicy") (Fulfilled reply_response) fresh_page
  = (Ok (VStr (js "Add chili." ++ [LF; LF] ++ js "Serve hot." ++ [LF]
               ++ js "Enjoy.")),
     sent (chat_request (VStr (js "sk-test")) (userPrompt tea (js "Make it spicy")))
       fresh_page).
Proof.
  apply (proj2 (proj2 (proj2
           (proj2 (proj2 (remixRecipe_outcomes tea (js "Make it spicy") fresh_page))
              [js "1 cup Water"; js "Tea leaves"] (VStr (js "sk-test"))
              ltac:(reflexivity) ltac:(reflexivity))))
           reply_response
           (VObj [(js "choices",
                   VArr [VObj [(js "message",
                                VObj [(js "content",
                                       VStr (js "Add chili." ++ [LF; LF]
                                             ++ js "Serve hot." ++ [LF]
                                             ++ js "Enjoy."))])]])]));
    vm_compute; reflexivity.
Defined.

(** X24. A click on the remix button without a current recipe only shows
    the hint to load one: no request is sent, nothing is logged. *)
Theorem remixClick_without_recipe (s : settled) (html : jsstring) (st : State) :
  truthy (currentRecipe st) = false ->
  remixOutput st = Some html ->
  remixClick s st = (Ok tt, remix_shown load_first_message st).
Proof.
  intros Ht Ho. unfold remixClick, bind, get_state. rewrite Ht. cbn [negb].
  unfold set_remixOutput_innerHTML. now rewrite Ho.
Qed.

Lemma remixClick_without_recipe_witness :
  remixClick Rejected fresh_page
  = (Ok tt, remix_shown load_first_message fresh_page).
Proof.
  apply (remixClick_without_recipe Rejected [] fresh_page); reflexivity.
Defined.

Lemma replace_lf_br_app_br n s :
  replace_lf_br (concat (repeat (js "<br>") n) ++ s)
  = concat (repeat (js "<br>") n) ++ replace_lf_br s.
Proof.
  induction n as [|n IH]; [reflexivity|].
  cbn [repeat concat]. rewrite <- app_assoc.
  change (js "<br>" ++ ?x) with (60 :: 98 :: 114 :: 62 :: x)%N.
  cbn [replace_lf_br N.eqb Pos.eqb LF]. now rewrite IH.
Qed.

(** The first of the two replacements in the click listener changes
    nothing in what is shown. *)
Lemma replace_lf_br_after_pairs s :
  replace_lf_br (replace_lflf_brbr s) = replace_lf_br s.
Proof.
  assert (H : forall n s, length s <= n ->
                          replace_lf_br (replace_lflf_brbr s) = replace_lf_br s).
  { clear s. induction n as [|n IH]; intros [|c s] Hl; try reflexivity;
      [simpl in Hl; lia|].
    cbn [replace_lflf_brbr replace_lf_br]. simpl in Hl.
    destruct (c =? LF)%N eqn:Ec.
    - destruct s as [|d s].
      + cbn [replace_lf_br]. now rewrite Ec.
      + destruct (d =? LF)%N eqn:Ed.
        * cbn [replace_lf_br]. rewrite Ed.
          change (js "<br><br>" ++ ?x)
            with (concat (repeat (js "<br>") 2) ++ x).
          rewrite replace_lf_br_app_br. rewrite IH by (simpl in Hl; lia).
          reflexivity.
        * cbn [replace_lf_br]. rewrite Ec. f_equal.
          rewrite IH by lia. reflexivity.
    - cbn [replace_lf_br]. rewrite Ec. f_equal. apply IH. lia. }
  apply (H (length s)). lia.
Qed.

(** The click listener of the remix button, run on a page that has the
    remix output and a current recipe. *)
Lemma remixClick_run s html st :
  truthy (currentRecipe st) = true ->
  remixOutput st = Some html ->
  remixClick s st
  = (Ok tt,
     match remix_ingredients (currentRecipe st) with
     | Throw e => remix_failed e (remix_shown remix_loading_message st)
     | Ok _ =>
         match OPENAI_API_KEY st with
         | None =>
             remix_failed ReferenceError (remix_shown remix_loading_message st)
         | Some key =>
             let st1 :=
               sent (chat_request key
                       (userPrompt (currentRecipe st) (selected_theme st))) st in
             match chat_outcome s with
             | Ok (VStr reply) => remix_shown (reply_markup reply) st1
             | Ok _ => remix_failed TypeError st1
             | Throw e => remix_failed e st1
             end
         end
     end).
Proof.
  intros Ht Ho.
  destruct st as [cur dis out thm con lst ls k log rq fb]. cbn in Ht, Ho.
  subst out. unfold remixClick, selected_theme.
  cbv beta iota delta [bind get_state currentRecipe remixThemeSelect
                         set_remixOutput_innerHTML remixOutput try_catch].
  rewrite Ht. cbn [negb]. rewrite remixRecipe_run.
  cbn [OPENAI_API_KEY].
  destruct (remix_ingredients cur) as [ings|e]; [|reflexivity].
  destruct k as [key|]; [|reflexivity].
  destruct (chat_outcome s) as [[| | | |reply| |]|e]; try reflexivity.
  unfold reply_markup. rewrite <- replace_lf_br_after_pairs. reflexivity.
Qed.

(** The click listener in terms of the call of [remixRecipe] it makes. *)
Lemma remixClick_by_call s html st :
  truthy (currentRecipe st) = true ->
  remixOutput st = Some html ->
  remixClick s st
  = (Ok tt,
     let call := remixRecipe (currentRecipe st) (selected_theme st) s in
     match result call st with
     | Ok (VStr reply) => remix_shown (reply_markup reply) (after call st)
     | Ok _ => remix_failed TypeError (after call st)
     | Throw e => remix_failed e (after call st)
     end).
Proof.
  intros Ht Ho. rewrite (remixClick_run s html st Ht Ho).
  unfold result, after. cbv zeta. rewrite remixRecipe_run.
  destruct (remix_ingredients (currentRecipe st)) as [ings|e];
    [|destruct st; reflexivity].
  destruct (OPENAI_API_KEY st) as [key|]; [|destruct st; reflexivity].
  cbn [fst snd]. reflexivity.
Qed.

(** X25. A reply is shown with its line breaks. When the call of
    [remixRecipe] that the click listener makes, with the current recipe
    and the selected theme ([Make it interesting] when the selector is
    missing or empty), returns a string, the remix output holds the reply
    with every line feed turned into [<br>], wrapped in the result
    [<div>]; the replacement of pairs of line feeds that comes first makes
    no difference. Nothing is logged. *)
Theorem remixClick_shows_reply (s : settled) (reply html : jsstring)
        (st : State) :
  truthy (currentRecipe st) = true ->
  remixOutput st = Some html ->
  result (remixRecipe (currentRecipe st) (selected_theme st) s) st
  = Ok (VStr reply) ->
  remixClick s st
  = (Ok tt,
     remix_shown (reply_markup reply)
       (after (remixRecipe (currentRecipe st) (selected_theme st) s) st)).
Proof.
  intros Ht Ho Hr. rewrite (remixClick_by_call s html st Ht Ho).
  cbv zeta. now rewrite Hr.
Qed.

Lemma remixClick_shows_reply_witness :
  remixClick (Fulfilled reply_response) page_without_theme
  = (Ok tt,
     remix_shown
       (jsq "<div class='remix-result'>Add chili.<br><br>Serve hot.<br>Enjoy.</div>")
       (sent (chat_request (VStr (js "sk-test"))
                (userPrompt tea (js "Make it interesting")))
          page_without_theme)).
Proof.
  rewrite (remixClick_shows_reply (Fulfilled reply_response)
             (js "Add chili." ++ [LF; LF] ++ js "Serve hot." ++ [LF]
              ++ js "Enjoy.") [] page_without_theme
             ltac:(reflexivity) ltac:(reflexivity)
             ltac:(vm_compute; reflexivity)).
  vm_compute. reflexivity.
Defined.

(** X26. Whatever goes wrong in [remixRecipe] is caught by the click
    listener. On a page with a current recipe and the remix output, when
    the call throws, the listener logs that error and shows the message of
    a failed remix; when the call returns a truthy reply that is not a
    string, the [replace] on it throws a [TypeError], which ends the same
    way. *)
Theorem remixClick_failures (s : settled) (html : jsstring) (st : State) :
  truthy (currentRecipe st) = true ->
  remixOutput st = Some html ->
  (forall e,
      result (remixRecipe (currentRecipe st) (selected_theme st) s) st = Throw e ->
      remixClick s st
      = (Ok tt,
         remix_failed e
           (after (remixRecipe (currentRecipe st) (selected_theme st) s) st)))
  /\ (forall v,
        result (remixRecipe (currentRecipe st) (selected_theme st) s) st = Ok v ->
        (forall reply, v <> VStr reply) ->
        remixClick s st
        = (Ok tt,
           remix_failed TypeError
             (after (remixRecipe (currentRecipe st) (selected_theme st) s) st))).
Proof.
  intros Ht Ho. split.
  - intros e Hr. rewrite (remixClick_by_call s html st Ht Ho).
    cbv zeta. now rewrite Hr.
  - intros v Hr Hv. rewrite (remixClick_by_call s html st Ht Ho).
    cbv zeta. rewrite Hr.
    destruct v as [| | | |reply| |]; try reflexivity.
    destruct (Hv reply eq_refl).
Qed.

Lemma remixClick_failures_witness :
  remixClick (Fulfilled failed_response_with_recipe) (page_showing tea)
  = (Ok tt,
     remix_failed (openai_error failed_response_with_recipe)
       (after (remixRecipe (currentRecipe (page_showing tea))
                 (selected_theme (page_showing tea))
                 (Fulfilled failed_response_with_recipe)) (page_showing tea))).
Proof.
  apply (proj1 (remixClick_failures (Fulfilled failed_response_with_recipe) []
                  (page_showing tea) ltac:(reflexivity) ltac:(reflexivity))).
  vm_compute. reflexivity.
Defined.

(** X27. The click listener of the remix button never throws on a page
    that has the remix output, sends at most one request, the chat request
    for the current recipe and the selected theme, and logs at most one
    entry; the current recipe, the display, the store and the
    saved-recipes region are left as they were. *)
Theorem remixClick_frame (s : settled) (html : jsstring) (st : State) :
  remixOutput st = Some html ->
  result (remixClick s) st = Ok tt
  /\ currentRecipe (after (remixClick s) st) = currentRecipe st
  /\ recipeDisplay (after (remixClick s) st) = recipeDisplay st
  /\ localStorage (after (remixClick s) st) = localStorage st
  /\ savedContainer (after (remixClick s) st) = savedContainer st
  /\ savedList (after (remixClick s) st) = savedList st
  /\ (requests (after (remixClick s) st) = requests st
      \/ exists key,
           OPENAI_API_KEY st = Some key
           /\ requests (after (remixClick s) st)
              = requests st
                ++ [chat_request key
                      (userPrompt (currentRecipe st) (selected_theme st))])
  /\ length (console (after (remixClick s) st)) <= S (length (console st)).
Proof.
  intros Ho. unfold result, after.
  destruct (truthy (currentRecipe st)) eqn:Ht.
  - rewrite (remixClick_run s html st Ht Ho). cbn [fst snd].
    destruct (remix_ingredients (currentRecipe st)) as [ings|e].
    + destruct (OPENAI_API_KEY st) as [key|] eqn:Ek.
      * cbv zeta.
        destruct (chat_outcome s) as [[| | | |reply| |]|e];
          repeat split; cbn; try (right; exists key; split; reflexivity);
          rewrite ?length_app; cbn; lia.
      * repeat split; cbn; try (now left); rewrite ?length_app; cbn; lia.
    + repeat split; cbn; try (now left); rewrite ?length_app; cbn; lia.
  - unfold remixClick, bind, get_state. rewrite Ht. cbn [negb].
    unfold set_remixOutput_innerHTML. rewrite Ho. cbn [fst snd].
    repeat split; cbn; try (now left); lia.
Qed.

Lemma remixClick_frame_witness :
  result (remixClick (Fulfilled reply_response)) page_without_theme = Ok tt
  /\ currentRecipe (after (remixClick (Fulfilled reply_response))
                      page_without_theme)
     = currentRecipe page_without_theme.
Proof.
  destruct (remixClick_frame (Fulfilled reply_response) [] page_without_theme
              ltac:(reflexivity)) as (H1 & H2 & _).
  split; [exact H1|exact H2].
Defined.
